(** * LoRA_E5: the training script [peft_lora_embedding_semantic_search.py]

    A shallow embedding of the parts of the script that carry logic of their
    own: the command line and the check of [--dataset_handling], the
    checkpoint-resume arithmetic of [main], its step counts, its training
    loop and what the end of an epoch saves, the tokenized columns, the
    accelerate save and load hooks, the TinyDB-backed record generator, and
    the tensor formulas ([mean_pooling], [get_cosing_embeddings],
    [get_loss]).

    Conventions.
    - Python integers are [Z]; [//] is [Z.div] (both round towards minus
      infinity) and raises [ZeroDivisionError] on a zero divisor.
    - Python strings are [string] (the script only handles ASCII here).
    - A raised exception is the [Raise] outcome of [result].
    - Tensor entries are real numbers: float32 rounding, overflow and NaN
      are outside the model.  Tensors are nested lists. *)

From Stdlib Require Import ZArith NArith List String Ascii Bool Lia.
From Stdlib Require Import DecimalString DecimalN DecimalPos DecimalFacts.
From Stdlib Require Import Reals Lra Permutation.
From stdpp Require Import gmap strings list.

Import ListNotations.
Local Open Scope string_scope.
Local Open Scope list_scope.
Local Open Scope Z_scope.

(* ===================================================================== *)
(** * Part I: definitions                                                *)
(* ===================================================================== *)

(** ** Exceptions and outcomes *)

Inductive exn : Type :=
| AttributeError (name : string)
| ValueError (msg : string)
| IndexError (msg : string)
| TypeError (msg : string)
| UnboundLocalError (name : string)
| ZeroDivisionError
| AssertionError (msg : string)
| SystemExit (code : Z) (msg : string)
| OSError (msg : string)
| StopIteration.

Inductive result (A : Type) : Type :=
| Ok (a : A)
| Raise (e : exn).
Arguments Ok {A} a.
Arguments Raise {A} e.

Definition rbind {A B} (m : result A) (k : A -> result B) : result B :=
  match m with
  | Ok a => k a
  | Raise e => Raise e
  end.

Notation "'let*' x ':=' m 'in' k" := (rbind m (fun x => k))
  (at level 10, x pattern, m at level 100, k at level 200).

(** ** Python strings *)

Module PyStr.

(** [s[i:]] for [0 <= i]. *)
Fixpoint drop (i : nat) (s : string) : string :=
  match i, s with
  | O, _ => s
  | S i', String _ t => drop i' t
  | S _, EmptyString => EmptyString
  end.

(** [s[:i]] for [0 <= i]. *)
Fixpoint take (i : nat) (s : string) : string :=
  match i, s with
  | O, _ => EmptyString
  | S i', String c t => String c (take i' t)
  | S _, EmptyString => EmptyString
  end.

(** [s.rfind(c)] for a one-character [c]: the last index, or -1. *)
Fixpoint rfind (c : ascii) (s : string) : Z :=
  match s with
  | EmptyString => -1
  | String a t =>
      let r := rfind c t in
      if 0 <=? r then r + 1
      else if Ascii.eqb a c then 0 else -1
  end.

(** [sub in s]. *)
Fixpoint contains (sub s : string) : bool :=
  String.prefix sub s ||
  match s with
  | EmptyString => false
  | String _ t => contains sub t
  end.

(** [s.replace(old, new)]: occurrences are taken left to right and do not
    overlap.  [skip] counts the characters of a match still to be dropped. *)
Fixpoint replace_from (old new : string) (skip : nat) (s : string) : string :=
  match s with
  | EmptyString => EmptyString
  | String c t =>
      match skip with
      | S k => replace_from old new k t
      | O =>
          if String.prefix old s
          then (new ++ replace_from old new (String.length old - 1) t)%string
          else String c (replace_from old new O t)
      end
  end.

(** With an empty [old] Python puts [new] before every character and at
    the end. *)
Fixpoint intersperse (new s : string) : string :=
  match s with
  | EmptyString => new
  | String c t => (new ++ String c (intersperse new t))%string
  end.

Definition replace (old new s : string) : string :=
  match old with
  | EmptyString => intersperse new s
  | _ => replace_from old new O s
  end.

(** [os.path.basename] of posixpath: [p[p.rfind('/') + 1:]]. *)
Definition basename (p : string) : string :=
  drop (Z.to_nat (rfind "/" p + 1)) p.

(** The [while] loop of [genericpath._splitext]: looks for a character that
    is not a dot in [p[filenameIndex:dotIndex]]. *)
Fixpoint all_dots (s : string) : bool :=
  match s with
  | EmptyString => true
  | String c t => Ascii.eqb c "." && all_dots t
  end.

(** [os.path.splitext] of posixpath. *)
Definition splitext (p : string) : string * string :=
  let sepIndex := rfind "/" p in
  let dotIndex := rfind "." p in
  if sepIndex <? dotIndex then
    let stem := drop (Z.to_nat (sepIndex + 1)) (take (Z.to_nat dotIndex) p) in
    if all_dots stem then (p, EmptyString)
    else (take (Z.to_nat dotIndex) p, drop (Z.to_nat dotIndex) p)
  else (p, EmptyString).

Definition is_space (c : ascii) : bool :=
  match c with
  | " " | "009" | "010" | "011" | "012" | "013"
  | "028" | "029" | "030" | "031" => true
  | _ => false
  end%char.

Definition is_digit (c : ascii) : bool :=
  match c with
  | "0" | "1" | "2" | "3" | "4" | "5" | "6" | "7" | "8" | "9" => true
  | _ => false
  end%char.

Fixpoint lstrip (s : string) : string :=
  match s with
  | EmptyString => EmptyString
  | String c t => if is_space c then lstrip t else s
  end.

Fixpoint rstrip (s : string) : string :=
  match s with
  | EmptyString => EmptyString
  | String c t =>
      match rstrip t with
      | EmptyString => if is_space c then EmptyString else String c EmptyString
      | t' => String c t'
      end
  end.

Definition strip (s : string) : string := rstrip (lstrip s).

(** Where the scan of a decimal literal stands: nothing read yet, a digit
    just read, an underscore just read. *)
Inductive scan := AtStart | AfterDigit | AfterUnderscore.

(** The digits of a decimal literal; a single underscore may stand between
    two digits. *)
Fixpoint literal_digits (st : scan) (s : string) : option string :=
  match s with
  | EmptyString =>
      match st with AfterDigit => Some EmptyString | _ => None end
  | String c t =>
      if is_digit c then option_map (String c) (literal_digits AfterDigit t)
      else if Ascii.eqb c "_" then
        match st with
        | AfterDigit => literal_digits AfterUnderscore t
        | _ => None
        end
      else None
  end.

Definition unsigned_of_string (s : string) : option Z :=
  match literal_digits AtStart s with
  | Some ds =>
      match NilEmpty.uint_of_string ds with
      | Some d => Some (Z.of_N (N.of_uint d))
      | None => None
      end
  | None => None
  end.

(** [int(s)] on a string, base 10. *)
Definition int (s : string) : result Z :=
  let body := strip s in
  let signed :=
    match body with
    | String "-" t => option_map Z.opp (unsigned_of_string t)
    | String "+" t => unsigned_of_string t
    | _ => unsigned_of_string body
    end in
  match signed with
  | Some z => Ok z
  | None => Raise (ValueError "invalid literal for int() with base 10")
  end.

(** [float(s)] accepts [s]: the text of a float literal.  An underscore
    may stand between two digits only; [prev] is the character before. *)
Fixpoint without_underscores (prev : ascii) (s : string) : option string :=
  match s with
  | EmptyString => if Ascii.eqb prev "_" then None else Some EmptyString
  | String c t =>
      if Ascii.eqb c "_" then
        if is_digit prev then without_underscores c t else None
      else if Ascii.eqb prev "_" && negb (is_digit c) then None
      else option_map (String c) (without_underscores c t)
  end.

(** The digits at the head of [s]: how many, and what follows them. *)
Fixpoint span_digits (s : string) : nat * string :=
  match s with
  | String c t =>
      if is_digit c then let '(n, r) := span_digits t in (S n, r) else (O, s)
  | EmptyString => (O, s)
  end.

Definition lower (c : ascii) : ascii :=
  let n := nat_of_ascii c in
  if (65 <=? n)%nat && (n <=? 90)%nat then ascii_of_nat (n + 32) else c.

Fixpoint lowercase (s : string) : string :=
  match s with
  | EmptyString => EmptyString
  | String c t => String (lower c) (lowercase t)
  end.

Definition unsigned (s : string) : string :=
  match s with
  | String "+" t | String "-" t => t
  | _ => s
  end.

(** [digits [. digits] [e [sign] digits]] with a digit before the
    exponent. *)
Definition decimal_literal (s : string) : bool :=
  let '(n1, r1) := span_digits s in
  let '(n2, r2) :=
    match r1 with
    | String "." t => span_digits t
    | _ => (O, r1)
    end in
  if (n1 + n2 =? 0)%nat then false
  else
    match r2 with
    | EmptyString => true
    | String c t =>
        if Ascii.eqb (lower c) "e" then
          let '(n3, r3) := span_digits (unsigned t) in
          (0 <? n3)%nat && String.eqb r3 ""
        else false
    end.

Definition float_literal (s : string) : bool :=
  match without_underscores "000" (strip s) with
  | None => false
  | Some body =>
      let m := unsigned body in
      let l := lowercase m in
      String.eqb l "inf" || String.eqb l "infinity" || String.eqb l "nan"
      || decimal_literal m
  end.

(** [str(n)] for a non-negative integer. *)
Definition str (n : N) : string := NilEmpty.string_of_uint (N.to_uint n).

End PyStr.

(** ** Values and the argparse namespace *)

Inductive pyval : Type :=
| VNone
| VBool (b : bool)
| VInt (z : Z)
| VStr (s : string)
| VFloat (literal : string).

(** Truth value of an object in a condition. *)
Definition truthy (v : pyval) : bool :=
  match v with
  | VNone => false
  | VBool b => b
  | VInt z => negb (z =? 0)
  | VStr s => negb (String.eqb s "")
  | VFloat _ => true
  end.

Definition is_none (v : pyval) : bool :=
  match v with VNone => true | _ => false end.

(** [v != ""]. *)
Definition ne_empty_str (v : pyval) : bool :=
  match v with VStr s => negb (String.eqb s "") | _ => true end.

Definition as_str (v : pyval) : result string :=
  match v with
  | VStr s => Ok s
  | _ => Raise (TypeError "expected str")
  end.

Definition as_int (v : pyval) : result Z :=
  match v with
  | VInt z => Ok z
  | VBool b => Ok (if b then 1 else 0)
  | _ => Raise (TypeError "expected int")
  end.

(** [a // b] on integers. *)
Definition floordiv (a b : Z) : result Z :=
  if b =? 0 then Raise ZeroDivisionError else Ok (a / b).

(** [argparse.Namespace]: the attributes are the entries of its [__dict__]. *)
Abbreviation Namespace := (gmap string pyval).

(** [args.name]. *)
Definition getattr (args : Namespace) (name : string) : result pyval :=
  match args !! name with
  | Some v => Ok v
  | None => Raise (AttributeError name)
  end.

Module Argparse.

Inductive arg_type := TInt | TFloat | TStr | TStoreTrue.

Record arg_spec := {
  dest : string;
  ty : arg_type;
  default : pyval;
  choices : option (list string);
  required : bool
}.

Definition opt (d : string) (t : arg_type) (v : pyval) : arg_spec :=
  {| dest := d; ty := t; default := v; choices := None; required := false |}.

(** The [add_argument] calls of [parse_args], in their order.  The
    [-h/--help] action that every parser has besides is [help_action]
    below. *)
Definition specs : list arg_spec := [
  opt "dataset_name" TStr VNone;
  opt "max_length" TInt (VInt 128);
  {| dest := "model_name_or_path"; ty := TStr; default := VNone;
     choices := None; required := true |};
  opt "per_device_train_batch_size" TInt (VInt 8);
  opt "per_device_eval_batch_size" TInt (VInt 8);
  opt "learning_rate" TFloat (VFloat "5e-5");
  opt "weight_decay" TFloat (VFloat "0.0");
  opt "num_train_epochs" TInt (VInt 3);
  opt "max_train_steps" TInt VNone;
  opt "gradient_accumulation_steps" TInt (VInt 1);
  {| dest := "lr_scheduler_type"; ty := TStr; default := VStr "linear";
     choices := Some ["linear"; "cosine"; "cosine_with_restarts"; "polynomial";
                      "constant"; "constant_with_warmup"];
     required := false |};
  opt "num_warmup_steps" TInt (VInt 0);
  opt "output_dir" TStr VNone;
  opt "seed" TInt VNone;
  opt "push_to_hub" TStoreTrue (VBool false);
  opt "hub_model_id" TStr VNone;
  opt "hub_token" TStr VNone;
  opt "checkpointing_steps" TStr VNone;
  opt "resume_from_checkpoint" TStr VNone;
  opt "with_tracking" TStoreTrue (VBool false);
  opt "report_to" TStr (VStr "all");
  opt "use_peft" TStoreTrue (VBool false);
  {| dest := "dataset_handling"; ty := TStr; default := VStr "memory";
     choices := Some ["memory"; "streaming"]; required := false |}
].

(** A command line, option names already resolved: [--name value] is
    [(name, Some value)] and a bare [--name] is [(name, None)]. *)
Definition argv := list (string * option string).

Definition usage_error (msg : string) : exn := SystemExit 2 msg.

Fixpoint find_spec (name : string) (l : list arg_spec) : option arg_spec :=
  match l with
  | [] => None
  | sp :: l' => if String.eqb (dest sp) name then Some sp else find_spec name l'
  end.

Fixpoint mem_string (s : string) (l : list string) : bool :=
  match l with
  | [] => false
  | x :: l' => String.eqb x s || mem_string s l'
  end.

(** The value an option stores: the [type] conversion, then the [choices]
    check.  A float is kept as its text. *)
Definition convert (sp : arg_spec) (raw : option string) : result pyval :=
  match ty sp, raw with
  | TStoreTrue, None => Ok (VBool true)
  | TStoreTrue, Some _ => Raise (usage_error "ignored explicit argument")
  | _, None => Raise (usage_error "expected one argument")
  | t, Some s =>
      let* v :=
        match t with
        | TInt =>
            match PyStr.int s with
            | Ok z => Ok (VInt z)
            | Raise _ => Raise (usage_error "invalid int value")
            end
        | TFloat =>
            if PyStr.float_literal s then Ok (VFloat s)
            else Raise (usage_error "invalid float value")
        | _ => Ok (VStr s)
        end in
      match choices sp with
      | Some l =>
          if mem_string s l then Ok v else Raise (usage_error "invalid choice")
      | None => Ok v
      end
  end.

Definition defaults : Namespace :=
  fold_right (fun sp ns => <[dest sp := default sp]> ns) ∅ specs.

(** The [-h/--help] action every parser has: it prints the help and
    exits with status 0. *)
Definition help_action (raw : option string) : exn :=
  match raw with
  | None => SystemExit 0 "help"
  | Some _ => usage_error "ignored explicit argument"
  end.

(** Consumes the command line from left to right; a later occurrence of an
    option overwrites an earlier one.  An option the parser does not know
    is set aside: the parser complains about it at the end. *)
Fixpoint consume (line : argv) (ns : Namespace) : result Namespace :=
  match line with
  | [] => Ok ns
  | (name, raw) :: rest =>
      if String.eqb name "help" then Raise (help_action raw)
      else
        match find_spec name specs with
        | None => consume rest ns
        | Some sp =>
            let* v := convert sp raw in
            consume rest (<[name := v]> ns)
        end
  end.

Definition unrecognized (line : argv) : bool :=
  existsb (fun o => match find_spec (fst o) specs with
                    | None => true
                    | Some _ => false
                    end) line.

Definition given (name : string) (line : argv) : bool :=
  existsb (fun o => String.eqb (fst o) name) line.

Definition missing_required (line : argv) : bool :=
  existsb (fun sp => required sp && negb (given (dest sp) line)) specs.

(** [parser.parse_args()]. *)
Definition parse (line : argv) : result Namespace :=
  let* ns := consume line defaults in
  if missing_required line
  then Raise (usage_error "the following arguments are required")
  else if unrecognized line
  then Raise (usage_error "unrecognized arguments")
  else Ok ns.

End Argparse.

(** [parse_args()] of the script: the parser, then the [--push_to_hub]
    assertion. *)
Definition parse_args (line : Argparse.argv) : result Namespace :=
  let* args := Argparse.parse line in
  let* push := getattr args "push_to_hub" in
  if truthy push then
    let* out := getattr args "output_dir" in
    if is_none out
    then Raise (AssertionError
      "Need an `output_dir` to create a repo when `--push_to_hub` is passed.")
    else Ok args
  else Ok args.

(** ** [main]: resuming from a checkpoint *)

(** Lines 467-490 of [main] write the step and epoch counts back into
    [args]. *)
Definition store_counts (args : Namespace) (max_train_steps num_train_epochs : Z)
  : Namespace :=
  <["num_train_epochs" := VInt num_train_epochs]>
    (<["max_train_steps" := VInt max_train_steps]> args).

(** The three locals the resume block of [main] leaves behind.
    [resume_step] is [None] while the name is unbound, [Some None] when it
    holds Python's [None]. *)
Record locals := {
  completed_steps : Z;
  starting_epoch : Z;
  resume_step : option (option Z)
}.

(** What the resume block finds outside: the outcome of
    [accelerator.load_state] and the directories of the working directory,
    oldest first. *)
Record resume_env := {
  load_state : string -> result unit;
  cwd_dirs : list string
}.

(** Lines 536-566 of [main]. *)
Definition resume (env : resume_env) (args : Namespace)
    (num_update_steps_per_epoch len_train : Z) : result locals :=
  let* rfc := getattr args "resume_from_checkpoint" in
  if truthy rfc then
    let* path :=
      if negb (is_none rfc) || ne_empty_str rfc then
        let* ckpt := as_str rfc in
        let* _ := load_state env ckpt in
        Ok (PyStr.basename ckpt)
      else
        match last (cwd_dirs env) with
        | Some d => Ok d
        | None => Raise (IndexError "list index out of range")
        end in
    let training_difference := fst (PyStr.splitext path) in
    if PyStr.contains "epoch" training_difference then
      let* i := PyStr.int (PyStr.replace "epoch_" "" training_difference) in
      let starting_epoch := i + 1 in
      Ok {| completed_steps := starting_epoch * num_update_steps_per_epoch;
            starting_epoch := starting_epoch;
            resume_step := Some None |}
    else
      let* n := PyStr.int (PyStr.replace "step_" "" training_difference) in
      let* gv := getattr args "gradient_accumulation_steps" in
      let* g := as_int gv in
      let resume_step := n * g in
      let* starting_epoch := floordiv resume_step len_train in
      let resume_step := resume_step - starting_epoch * len_train in
      let* gv' := getattr args "gradient_accumulation_stepp" in
      let* g' := as_int gv' in
      let* completed_steps := floordiv resume_step g' in
      Ok {| completed_steps := completed_steps;
            starting_epoch := starting_epoch;
            resume_step := Some (Some resume_step) |}
  else
    Ok {| completed_steps := 0; starting_epoch := 0; resume_step := None |}.

(** What an epoch iterates over. *)
Inductive dataloader : Type :=
| TrainDataloader
| SkipFirstBatches (n : Z).

(** Lines 575-585 of [main]: the dataloader of epoch [epoch]. *)
Definition active_dataloader (args : Namespace) (st : locals) (epoch : Z)
  : result dataloader :=
  let* rfc := getattr args "resume_from_checkpoint" in
  if truthy rfc && (epoch =? starting_epoch st) then
    match resume_step st with
    | None => Raise (UnboundLocalError "resume_step")
    | Some None => Ok TrainDataloader
    | Some (Some n) => Ok (SkipFirstBatches n)
    end
  else Ok TrainDataloader.

(** ** The accelerate save and load hooks *)

(** [l.pop()]: the last element and the list without it. *)
Definition py_pop {A} (l : list A) : option (list A * A) :=
  match last l with
  | Some x => Some (removelast l, x)
  | None => None
  end.

Module Hooks.
Section Hooks.
Context {M W : Type}.

(** The caller's [weights] list, which the hook mutates, and the calls of
    [model.save_pretrained(output_dir, state_dict=w)] made so far. *)
Record save_state := {
  weights : list W;
  saved : list (M * string * W)
}.

(** The [for i, model in enumerate(models)] loop of [save_model_hook], from
    index [i] on. *)
Fixpoint save_loop (output_dir : string) (i : nat) (models : list M)
    (st : save_state) : save_state * result unit :=
  match models with
  | [] => (st, Ok tt)
  | model :: rest =>
      match weights st !! i with
      | None => (st, Raise (IndexError "list index out of range"))
      | Some w =>
          let log := saved st ++ [(model, output_dir, w)] in
          match py_pop (weights st) with
          | None =>
              ({| weights := weights st; saved := log |},
               Raise (IndexError "pop from empty list"))
          | Some (ws, _) =>
              save_loop output_dir (S i) rest {| weights := ws; saved := log |}
          end
      end
  end.

Definition save_model_hook (models : list M) (weights : list W)
    (output_dir : string) : save_state * result unit :=
  save_loop output_dir 0%nat models {| weights := weights; saved := [] |}.

(** [Some a] when the model has both [active_adapter] (with value [a]) and
    [load_adapter]. *)
Variable adapter_of : M -> option string.

(** The caller's [models] list, which the hook mutates, and the calls of
    [model.load_adapter(input_dir, a, is_trainable=True)] made so far. *)
Record load_state := {
  models : list M;
  loaded : list (M * string * string)
}.

(** The [while len(models) > 0] loop of [load_model_hook]; [None] when
    [fuel] iterations did not reach the exit. *)
Fixpoint load_loop (input_dir : string) (fuel : nat) (st : load_state)
  : option load_state :=
  match py_pop (models st) with
  | None => Some st
  | Some (rest, model) =>
      match fuel with
      | O => None
      | S fuel' =>
          let log :=
            match adapter_of model with
            | Some a => loaded st ++ [(model, input_dir, a)]
            | None => loaded st
            end in
          load_loop input_dir fuel' {| models := rest; loaded := log |}
      end
  end.

Definition load_model_hook (models : list M) (input_dir : string)
  : option load_state :=
  load_loop input_dir (length models) {| models := models; loaded := [] |}.

End Hooks.
End Hooks.

(** ** The TinyDB-backed record generator *)

Module TinyDB.

(** The default table of a TinyDB file (TinyDB 4.8, [table.py]): document
    ids and documents in the order of insertion. *)
Abbreviation table Doc := (list (nat * Doc)).

Section TinyDB.
Context {Doc : Type}.

(** [Table._get_next_id]: 1 on an empty table, else the largest id in use
    plus one. *)
Definition next_id (t : table Doc) : nat :=
  match t with
  | [] => 1%nat
  | _ => S (fold_right Nat.max 0%nat (map fst t))
  end.

(** [Table.insert_multiple]: the first document gets [next_id], each
    following one the id after. *)
Fixpoint insert_from (id : nat) (docs : list Doc) : table Doc :=
  match docs with
  | [] => []
  | d :: ds => (id, d) :: insert_from (S id) ds
  end.

Definition insert_multiple (docs : list Doc) (t : table Doc) : table Doc :=
  t ++ insert_from (next_id t) docs.

(** [Table.get(doc_ids=ids)]: the documents of the table, in table order,
    whose id is among [ids]; an id that is not in the table finds nothing. *)
Definition get (ids : list nat) (t : table Doc) : list Doc :=
  map snd (filter (fun e => fst e ∈ ids) t).

End TinyDB.
End TinyDB.

Module Stream.
Section Stream.
Context {Doc : Type}.

(** [Path(file).stem]: the last component of the path without its last
    suffix. *)
Fixpoint components (cur : string) (p : string) : list string :=
  match p with
  | EmptyString => [cur]
  | String c t =>
      if Ascii.eqb c "/" then cur :: components EmptyString t
      else components (cur ++ String c EmptyString)%string t
  end.

Definition path_name (p : string) : string :=
  match last (filter (fun c => c <> "" /\ c <> ".")
                     (components EmptyString p)) with
  | Some n => n
  | None => EmptyString
  end.

Definition path_stem (p : string) : string :=
  let name := path_name p in
  let i := PyStr.rfind "." name in
  if (0 <? i) && (i <? Z.of_nat (String.length name) - 1)
  then PyStr.take (Z.to_nat i) name
  else name.

(** The files the generator sees: the rows [pd.read_csv] finds in a CSV
    file (as [df.to_dict(orient="records")] lists them) and the TinyDB
    files of the working directory. *)
Record files := {
  csv : string -> list Doc;
  stores : gmap string (TinyDB.table Doc)
}.

(** [TinyDB(path)]: the table of the file, empty when the file is new. *)
Definition open_store (fs : files) (path : string) : TinyDB.table Doc :=
  default [] (stores fs !! path).

(** [[ids[i : i + batch_size] for i in range(0, len(ids), batch_size)]] for
    a positive [batch_size]. *)
Fixpoint chunks (fuel batch_size : nat) (ids : list nat) : list (list nat) :=
  match ids, fuel with
  | [], _ => []
  | _, O => []
  | _, S fuel' =>
      take batch_size ids :: chunks fuel' batch_size (drop batch_size ids)
  end.

Definition sub_id_lists (batch_size : Z) (ids : list nat)
  : result (list (list nat)) :=
  if batch_size =? 0 then Raise (ValueError "range() arg 3 must not be zero")
  else if batch_size <? 0 then Ok []
  else Ok (chunks (length ids) (Z.to_nat batch_size) ids).

(** One run of [iterable_dataset_generator(file, batch_size)] to its end:
    the files afterwards and the records yielded, in order.  [shuffle] is
    what [random.shuffle] does to the id list in this run. *)
Definition iterable_dataset_generator (shuffle : list nat -> list nat)
    (file : string) (batch_size : Z) (fs : files)
  : files * result (list Doc) :=
  let df := csv fs file in
  let store_path := (path_stem file ++ ".json")%string in
  let db := TinyDB.insert_multiple df (open_store fs store_path) in
  let fs' := {| csv := csv fs; stores := <[store_path := db]> (stores fs) |} in
  let ids := shuffle (seq 0%nat (length db)) in
  (fs',
   let* subs := sub_id_lists batch_size ids in
   Ok (concat (map (fun sub_ids => TinyDB.get sub_ids db) subs))).

(** [k] runs of the generator over the same file, one after the other, each
    with its own shuffle; the records of the last run. *)
Fixpoint invocations (shuffles : list (list nat -> list nat))
    (file : string) (batch_size : Z) (fs : files)
  : files * result (list Doc) :=
  match shuffles with
  | [] => (fs, Ok [])
  | [sh] => iterable_dataset_generator sh file batch_size fs
  | sh :: rest =>
      invocations rest file batch_size
        (fst (iterable_dataset_generator sh file batch_size fs))
  end.

End Stream.
End Stream.

(** ** [main]: from the command line to the datasets *)

(** What the script asks of the outside world, in the order it asks. *)
Inductive event : Type :=
| EvAccelerator
| EvSetSeed (seed : Z)
| EvCreateRepo
| EvMakedirs (dir : string)
| EvLoadTokenizer (name : pyval)
| EvLoadCsvDataset (train : pyval) (validation : string)
| EvStreamingDataset (train : pyval) (validation : string)
| EvFirstRecord (split : string)
| EvOpenFile (file : pyval).

(** Events that read the training or validation data. *)
Definition loads_data (e : event) : bool :=
  match e with
  | EvLoadCsvDataset _ _ | EvStreamingDataset _ _ | EvFirstRecord _
  | EvOpenFile _ => true
  | _ => false
  end.

(** A run: the events so far and how it ended. *)
Definition run (A : Type) : Type := list event * result A.

Definition ret {A} (a : A) : run A := ([], Ok a).
Definition emit (e : event) : run unit := ([e], Ok tt).
Definition lift {A} (r : result A) : run A := ([], r).
Definition seq_run {A B} (m : run A) (k : A -> run B) : run B :=
  match m with
  | (t, Ok a) => let '(t', r) := k a in (t ++ t', r)
  | (t, Raise e) => (t, Raise e)
  end.

Notation "'do' x '<-' m ';' k" := (seq_run m (fun x => k))
  (at level 10, x pattern, m at level 100, k at level 200).

(** The outside world of a run.  [answer] is what a library or the file
    system answers to a request: it succeeds or raises.  [csv_train_rows]
    are the rows [load_dataset] finds in the train split and
    [train_file_lines] the lines of the train file.  [read_csv] is what
    [pd.read_csv] answers for a path; when it succeeds the rows are those
    of [data_files], which also holds the TinyDB files.  [shuffle_of] is
    what [random.shuffle] does in the generator's run over a file. *)
Record data_env {Doc : Type} := {
  answer : event -> result unit;
  csv_train_rows : Z;
  train_file_lines : Z;
  read_csv : string -> result unit;
  data_files : @Stream.files Doc;
  shuffle_of : string -> list nat -> list nat
}.
Arguments data_env : clear implicits.

(** A request to the world: the event, then its answer. *)
Definition request {Doc} (env : data_env Doc) (e : event) : run unit :=
  ([e], answer env e).

(** Lines 307-355 of [main], for the main process: nothing here touches
    the data. *)
Definition setup {Doc} (env : data_env Doc) (args : Namespace) : run unit :=
  do _ <- request env EvAccelerator;
  do seed <- lift (getattr args "seed");
  do _ <- (match seed with
           | VNone => ret tt
           | VInt z => request env (EvSetSeed z)
           | _ => ret tt
           end);
  do push <- lift (getattr args "push_to_hub");
  do _ <- (if truthy push then request env EvCreateRepo
           else
             do out <- lift (getattr args "output_dir");
             match out with
             | VStr d => request env (EvMakedirs d)
             | _ => ret tt
             end);
  do name <- lift (getattr args "model_name_or_path");
  request env (EvLoadTokenizer name).

Definition val_eqb_str (v : pyval) (s : string) : bool :=
  match v with VStr s' => String.eqb s' s | _ => false end.

(** [next(iter(dataset[split]))] of lines 388-389: a run of
    [iterable_dataset_generator(file)], with its default [batch_size], up
    to its first record.  [pd.read_csv] raises [ValueError] for what is not
    a path, and [next] raises [StopIteration] when the generator yields
    nothing.  The files are as the generator leaves them. *)
Definition first_record {Doc} (env : data_env Doc) (fs : @Stream.files Doc)
    (file : pyval) : @Stream.files Doc * result Doc :=
  match file with
  | VStr f =>
      match read_csv env f with
      | Raise e => (fs, Raise e)
      | Ok _ =>
          let '(fs', r) :=
            Stream.iterable_dataset_generator (shuffle_of env f) f 1024 fs in
          (fs',
           let* ys := r in
           match ys with
           | [] => Raise StopIteration
           | y :: _ => Ok y
           end)
      end
  | _ => (fs, Raise (ValueError "Invalid file path or buffer object type"))
  end.

(** Lines 358-366: the [memory] branch. *)
Definition load_memory {Doc} (env : data_env Doc) (args : Namespace) : run Z :=
  do name <- lift (getattr args "dataset_name");
  do _ <- request env (EvLoadCsvDataset name "../data/quora_dq_test.csv");
  ret (csv_train_rows env).

(** Lines 367-393: the [streaming] branch. *)
Definition load_streaming {Doc} (env : data_env Doc) (args : Namespace) : run Z :=
  do name <- lift (getattr args "dataset_name");
  do _ <- request env (EvStreamingDataset name "../data/quora_dq_test.csv");
  do _ <- emit (EvFirstRecord "train");
  let '(fs, first) := first_record env (data_files env) name in
  do _ <- lift first;
  do _ <- emit (EvFirstRecord "validation");
  do _ <- lift (snd (first_record env fs (VStr "../data/quora_dq_test.csv")));
  do name' <- lift (getattr args "dataset_name");
  do _ <- request env (EvOpenFile name');
  ret (train_file_lines env).

(** Lines 357-395 of [main]: the datasets and [len_train]. *)
Definition load_datasets {Doc} (env : data_env Doc) (args : Namespace) : run Z :=
  do dh <- lift (getattr args "dataset_handling");
  if val_eqb_str dh "memory" then load_memory env args
  else
    do dh' <- lift (getattr args "dataset_handling");
    if val_eqb_str dh' "streaming" then load_streaming env args
    else lift (Raise (ValueError "Invalid dataset_handling argument")).

(** [main] up to the point where the datasets exist. *)
Definition main_to_datasets {Doc} (env : data_env Doc) (line : Argparse.argv)
  : run (Namespace * Z) :=
  do args <- lift (parse_args line);
  do _ <- setup env args;
  do len_train <- load_datasets env args;
  ret (args, len_train).

(** ** Tensors: pooling, similarity and loss *)

Module Torch.
Local Open Scope R_scope.

Abbreviation vec := (list R).
Abbreviation mat := (list (list R)).
Abbreviation tensor3 := (list (list (list R))).

(** [torch.sum] of a one-dimensional tensor. *)
Definition sum (x : vec) : R := fold_right Rplus 0 x.

(** [torch.mean] of a one-dimensional tensor (nan on an empty one, which
    the model does not have). *)
Definition mean (x : vec) : R := sum x / INR (length x).

(** Elementwise operations on tensors of one shape. *)
Definition mul (x y : vec) : vec := zip_with Rmult x y.
Definition add (x y : vec) : vec := zip_with Rplus x y.
Definition div (x y : vec) : vec := zip_with Rdiv x y.

(** [c - x] for a Python number [c]. *)
Definition rsub (c : R) (x : vec) : vec := map (fun a => c - a) x.

(** [torch.clamp(x, min=m)]. *)
Definition clamp_min (x : vec) (m : R) : vec := map (fun a => Rmax a m) x.

(** [torch.square]. *)
Definition square (x : vec) : vec := map (fun a => a * a) x.

(** [torch.sum(x, axis=1)] of a two-dimensional tensor. *)
Definition sum_axis1 (x : mat) : vec := map sum x.

(** [get_cosing_embeddings(q1_embs, q2_embs)] for two tensors of one
    shape (on other shapes torch broadcasts or raises, which the model does
    not have). *)
Definition get_cosing_embeddings (q1_embs q2_embs : mat) : vec :=
  sum_axis1 (zip_with mul q1_embs q2_embs).

(** [get_loss(cosine_score, labels)]. *)
Definition get_loss (cosine_score labels : vec) : R :=
  mean
    (square
       (add (mul labels (rsub 1 cosine_score))
            (clamp_min (mul (rsub 1 labels) cosine_score) 0))).

(** The hidden size [token_embeddings.size()] reports. *)
Definition hidden_size (x : tensor3) : nat :=
  match x with
  | (tok :: _) :: _ => length tok
  | _ => 0%nat
  end.

(** [attention_mask.unsqueeze(-1).expand(size).float()]: every mask entry
    repeated along the feature dimension. *)
Definition expand_mask (attention_mask : list (list Z)) (H : nat) : tensor3 :=
  map (map (fun m => repeat (IZR m) H)) attention_mask.

(** [x.sum(1)] of a three-dimensional tensor with feature dimension [H]:
    the token vectors of each example added up. *)
Definition sum_dim1 (H : nat) (x : tensor3) : mat :=
  map (fun example => fold_right add (repeat 0 H) example) x.

(** What an encoder returns; [model_output[0]] is [last_hidden_state]. *)
Record model_output := { last_hidden_state : tensor3 }.

(** The divisor of [mean_pooling]:
    [torch.clamp(input_mask_expanded.sum(1), min=1e-9)]. *)
Definition pooling_divisor (input_mask_expanded : tensor3) (H : nat) : mat :=
  map (fun row => clamp_min row 1e-9) (sum_dim1 H input_mask_expanded).

(** [AutoModelForSentenceEmbedding.mean_pooling]. *)
Definition mean_pooling (out : model_output) (attention_mask : list (list Z))
  : mat :=
  let token_embeddings := last_hidden_state out in
  let H := hidden_size token_embeddings in
  let input_mask_expanded := expand_mask attention_mask H in
  zip_with div
    (sum_dim1 H (zip_with (zip_with mul) token_embeddings input_mask_expanded))
    (pooling_divisor input_mask_expanded H).

(** The keyword arguments of a forward call. *)
Record kwargs := {
  input_ids : list (list Z);
  attention_mask : list (list Z)
}.

(** The wrapper: the encoder and the [normalize] flag. *)
Record AutoModelForSentenceEmbedding := {
  model : kwargs -> model_output;
  normalize : bool
}.

Definition sum_squares (v : vec) : R := sum (square v).

(** The L2 norm of a vector. *)
Definition l2_norm (v : vec) : R := sqrt (sum_squares v).

(** [torch.nn.functional.normalize(x, p=2, dim=1)] with its default
    [eps=1e-12]: every row divided by the larger of its norm and [eps]. *)
Definition F_normalize (x : mat) : mat :=
  map (fun v => map (fun a => a / Rmax (l2_norm v) 1e-12) v) x.

(** [AutoModelForSentenceEmbedding.forward]. *)
Definition forward (self : AutoModelForSentenceEmbedding) (kw : kwargs) : mat :=
  let out := model self kw in
  let embeddings := mean_pooling out (attention_mask kw) in
  if normalize self then F_normalize embeddings else embeddings.

(** *** The spec's formulas *)

(** The loss of one pair: [(l(1-s) + max(0, (1-l)s))^2]. *)
Definition pair_loss (l s : R) : R :=
  Rsqr (l * (1 - s) + Rmax 0 ((1 - l) * s)).

(** The mean of the pair losses. *)
Definition mean_pair_loss (labels scores : vec) : R :=
  sum (zip_with pair_loss labels scores) / INR (length labels).

(** The dot product of two vectors. *)
Fixpoint dot (a b : vec) : R :=
  match a, b with
  | x :: a', y :: b' => x * y + dot a' b'
  | _, _ => 0
  end.

(** The cosine similarity of two vectors. *)
Definition cosine_similarity (a b : vec) : R :=
  dot a b / (l2_norm a * l2_norm b).

Definition unit_norm (v : vec) : Prop := l2_norm v = 1.

(** A vector scaled by a number. *)
Definition scale (c : R) (v : vec) : vec := map (fun x => x * c) v.

(** The token vectors of one example, each weighted by its mask entry,
    added up. *)
Definition weighted_sum (H : nat) (tokens : mat) (mask : list Z) : vec :=
  fold_right add (repeat 0 H)
    (zip_with (fun tok m => scale (IZR m) tok) tokens mask).

(** The sum of the mask of one example. *)
Definition mask_total (mask : list Z) : R := sum (map IZR mask).

(** The pooled vector of one example: the weighted sum divided by the mask
    sum clamped below by 1e-9. *)
Definition pooled (H : nat) (tokens : mat) (mask : list Z) : vec :=
  map (fun x => x / Rmax (mask_total mask) 1e-9) (weighted_sum H tokens mask).

End Torch.

(** ** Vocabulary of the properties *)

(** A string of decimal digits, as [str] prints a non-negative integer. *)
Fixpoint all_digits (s : string) : bool :=
  match s with
  | EmptyString => true
  | String c t => PyStr.is_digit c && all_digits t
  end.

(** The character [c] does not occur in [s]. *)
Fixpoint lacks (c : ascii) (s : string) : bool :=
  match s with
  | EmptyString => true
  | String a t => negb (Ascii.eqb a c) && lacks c t
  end.

(** The attributes the resume block asks for: the accumulation factor is an
    integer, and no attribute is called [gradient_accumulation_stepp]. *)
Definition accumulation_attrs (ns : Namespace) : Prop :=
  ns !! "gradient_accumulation_stepp" = None /\
  exists g, ns !! "gradient_accumulation_steps" = Some (VInt g).

(** The two choices of [--dataset_handling]. *)
Definition valid_handling (v : string) : Prop := v = "memory" \/ v = "streaming".

(** What [main] reads from the namespace before and while it makes the
    datasets. *)
Definition setup_attrs (ns : Namespace) : Prop :=
  Forall (fun k => is_Some (ns !! k))
    ["seed"; "push_to_hub"; "output_dir"; "model_name_or_path"; "dataset_name"] /\
  exists v, ns !! "dataset_handling" = Some (VStr v) /\ valid_handling v.

(** The two errors about [dataset_handling]: the parser's usage error and
    the [ValueError] of line 395. *)
Definition dataset_handling_error (e : exn) : Prop :=
  (exists msg, e = SystemExit 2 msg) \/
  e = ValueError "Invalid dataset_handling argument".

(** A world that answers with neither of them. *)
Definition foreign {Doc} (env : data_env Doc) : Prop :=
  forall e, dataset_handling_error e ->
    (forall ev, answer env ev <> Raise e) /\
    (forall file, read_csv env file <> Raise e).

(** A run that does not end in one of them. *)
Definition spared {A} (m : run A) : Prop :=
  forall e, snd m = Raise e -> ~ dataset_handling_error e.

(** The events of a run of [main] and the [len_train] it ends with. *)
Definition events_and_len_train (m : run (Namespace * Z)) : run Z :=
  (fst m,
   match snd m with
   | Ok (_, len_train) => Ok len_train
   | Raise e => Raise e
   end).

(** No event of the trace reads the data. *)
Definition no_data_loaded (t : list event) : Prop :=
  Forall (fun e => loads_data e = false) t.

(** The [load_adapter] calls a list of models asks for, in list order. *)
Fixpoint adapter_loads {M : Type} (adapter_of : M -> option string)
    (input_dir : string) (models : list M) : list (M * string * string) :=
  match models with
  | [] => []
  | m :: rest =>
      match adapter_of m with
      | Some a => (m, input_dir, a) :: adapter_loads adapter_of input_dir rest
      | None => adapter_loads adapter_of input_dir rest
      end
  end.

(** A table whose ids are 1, 2, ... in order: what TinyDB builds when
    documents are only ever inserted. *)
Definition dense {Doc : Type} (t : TinyDB.table Doc) : Prop :=
  map fst t = seq 1 (length t).

(** The store file of a source file: [f"{file_stem}.json"]. *)
Definition store_path (file : string) : string :=
  Stream.path_stem file +:+ ".json".

(** The documents of that store, in table order. *)
Definition store_docs {Doc : Type} (fs : @Stream.files Doc) (file : string)
  : list Doc :=
  map snd (Stream.open_store fs (store_path file)).

(** What [random.shuffle] may do: some permutation of the list. *)
Definition is_shuffle (shuffle : list nat -> list nat) : Prop :=
  forall l, shuffle l ≡ₚ l.

Section LossVocabulary.
Import Torch.
Local Open Scope R_scope.

(** Every pair is where the loss wants it: a duplicate at similarity 1, a
    non-duplicate at similarity 0 or below. *)
Definition all_pairs_ideal (labels scores : vec) : Prop :=
  Forall2 (fun l s => (l = 1 -> s = 1) /\ (l = 0 -> s <= 0)) labels scores.

(** Two batches of embeddings of one shape: as many rows, and row by row
    as many features. *)
Definition same_shape (q1 q2 : mat) : Prop :=
  Forall2 (fun a b => length a = length b) q1 q2.

End LossVocabulary.

(** ** Sample inputs *)

(** [accelerator.load_state] succeeds on every path. *)
Definition loads_fine : resume_env :=
  {| load_state := fun _ => Ok tt; cwd_dirs := [] |}.

(** Command lines that resume from an epoch and from a step checkpoint,
    and the namespaces [parse_args] makes of them. *)
Definition epoch3_line : Argparse.argv :=
  [("model_name_or_path", Some "intfloat/e5-small");
   ("gradient_accumulation_steps", Some "2");
   ("resume_from_checkpoint", Some "out/epoch_3")].

Definition epoch3_args : Namespace :=
  match parse_args epoch3_line with
  | Ok args => args
  | Raise _ => ∅
  end.

Definition step250_line : Argparse.argv :=
  [("model_name_or_path", Some "intfloat/e5-small");
   ("gradient_accumulation_steps", Some "2");
   ("resume_from_checkpoint", Some "out/step_250")].

Definition step250_args : Namespace :=
  match parse_args step250_line with
  | Ok args => args
  | Raise _ => ∅
  end.

(** A train file of three rows and no store file yet. *)
Definition three_rows : @Stream.files string :=
  {| Stream.csv := fun _ => ["row1"; "row2"; "row3"]; Stream.stores := ∅ |}.

(** A world where every request succeeds and nothing is shuffled, over
    files of three rows, a header line before them. *)
Definition sizes : data_env string :=
  {| answer := fun _ => Ok tt;
     csv_train_rows := 3;
     train_file_lines := 4;
     read_csv := fun _ => Ok tt;
     data_files := three_rows;
     shuffle_of := fun _ ids => ids |}.

(** The same world over files of one row. *)
Definition one_row : data_env string :=
  {| answer := fun _ => Ok tt;
     csv_train_rows := 1;
     train_file_lines := 2;
     read_csv := fun _ => Ok tt;
     data_files := {| Stream.csv := fun _ => ["row1"]; Stream.stores := ∅ |};
     shuffle_of := fun _ ids => ids |}.

Section TensorSamples.
Import Torch.
Local Open Scope R_scope.

(** One example of two tokens with hidden size 2, the second token masked
    out; and the same example under an all-zero mask. *)
Definition two_tokens : model_output :=
  {| last_hidden_state := [[[3; 4]; [10; 20]]] |}.

(** An encoder that returns one token with embedding (3, 4) for its one
    example. *)
Definition one_token : AutoModelForSentenceEmbedding :=
  {| model := fun _ => {| last_hidden_state := [[[3; 4]]] |};
     normalize := true |}.

(** One example of one token, masked out and attended to. *)
Definition masked_out : kwargs :=
  {| input_ids := [[101%Z]]; attention_mask := [[0%Z]] |}.

Definition attended : kwargs :=
  {| input_ids := [[101%Z]]; attention_mask := [[1%Z]] |}.

End TensorSamples.

(** ** Checkpoint names and [--checkpointing_steps] *)

(** [str(z)] for any integer. *)
Definition str_int (z : Z) : string :=
  if z <? 0 then String "-" (PyStr.str (Z.to_N (- z))) else PyStr.str (Z.to_N z).

(** [s.endswith(c)] for a one-character [c]. *)
Fixpoint ends_with (c : ascii) (s : string) : bool :=
  match s with
  | EmptyString => false
  | String a EmptyString => Ascii.eqb a c
  | String _ t => ends_with c t
  end.

(** [os.path.join(a, b)] of posixpath. *)
Definition path_join (a b : string) : string :=
  if String.prefix "/" b then b
  else if String.eqb a "" || ends_with "/" a then a +:+ b
  else a +:+ "/" +:+ b.

(** [s.isdigit()] on an ASCII string. *)
Definition isdigit (s : string) : bool :=
  negb (String.eqb s "") && all_digits s.

(** Lines 493-495 of [main]: the local [checkpointing_steps]. *)
Definition checkpointing_steps_of (args : Namespace) : result pyval :=
  let* v := getattr args "checkpointing_steps" in
  match v with
  | VNone => Ok VNone
  | VStr s =>
      if isdigit s then
        let* n := PyStr.int s in Ok (VInt n)
      else Ok (VStr s)
  | _ => Raise (AttributeError "isdigit")
  end.

(** ** [main]: the training loop *)

Module Train.
Import Torch.

(** A collated batch, its columns already split by question. *)
Record batch := {
  question1 : kwargs;
  question2 : kwargs;
  labels : vec
}.

(** What the loop asks of accelerate, the optimizer and the logger.  The
    calls are taken to return: what a library raises is outside the
    model. *)
Inductive train_event : Type :=
| TrTrainMode
| TrBackward (loss : R)
| TrOptimizerStep
| TrSchedulerStep
| TrZeroGrad
| TrProgress
| TrLogInfo (step : Z) (mean_loss : R)
| TrLogTracker (step : Z) (mean_loss : R)
| TrSaveState (dir : string)
| TrSavePretrained (dir : string)
| TrSaveTokenizer (dir : string)
| TrPush (message : string).

(** The locals of [main] the loop updates ([total_loss] is [None] while
    the name is unbound), and the events so far. *)
Record train_state := {
  steps_done : Z;
  total_loss : option R;
  events : list train_event
}.

(** A piece of the loop: it changes the state and returns or raises. *)
Definition M (A : Type) : Type := train_state -> train_state * result A.

Definition mret {A} (a : A) : M A := fun st => (st, Ok a).
Definition mraise {A} (e : exn) : M A := fun st => (st, Raise e).
Definition mlift {A} (r : result A) : M A := fun st => (st, r).
Definition mbind {A B} (m : M A) (k : A -> M B) : M B :=
  fun st =>
    match m st with
    | (st', Ok a) => k a st'
    | (st', Raise e) => (st', Raise e)
    end.

Notation "'let!' x ':=' m 'in' k" := (mbind m (fun x => k))
  (at level 10, x pattern, m at level 100, k at level 200).

Definition emit (e : train_event) : M unit :=
  fun st => ({| steps_done := steps_done st; total_loss := total_loss st;
                events := events st ++ [e] |}, Ok tt).

Definition emit_all (l : list train_event) : M unit :=
  fun st => ({| steps_done := steps_done st; total_loss := total_loss st;
                events := events st ++ l |}, Ok tt).

Definition get_steps : M Z := fun st => (st, Ok (steps_done st)).

Definition set_steps (n : Z) : M unit :=
  fun st => ({| steps_done := n; total_loss := total_loss st;
                events := events st |}, Ok tt).

(** Reading [total_loss]. *)
Definition read_total_loss : M R :=
  fun st =>
    match total_loss st with
    | Some t => (st, Ok t)
    | None => (st, Raise (UnboundLocalError "total_loss"))
    end.

Definition set_total_loss (t : R) : M unit :=
  fun st => ({| steps_done := steps_done st; total_loss := Some t;
                events := events st |}, Ok tt).

(** Lines 590-606: both questions through the model, then the loss. *)
Definition batch_loss (model : AutoModelForSentenceEmbedding) (b : batch) : R :=
  get_loss
    (get_cosing_embeddings (forward model (question1 b))
                           (forward model (question2 b)))
    (labels b).

(** Lines 625-630: the step checkpoint. *)
Definition step_checkpoint (args : Namespace) (checkpointing_steps : pyval)
  : M unit :=
  match checkpointing_steps with
  | VInt c =>
      let! completed := get_steps in
      if c =? 0 then mraise ZeroDivisionError
      else if completed mod c =? 0 then
        let name := "step_" +:+ str_int completed in
        let! out := mlift (getattr args "output_dir") in
        match out with
        | VNone => emit (TrSaveState name)
        | VStr d => emit (TrSaveState (path_join d name))
        | _ => mraise (TypeError "expected str")
        end
      else mret tt
  | _ => mret tt
  end.

(** Lines 618-623: the log line of every hundredth batch. *)
Definition log_progress (args : Namespace) (step : nat) : M unit :=
  if (Z.of_nat step + 1) mod 100 =? 0 then
    let! t := read_total_loss in
    let! _ := emit (TrLogInfo (Z.of_nat step + 1)
                      (t / IZR (Z.of_nat step + 1))%R) in
    let! tracking := mlift (getattr args "with_tracking") in
    if truthy tracking
    then emit (TrLogTracker (Z.of_nat step + 1)
                 (t / IZR (Z.of_nat step + 1))%R)
    else mret tt
  else mret tt.

(** Lines 588-633: the body of the batch loop for the batch at index
    [step]; [sync] is what [accelerator.sync_gradients] reports after the
    update.  Returns whether the loop breaks.  One process: the reduced
    loss is the loss. *)
Definition train_step (args : Namespace) (checkpointing_steps : pyval)
    (model : AutoModelForSentenceEmbedding) (sync : bool) (step : nat)
    (b : batch) : M bool :=
  let loss := batch_loss model b in
  let! t := read_total_loss in
  let! _ := set_total_loss (t + loss)%R in
  let! _ := emit_all [TrBackward loss; TrOptimizerStep; TrSchedulerStep;
                      TrZeroGrad] in
  let! _ := (if sync then
               let! _ := emit TrProgress in
               let! n := get_steps in
               set_steps (n + 1)
             else mret tt) in
  let! _ := log_progress args step in
  let! _ := step_checkpoint args checkpointing_steps in
  let! completed := get_steps in
  let! mv := mlift (getattr args "max_train_steps") in
  let! max_train_steps := mlift (as_int mv) in
  mret (max_train_steps <=? completed).

(** [for step, batch in enumerate(active_dataloader)], from index [step]
    on. *)
Fixpoint train_batches (args : Namespace) (checkpointing_steps : pyval)
    (model : AutoModelForSentenceEmbedding) (sync : nat -> bool) (step : nat)
    (batches : list batch) : M unit :=
  match batches with
  | [] => mret tt
  | b :: rest =>
      let! stop :=
        train_step args checkpointing_steps model (sync step) step b in
      if stop then mret tt
      else train_batches args checkpointing_steps model sync (S step) rest
  end.

(** The batches a dataloader hands out; [skip_first_batches] drops the
    first [n]. *)
Definition batches_of (d : dataloader) (batches : list batch) : list batch :=
  match d with
  | TrainDataloader => batches
  | SkipFirstBatches n => drop (Z.to_nat n) batches
  end.

(** Lines 572-633: the training half of one epoch. *)
Definition train_epoch (args : Namespace) (checkpointing_steps : pyval)
    (model : AutoModelForSentenceEmbedding) (sync : nat -> bool)
    (resumed : locals) (epoch : Z) (batches : list batch) : M unit :=
  let! _ := emit TrTrainMode in
  let! tracking := mlift (getattr args "with_tracking") in
  let! _ := (if truthy tracking then set_total_loss 0%R else mret tt) in
  let! active := mlift (active_dataloader args resumed epoch) in
  train_batches args checkpointing_steps model sync 0
    (batches_of active batches).

(** Lines 669-693, on the main process: what the end of an epoch saves. *)
Definition epoch_end (args : Namespace) (checkpointing_steps : pyval)
    (epoch : Z) : M unit :=
  let! out := mlift (getattr args "output_dir") in
  match out with
  | VNone => mret tt
  | VStr dir =>
      let! _ :=
        (match checkpointing_steps with
         | VStr _ =>
             emit (TrSaveState (path_join dir ("epoch_" +:+ str_int epoch)))
         | _ => mret tt
         end) in
      let! _ := emit (TrSavePretrained dir) in
      let! _ := emit (TrSaveTokenizer dir) in
      let! push := mlift (getattr args "push_to_hub") in
      if truthy push then
        let! ev := mlift (getattr args "num_train_epochs") in
        let! epochs := mlift (as_int ev) in
        emit (TrPush (if epoch <? epochs - 1
                      then "Training in progress epoch " +:+ str_int epoch
                      else "End of training"))
      else mret tt
  | _ => mraise (TypeError "expected str")
  end.

End Train.

(** ** [main]: tokenized columns and the model's keyword arguments *)

Module Preprocess.

(** A Python [dict] in insertion order.  [d[k] = v] keeps the place of a
    key already there and appends a new one. *)
Fixpoint dict_set {V} (k : string) (v : V) (d : list (string * V))
  : list (string * V) :=
  match d with
  | [] => [(k, v)]
  | (k', v') :: t =>
      if String.eqb k' k then (k', v) :: t else (k', v') :: dict_set k v t
  end.

(** [d[k]]; [None] where Python raises [KeyError]. *)
Fixpoint dict_get {V} (k : string) (d : list (string * V)) : option V :=
  match d with
  | [] => None
  | (k', v) :: t => if String.eqb k' k then Some v else dict_get k t
  end.

(** [{f(k): v for k, v in items if keep(k)}]. *)
Definition dict_comprehension {V} (keep : string -> bool) (f : string -> string)
  (items : list (string * V)) : list (string * V) :=
  fold_left (fun d kv => if keep (fst kv) then dict_set (f (fst kv)) (snd kv) d else d)
            items [].

(** A batch of raw rows, by column. *)
Record examples := {
  question1 : list string;
  question2 : list string;
  is_duplicate : list Z
}.

Section WithTokenizer.

(** What the tokenizer returns under one key, and the tokenizer called
    with [padding="max_length"], [max_length] and [truncation=True]. *)
Variable encoding : Type.
Variable tokenizer : list string -> pyval -> list (string * encoding).

(** A column of the processed dataset. *)
Inductive column : Type :=
| Encoded (e : encoding)
| Raw (l : list Z).

Definition query (x : string) : string := "query: " +:+ x.

(** Lines 398-413. *)
Definition preprocess_function (args : Namespace) (ex : examples)
  : result (list (string * column)) :=
  let* max_length := getattr args "max_length" in
  let q1_tk := tokenizer (map query (question1 ex)) max_length in
  let result :=
    dict_comprehension (fun _ => true) (fun k => "question1_" +:+ k)
      (map (fun kv => (fst kv, Encoded (snd kv))) q1_tk) in
  let q2_tk := tokenizer (map query (question2 ex)) max_length in
  let result :=
    fold_left (fun d kv => dict_set ("question2_" +:+ fst kv) (Encoded (snd kv)) d)
              q2_tk result in
  Ok (dict_set "labels" (Raw (is_duplicate ex)) result).

(** Lines 591-595 and 598-602: the keyword arguments the model is called
    with for one question. *)
Definition model_kwargs (prefix : string) (batch : list (string * column))
  : list (string * column) :=
  dict_comprehension (PyStr.contains prefix) (PyStr.replace prefix "") batch.

End WithTokenizer.

End Preprocess.

(** ** [main]: the number of update steps and of epochs *)

(** [math.ceil(a / b)] on integers.  Python rounds the quotient to a
    float before it takes the ceiling, which changes nothing while [a] is
    below [2^53] in absolute value; the model takes the exact quotient. *)
Definition ceil_div (a b : Z) : result Z :=
  if b =? 0 then Raise ZeroDivisionError else Ok (- ((- a) / b)).

(** Lines 465-469 and 485-490: the namespace with [max_train_steps] and
    [num_train_epochs] written back, and [num_update_steps_per_epoch]. *)
Definition step_counts (args : Namespace) (len_train : Z)
  : result (Namespace * Z) :=
  let* mv := getattr args "max_train_steps" in
  let overrode_max_train_steps := is_none mv in
  let* gv := getattr args "gradient_accumulation_steps" in
  let* g := as_int gv in
  let* num_update_steps_per_epoch := ceil_div len_train g in
  let* args :=
    (if overrode_max_train_steps then
       let* ev := getattr args "num_train_epochs" in
       let* e := as_int ev in
       Ok (<["max_train_steps" := VInt (e * num_update_steps_per_epoch)]> args)
     else Ok args) in
  let* gv := getattr args "gradient_accumulation_steps" in
  let* g := as_int gv in
  let* num_update_steps_per_epoch := ceil_div len_train g in
  let* args :=
    (if overrode_max_train_steps then
       let* ev := getattr args "num_train_epochs" in
       let* e := as_int ev in
       Ok (<["max_train_steps" := VInt (e * num_update_steps_per_epoch)]> args)
     else Ok args) in
  let* mv := getattr args "max_train_steps" in
  let* m := as_int mv in
  let* num_train_epochs := ceil_div m num_update_steps_per_epoch in
  Ok (<["num_train_epochs" := VInt num_train_epochs]> args,
      num_update_steps_per_epoch).

(** ** Vocabulary of the loop properties *)

(** The optimizer updates among the events of a state. *)
Fixpoint count_updates (l : list Train.train_event) : nat :=
  match l with
  | [] => O
  | Train.TrOptimizerStep :: l' => S (count_updates l')
  | _ :: l' => count_updates l'
  end.

Definition optimizer_steps (st : Train.train_state) : nat :=
  count_updates (Train.events st).

(** What the batch loop reads from the namespace: an integer
    [max_train_steps], the [with_tracking] flag, an [output_dir] that is
    [None] or a string. *)
Definition loop_attrs (args : Namespace) (max_train_steps : Z) : Prop :=
  args !! "max_train_steps" = Some (VInt max_train_steps) /\
  is_Some (args !! "with_tracking") /\
  (args !! "output_dir" = Some VNone \/
   exists d, args !! "output_dir" = Some (VStr d)).

(** [accelerator.sync_gradients] is true after every batch, as it is when
    the accelerator accumulates over one step. *)
Definition always_syncs (sync : nat -> bool) : Prop := forall i, sync i = true.

(** The attributes of a namespace are the [dest] of every [add_argument]. *)
Definition declared (ns : Namespace) : Prop :=
  forall name, is_Some (ns !! name) <-> In name (map Argparse.dest Argparse.specs).

(** ** Sample runs of the loop *)

(** A command line with tracking and an output directory, and one without
    either; both after line 490 stored a budget of 3 steps in 1 epoch. *)
Definition tracked_args : Namespace :=
  match parse_args [("model_name_or_path", Some "intfloat/e5-small");
                    ("with_tracking", None);
                    ("checkpointing_steps", Some "0");
                    ("output_dir", Some "out")] with
  | Ok args => store_counts args 3 1
  | Raise _ => ∅
  end.

Definition untracked_args : Namespace :=
  match parse_args [("model_name_or_path", Some "intfloat/e5-small")] with
  | Ok args => store_counts args 3 1
  | Raise _ => ∅
  end.

(** Token embeddings of shape (B, T, H) under a mask of shape (B, T). *)
Definition shaped (H : nat) (x : list (list (list R))) (mask : list (list Z))
  : Prop :=
  Torch.hidden_size x = H /\
  Forall2 (fun example m =>
             length example = length m /\
             Forall (fun tok => length tok = H) example)
          x mask.

(** A batch the model and the loss take: the encoder returns embeddings
    in the shape of the mask for either question, of one hidden size, and
    there is one label for every example. *)
Definition well_shaped (model : Torch.AutoModelForSentenceEmbedding)
    (b : Train.batch) : Prop :=
  exists H,
    shaped H (Torch.last_hidden_state (Torch.model model (Train.question1 b)))
             (Torch.attention_mask (Train.question1 b)) /\
    shaped H (Torch.last_hidden_state (Torch.model model (Train.question2 b)))
             (Torch.attention_mask (Train.question2 b)) /\
    length (Torch.attention_mask (Train.question1 b)) = length (Train.labels b) /\
    length (Torch.attention_mask (Train.question2 b)) = length (Train.labels b).

(** A batch of one pair, both questions one attended token. *)
Definition one_pair : Train.batch :=
  {| Train.question1 := attended; Train.question2 := attended;
     Train.labels := [1%R] |}.

(** The loop's state before the first epoch without and with
    [total_loss] assigned. *)
Definition fresh_state : Train.train_state :=
  {| Train.steps_done := 0; Train.total_loss := None; Train.events := [] |}.

Definition tracking_state : Train.train_state :=
  {| Train.steps_done := 0; Train.total_loss := Some 0%R; Train.events := [] |}.

(** The locals when no checkpoint is resumed. *)
Definition not_resumed : locals :=
  {| completed_steps := 0; starting_epoch := 0; resume_step := None |}.

(** A string of ASCII characters. *)
Fixpoint is_ascii (s : string) : bool :=
  match s with
  | EmptyString => true
  | String c t => (nat_of_ascii c <? 128)%nat && is_ascii t
  end.

(** A piece of the loop that only adds events, none of them an optimizer
    update. *)
Definition only_logs (m : Train.M unit) (st : Train.train_state) : Prop :=
  exists evs,
    m st = ({| Train.steps_done := Train.steps_done st;
               Train.total_loss := Train.total_loss st;
               Train.events := Train.events st ++ evs |}, Ok tt) /\
    count_updates evs = O.

(** ** Vocabulary of the step counts *)

(** What lines 465-490 read from the namespace: integers for
    [gradient_accumulation_steps] and [num_train_epochs], and
    [max_train_steps] as given. *)
Definition count_attrs (args : Namespace) (g e : Z) (max_train_steps : pyval)
  : Prop :=
  args !! "gradient_accumulation_steps" = Some (VInt g) /\
  args !! "num_train_epochs" = Some (VInt e) /\
  args !! "max_train_steps" = Some max_train_steps.





(** ** Vocabulary of the tokenized columns *)

(** Keys as a tokenizer returns them: distinct, and none has a column
    prefix in it. *)
Definition plain_keys {V} (tk : list (string * V)) : Prop :=
  NoDup (map fst tk) /\
  Forall (fun k => PyStr.contains "question1_" k = false /\
                   PyStr.contains "question2_" k = false) (map fst tk).

(** The tokenizer's output as columns. *)
Definition encoded {E} (tk : list (string * E))
  : list (string * Preprocess.column E) :=
  map (fun kv => (fst kv, Preprocess.Encoded E (snd kv))) tk.

(** The tokenizer's output as columns under a prefix. *)
Definition prefixed {E} (p : string) (tk : list (string * E))
  : list (string * Preprocess.column E) :=
  map (fun kv => (p +:+ fst kv, Preprocess.Encoded E (snd kv))) tk.

(** A tokenizer that gives every text the same two ids, and two rows. *)
Definition two_ids (texts : list string) (max_length : pyval)
  : list (string * list (list Z)) :=
  [("input_ids", map (fun _ => [101; 102]) texts);
   ("attention_mask", map (fun _ => [1; 1]) texts)].

Definition two_rows : Preprocess.examples :=
  {| Preprocess.question1 := ["a"; "b"];
     Preprocess.question2 := ["c"; "d"];
     Preprocess.is_duplicate := [0; 1] |}.

(** ** Vocabulary of the pooling properties *)

(** A mask row of zeros and ones. *)
Definition binary_mask (m : list Z) : Prop := Forall (fun x => x = 0 \/ x = 1) m.

(** The number of attended tokens of a mask row. *)
Fixpoint attended_count (m : list Z) : nat :=
  match m with
  | [] => O
  | x :: m' => if x =? 1 then S (attended_count m') else attended_count m'
  end.

(** Two lists of token vectors of hidden size [H] that agree wherever the
    mask is not 0. *)
Definition agree_where_attended (H : nat) (tokens1 tokens2 : list (list R))
    (m : list Z) : Prop :=
  Forall3 (fun t1 t2 x => length t1 = H /\ length t2 = H /\ (x = 0 \/ t1 = t2))
          tokens1 tokens2 m.

(** Token embeddings of hidden size [H]. *)
Definition hidden (H : nat) (x : list (list (list R))) : Prop :=
  Torch.hidden_size x = H /\
  Forall (Forall (fun tok => length tok = H)) x.

Section PoolingSamples.
Import Torch.
Local Open Scope R_scope.

(** [two_tokens] with another embedding for its second token. *)
Definition two_tokens_repadded : model_output :=
  {| last_hidden_state := [[[3; 4]; [7; 7]]] |}.

End PoolingSamples.

(* ===================================================================== *)
(** * Part II: properties                                                *)
(* ===================================================================== *)

(** ** Python strings *)

Example basename_ex : PyStr.basename "out/run1/step_250" = "step_250".
Proof. reflexivity. Qed.
Example basename_slash_ex : PyStr.basename "out/epoch_3/" = "".
Proof. reflexivity. Qed.
Example splitext_ex : PyStr.splitext "a/b.c/step_250.tmp" = ("a/b.c/step_250", ".tmp").
Proof. reflexivity. Qed.
Example splitext_dotfile_ex : PyStr.splitext "a/.bashrc" = ("a/.bashrc", "").
Proof. reflexivity. Qed.
Example replace_ex : PyStr.replace "step_" "" "step_250" = "250".
Proof. reflexivity. Qed.
Example replace_overlap_ex : PyStr.replace "aa" "b" "aaaaa" = "bba".
Proof. reflexivity. Qed.
Example int_ex : PyStr.int " +1_000 " = Ok 1000.
Proof. reflexivity. Qed.
Example int_bad_ex : PyStr.int "1__0" = Raise (ValueError "invalid literal for int() with base 10").
Proof. reflexivity. Qed.
Example str_ex : PyStr.str 250 = "250".
Proof. reflexivity. Qed.
Example str0_ex : PyStr.str 0 = "0".
Proof. reflexivity. Qed.

Lemma digit_cases c :
  PyStr.is_digit c = true ->
  PyStr.is_space c = false /\ Ascii.eqb c "_" = false /\
  Ascii.eqb c "." = false /\ Ascii.eqb c "/" = false /\
  Ascii.eqb c "-" = false /\ Ascii.eqb c "+" = false /\
  Ascii.eqb c "s" = false /\ Ascii.eqb c "e" = false.
Proof.
  destruct c as [[|] [|] [|] [|] [|] [|] [|] [|]];
    cbn; intros H; try discriminate H; repeat split; reflexivity.
Qed.

Lemma prefix_head_ne c0 r c t :
  c0 <> c -> String.prefix (String c0 r) (String c t) = false.
Proof.
  intros H.
  change (String.prefix (String c0 r) (String c t))
    with (if ascii_dec c0 c then String.prefix r t else false).
  destruct (ascii_dec c0 c); congruence.
Qed.

Lemma prefix_nil s : String.prefix EmptyString s = true.
Proof. now destruct s. Qed.

Lemma all_digits_uint d : all_digits (NilEmpty.string_of_uint d) = true.
Proof. induction d; cbn; auto. Qed.

Lemma str_digits n : all_digits (PyStr.str n) = true.
Proof. apply all_digits_uint. Qed.

Lemma str_nonempty n : PyStr.str n <> EmptyString.
Proof.
  unfold PyStr.str. destruct n as [|p]; [discriminate|].
  cbn. pose proof (DecimalPos.Unsigned.to_uint_nonnil p) as Hp.
  destruct (Pos.to_uint p); cbn; congruence.
Qed.

Lemma rstrip_digits s : all_digits s = true -> PyStr.rstrip s = s.
Proof.
  induction s as [|c t IH]; cbn; [reflexivity|].
  intros [Hc Ht]%andb_prop. rewrite (IH Ht).
  destruct (digit_cases c Hc) as [-> _]. now destruct t.
Qed.

Lemma strip_digits s : all_digits s = true -> PyStr.strip s = s.
Proof.
  intros H. unfold PyStr.strip.
  assert (PyStr.lstrip s = s) as ->; [|now apply rstrip_digits].
  destruct s as [|c t]; [reflexivity|]. cbn in *.
  apply andb_prop in H as [Hc _]. now destruct (digit_cases c Hc) as [-> _].
Qed.

Lemma literal_digits_all st s :
  all_digits s = true ->
  s <> EmptyString \/ st = PyStr.AfterDigit ->
  PyStr.literal_digits st s = Some s.
Proof.
  revert st. induction s as [|c t IH]; intros st Hd Hne.
  - destruct Hne as [?| ->]; [congruence | reflexivity].
  - cbn in *. apply andb_prop in Hd as [Hc Ht]. rewrite Hc.
    rewrite IH; auto.
Qed.

(** [int(str(n)) == n]. *)
Lemma int_str n : PyStr.int (PyStr.str n) = Ok (Z.of_N n).
Proof.
  unfold PyStr.int. rewrite strip_digits by apply str_digits.
  assert (PyStr.unsigned_of_string (PyStr.str n) = Some (Z.of_N n)) as Hu.
  { unfold PyStr.unsigned_of_string.
    rewrite literal_digits_all;
      [| apply str_digits | left; apply str_nonempty].
    unfold PyStr.str. rewrite NilEmpty.usu.
    now rewrite DecimalN.Unsigned.of_to. }
  pose proof (str_digits n) as Hd. pose proof (str_nonempty n) as Hne.
  destruct (PyStr.str n) as [|c t] eqn:E; [congruence|].
  cbn in Hd. apply andb_prop in Hd as [Hc _].
  destruct (digit_cases c Hc) as (_ & _ & _ & _ & Hm & Hp & _).
  assert (c <> "-"%char) by (intros ->; discriminate Hm).
  assert (c <> "+"%char) by (intros ->; discriminate Hp).
  destruct c as [[|] [|] [|] [|] [|] [|] [|] [|]];
    try congruence; now rewrite Hu.
Qed.

Lemma replace_from_digits old new s c0 rest :
  old = String c0 rest -> PyStr.is_digit c0 = false ->
  all_digits s = true ->
  PyStr.replace_from old new 0 s = s.
Proof.
  intros -> Hc0. induction s as [|c t IH]; cbn; [reflexivity|].
  intros [Hc Ht]%andb_prop.
  destruct (ascii_dec c0 c) as [->|Hne]; [congruence|].
  rewrite IH by assumption. reflexivity.
Qed.

Lemma rfind_lacks c s : lacks c s = true -> PyStr.rfind c s = -1.
Proof.
  induction s as [|a t IH]; cbn; [reflexivity|].
  intros [Ha Ht]%andb_prop. rewrite (IH Ht). cbn.
  now destruct (Ascii.eqb a c).
Qed.

Lemma lacks_app c s1 s2 :
  lacks c (s1 +:+ s2) = lacks c s1 && lacks c s2.
Proof.
  induction s1 as [|a t IH]; [reflexivity|].
  change (lacks c (String a t +:+ s2))
    with (negb (Ascii.eqb a c) && lacks c (t +:+ s2)).
  rewrite IH. cbn. now rewrite andb_assoc.
Qed.

Lemma lacks_digits c s :
  PyStr.is_digit c = false -> all_digits s = true -> lacks c s = true.
Proof.
  intros Hc. induction s as [|a t IH]; cbn; [reflexivity|].
  intros [Ha Ht]%andb_prop. rewrite (IH Ht), andb_true_r.
  destruct (Ascii.eqb_spec a c) as [->|]; [congruence | reflexivity].
Qed.

(** A name without a dot and without a slash has no extension to split. *)
Lemma splitext_plain s :
  lacks "." s = true -> PyStr.splitext s = (s, EmptyString).
Proof.
  intros H. unfold PyStr.splitext. rewrite (rfind_lacks "." s H).
  destruct (PyStr.rfind "/" s <? -1) eqn:E; [|reflexivity].
  apply Z.ltb_lt in E.
  assert (-1 <= PyStr.rfind "/" s); [|lia].
  clear. induction s as [|a t IH]; cbn; [lia|].
  destruct (0 <=? PyStr.rfind "/" t) eqn:E'; [apply Z.leb_le in E'; lia|].
  destruct (Ascii.eqb a "/"); lia.
Qed.

Lemma contains_epoch_digits s :
  all_digits s = true -> PyStr.contains "epoch" s = false.
Proof.
  induction s as [|c t IH]; [reflexivity|].
  intros [Hc Ht]%andb_prop.
  destruct (digit_cases c Hc) as (_ & _ & _ & _ & _ & _ & _ & He).
  change (PyStr.contains "epoch" (String c t))
    with (String.prefix "epoch" (String c t) || PyStr.contains "epoch" t).
  rewrite (IH Ht), orb_false_r. apply prefix_head_ne.
  intros <-. discriminate He.
Qed.

(** What the resume block makes of a basename [step_<n>]. *)
Lemma step_name_parsed n :
  let td := fst (PyStr.splitext ("step_" +:+ PyStr.str n)) in
  PyStr.contains "epoch" td = false /\
  PyStr.int (PyStr.replace "step_" "" td) = Ok (Z.of_N n).
Proof.
  pose proof (str_digits n) as Hd.
  rewrite splitext_plain
    by (rewrite lacks_app, (lacks_digits "." (PyStr.str n)) by easy; reflexivity).
  cbv [fst String.append]. split.
  - cbn -[PyStr.str]. now apply contains_epoch_digits.
  - cbn -[PyStr.str PyStr.int].
    erewrite replace_from_digits; [| reflexivity.. | assumption].
    rewrite prefix_nil. apply int_str.
Qed.

(** What the resume block makes of a basename [epoch_<i>]. *)
Lemma epoch_name_parsed i :
  let td := fst (PyStr.splitext ("epoch_" +:+ PyStr.str i)) in
  PyStr.contains "epoch" td = true /\
  PyStr.int (PyStr.replace "epoch_" "" td) = Ok (Z.of_N i).
Proof.
  pose proof (str_digits i) as Hd.
  rewrite splitext_plain
    by (rewrite lacks_app, (lacks_digits "." (PyStr.str i)) by easy; reflexivity).
  cbv [fst String.append]. split; [reflexivity|].
  cbn -[PyStr.str PyStr.int].
  erewrite replace_from_digits; [| reflexivity.. | assumption].
  rewrite prefix_nil. apply int_str.
Qed.

(** ** The namespace [parse_args] returns *)

Lemma find_spec_dest name l sp :
  Argparse.find_spec name l = Some sp -> Argparse.dest sp = name.
Proof.
  induction l as [|x l IH]; cbn; [discriminate|].
  destruct (String.eqb_spec (Argparse.dest x) name); [congruence | exact IH].
Qed.

Lemma consume_cons name raw rest ns :
  Argparse.consume ((name, raw) :: rest) ns =
  if String.eqb name "help" then Raise (Argparse.help_action raw)
  else
    match Argparse.find_spec name Argparse.specs with
    | None => Argparse.consume rest ns
    | Some sp =>
        let* v := Argparse.convert sp raw in
        Argparse.consume rest (<[name := v]> ns)
    end.
Proof. reflexivity. Qed.

(** What the parser keeps of an accepted command line: a property of the
    namespace that every stored value preserves. *)
Lemma consume_preserves (P : Namespace -> Prop) :
  (forall ns name sp raw v,
      Argparse.find_spec name Argparse.specs = Some sp ->
      Argparse.convert sp raw = Ok v ->
      P ns -> P (<[name := v]> ns)) ->
  forall line ns ns',
    Argparse.consume line ns = Ok ns' -> P ns -> P ns'.
Proof.
  intros Hstep. induction line as [|[name raw] rest IH]; intros ns ns' Hc Hns.
  - cbn in Hc. congruence.
  - rewrite consume_cons in Hc.
    destruct (String.eqb name "help"); [discriminate Hc|].
    destruct (Argparse.find_spec name Argparse.specs) as [sp|] eqn:Hf;
      [|exact (IH _ _ Hc Hns)].
    destruct (Argparse.convert sp raw) as [v|] eqn:Hv; [|discriminate Hc].
    cbn [rbind] in Hc. apply (IH _ _ Hc). eapply Hstep; eassumption.
Qed.

Lemma consume_accumulation_attrs line : forall ns ns',
  Argparse.consume line ns = Ok ns' ->
  accumulation_attrs ns -> accumulation_attrs ns'.
Proof.
  revert line. apply consume_preserves.
  intros ns name sp raw v Hf Hv Hns.
  - destruct Hns as [Hnone [g Hg]]. split.
    + destruct (decide (name = "gradient_accumulation_stepp")) as [->|Hne].
      * vm_compute in Hf. discriminate Hf.
      * now rewrite lookup_insert_ne.
    + destruct (decide (name = "gradient_accumulation_steps")) as [->|Hne].
      * vm_compute in Hf. injection Hf as <-.
        rewrite lookup_insert_eq. unfold Argparse.convert in Hv. cbn in Hv.
        destruct raw as [s|]; [|discriminate Hv].
        destruct (PyStr.int s) as [z|]; [|discriminate Hv].
        injection Hv as <-. eauto.
      * rewrite lookup_insert_ne by done. eauto.
Qed.

Lemma parse_args_accumulation_attrs line args :
  parse_args line = Ok args -> accumulation_attrs args.
Proof.
  unfold parse_args, Argparse.parse. intros H.
  destruct (Argparse.consume line Argparse.defaults) as [ns|] eqn:Hc;
    [|discriminate H].
  cbn [rbind] in H. destruct (Argparse.missing_required line); [discriminate H|].
  destruct (Argparse.unrecognized line); [discriminate H|].
  cbn [rbind] in H.
  assert (accumulation_attrs ns) as Hns.
  { apply (consume_accumulation_attrs _ _ _ Hc).
    split; [reflexivity | exists 1; reflexivity]. }
  assert (args = ns) as ->; [|exact Hns].
  destruct (getattr ns "push_to_hub") as [push|]; [|discriminate H].
  cbn [rbind] in H. destruct (truthy push); [|congruence].
  destruct (getattr ns "output_dir") as [out|]; [|discriminate H].
  cbn [rbind] in H. destruct (is_none out); congruence.
Qed.

Lemma store_counts_accumulation_attrs args mts nte :
  accumulation_attrs args -> accumulation_attrs (store_counts args mts nte).
Proof.
  intros [Hnone [g Hg]]. unfold store_counts, accumulation_attrs.
  rewrite !lookup_insert_ne by done. eauto.
Qed.

(** ** Resuming from a checkpoint *)

Lemma basename_nonempty ckpt name :
  PyStr.basename ckpt = name -> name <> EmptyString -> truthy (VStr ckpt) = true.
Proof.
  intros <- Hne. destruct ckpt; [now elim Hne | reflexivity].
Qed.

Lemma step_name_nonempty n : "step_" +:+ PyStr.str n <> EmptyString.
Proof. discriminate. Qed.

Lemma epoch_name_nonempty i : "epoch_" +:+ PyStr.str i <> EmptyString.
Proof. discriminate. Qed.

(** C6.  Resuming from a checkpoint whose basename is [epoch_<i>]: the
    starting epoch is [i + 1], the completed-step counter is [i + 1] times
    the update steps per epoch, [resume_step] is [None], and every epoch,
    the starting one included, iterates over the whole train dataloader. *)
Theorem resume_from_epoch_checkpoint
    (env : resume_env) (args : Namespace) (ckpt : string) (i : N)
    (num_update_steps_per_epoch len_train : Z) :
  args !! "resume_from_checkpoint" = Some (VStr ckpt) ->
  PyStr.basename ckpt = "epoch_" +:+ PyStr.str i ->
  load_state env ckpt = Ok tt ->
  exists st,
    resume env args num_update_steps_per_epoch len_train = Ok st /\
    starting_epoch st = Z.of_N i + 1 /\
    completed_steps st = (Z.of_N i + 1) * num_update_steps_per_epoch /\
    resume_step st = Some None /\
    forall epoch, active_dataloader args st epoch = Ok TrainDataloader.
Proof.
  intros Hrfc Hbase Hload.
  pose proof (basename_nonempty _ _ Hbase (epoch_name_nonempty i)) as Htrue.
  destruct (epoch_name_parsed i) as [Hin Hint].
  eexists. split; [|split; [|split; [|split]]].
  - unfold resume, getattr. rewrite Hrfc. cbn [rbind]. rewrite Htrue.
    cbn [is_none negb orb as_str rbind]. rewrite Hload. cbn [rbind].
    rewrite Hbase, Hin, Hint. cbn [rbind]. reflexivity.
  - reflexivity.
  - reflexivity.
  - reflexivity.
  - intros epoch. unfold active_dataloader, getattr. rewrite Hrfc.
    cbn [rbind]. rewrite Htrue. cbn.
    now destruct (epoch =? Z.of_N i + 1).
Qed.

Lemma resume_from_epoch_checkpoint_witness :
  exists st,
    resume loads_fine epoch3_args 500 1000 = Ok st /\
    starting_epoch st = 4 /\
    completed_steps st = 4 * 500 /\
    resume_step st = Some None /\
    forall epoch, active_dataloader epoch3_args st epoch = Ok TrainDataloader.
Proof.
  apply (resume_from_epoch_checkpoint loads_fine epoch3_args "out/epoch_3" 3 500 1000);
    reflexivity.
Defined.

(** C1.  Resuming from a checkpoint whose basename is [step_<n>] stops at
    line 566 of [main]: the namespace that [parse_args] returns has no
    attribute [gradient_accumulation_stepp], so the block raises
    [AttributeError] before the completed-step counter is set and before
    any batch is skipped. *)
Theorem resume_from_step_checkpoint_raises
    (env : resume_env) (line : Argparse.argv) (parsed : Namespace)
    (max_train_steps num_train_epochs : Z) (ckpt : string) (n : N)
    (num_update_steps_per_epoch len_train : Z) :
  parse_args line = Ok parsed ->
  store_counts parsed max_train_steps num_train_epochs
    !! "resume_from_checkpoint" = Some (VStr ckpt) ->
  PyStr.basename ckpt = "step_" +:+ PyStr.str n ->
  load_state env ckpt = Ok tt ->
  len_train <> 0 ->
  resume env (store_counts parsed max_train_steps num_train_epochs)
    num_update_steps_per_epoch len_train
  = Raise (AttributeError "gradient_accumulation_stepp").
Proof.
  intros Hparse Hrfc Hbase Hload Hlen.
  pose proof (basename_nonempty _ _ Hbase (step_name_nonempty n)) as Htrue.
  destruct (step_name_parsed n) as [Hin Hint].
  destruct (store_counts_accumulation_attrs _ max_train_steps num_train_epochs
              (parse_args_accumulation_attrs _ _ Hparse)) as [Hnone [g Hg]].
  unfold resume, getattr. rewrite Hrfc. cbn [rbind]. rewrite Htrue.
  cbn [is_none negb orb as_str rbind]. rewrite Hload. cbn [rbind].
  rewrite Hbase, Hin, Hint. cbn [rbind]. rewrite Hg. cbn [rbind as_int].
  unfold floordiv. destruct (Z.eqb_spec len_train 0); [contradiction|].
  cbn [rbind]. now rewrite Hnone.
Qed.

Lemma resume_from_step_checkpoint_raises_witness :
  resume loads_fine (store_counts step250_args 1500 3) 500 1000
  = Raise (AttributeError "gradient_accumulation_stepp").
Proof.
  apply (resume_from_step_checkpoint_raises loads_fine step250_line step250_args
           1500 3 "out/step_250" 250 500 1000);
    [reflexivity | reflexivity | reflexivity | reflexivity | discriminate].
Defined.

(** The same resume by evaluation. *)
Example resume_step_250 :
  resume loads_fine (store_counts step250_args 1500 3) 500 1000
  = Raise (AttributeError "gradient_accumulation_stepp").
Proof. vm_compute. reflexivity. Qed.

(** With an empty train set the floor division of line 564 fails first. *)
Example resume_step_250_empty_train :
  resume loads_fine (store_counts step250_args 1500 3) 500 0
  = Raise ZeroDivisionError.
Proof. vm_compute. reflexivity. Qed.
(** ** The [--dataset_handling] check *)

Lemma mem_string_In s l : Argparse.mem_string s l = true <-> In s l.
Proof.
  induction l as [|x l IH].
  - split; [discriminate | intros []].
  - change (Argparse.mem_string s (x :: l))
      with (String.eqb x s || Argparse.mem_string s l).
    rewrite orb_true_iff, IH. cbn [In].
    destruct (String.eqb_spec x s); intuition congruence.
Qed.

Lemma convert_error sp raw e :
  Argparse.convert sp raw = Raise e -> exists msg, e = SystemExit 2 msg.
Proof.
  unfold Argparse.convert, Argparse.usage_error.
  destruct (Argparse.ty sp), raw as [s|]; cbn;
    try (intros [= <-]; eauto; fail);
    try destruct (PyStr.int s); try destruct (PyStr.float_literal s); cbn;
    try destruct (Argparse.choices sp);
    try destruct (Argparse.mem_string s _);
    intros [= <-]; eauto.
Qed.

Lemma given_cons name o rest :
  Argparse.given name (o :: rest)
  = String.eqb (fst o) name || Argparse.given name rest.
Proof. reflexivity. Qed.

(** Up to a request for help, whatever stops the parser is a usage error. *)
Lemma consume_error line : forall ns e,
  Argparse.given "help" line = false ->
  Argparse.consume line ns = Raise e -> exists msg, e = SystemExit 2 msg.
Proof.
  induction line as [|[name raw] rest IH]; intros ns e Hh Hc.
  - discriminate Hc.
  - rewrite consume_cons in Hc. rewrite given_cons in Hh. cbn [fst] in Hh.
    apply orb_false_elim in Hh as [Hn Hh]. rewrite Hn in Hc.
    destruct (Argparse.find_spec name Argparse.specs) as [sp|]; [|eauto].
    destruct (Argparse.convert sp raw) as [v|e'] eqn:Hv; cbn [rbind] in Hc.
    + eauto.
    + injection Hc as <-. eapply convert_error, Hv.
Qed.

(** The parser rejects a value outside the two choices where it meets it,
    unless it has stopped before: for help, or at an earlier error. *)
Lemma consume_invalid_handling front rest v : forall ns,
  Argparse.given "help" front = false ->
  ~ valid_handling v ->
  exists msg,
    Argparse.consume (front ++ ("dataset_handling", Some v) :: rest) ns
    = Raise (SystemExit 2 msg).
Proof.
  induction front as [|[name raw] front IH]; intros ns Hh Hbad.
  - cbn [app]. rewrite consume_cons.
    assert (Argparse.mem_string v ["memory"; "streaming"] = false) as Hm.
    { destruct (Argparse.mem_string v _) eqn:Hm; [|reflexivity].
      apply mem_string_In in Hm. elim Hbad. unfold valid_handling.
      destruct Hm as [<-|[<-|[]]]; auto. }
    change (String.eqb "dataset_handling" "help") with false. cbv iota.
    change (Argparse.find_spec "dataset_handling" Argparse.specs)
      with (Some {| Argparse.dest := "dataset_handling"; Argparse.ty := Argparse.TStr;
                    Argparse.default := VStr "memory";
                    Argparse.choices := Some ["memory"; "streaming"];
                    Argparse.required := false |}).
    unfold Argparse.convert. cbn [Argparse.ty Argparse.choices rbind].
    rewrite Hm. unfold Argparse.usage_error. eauto.
  - rewrite <- app_comm_cons, consume_cons.
    rewrite given_cons in Hh. cbn [fst] in Hh.
    apply orb_false_elim in Hh as [Hn Hh]. rewrite Hn.
    destruct (Argparse.find_spec name Argparse.specs) as [sp|];
      [|now apply IH].
    destruct (Argparse.convert sp raw) as [x|e] eqn:Hv; cbn [rbind].
    + now apply IH.
    + destruct (convert_error _ _ _ Hv) as [msg ->]. eauto.
Qed.

Lemma consume_setup_attrs line : forall ns ns',
  Argparse.consume line ns = Ok ns' -> setup_attrs ns -> setup_attrs ns'.
Proof.
  revert line. apply consume_preserves.
  intros ns name sp raw x Hf Hv [Hkeys [v [Hv' Hok]]]. split.
  - eapply Forall_impl; [exact Hkeys|]. intros k Hk. cbn in *.
    destruct (decide (name = k)) as [->|Hne].
    + rewrite lookup_insert_eq. eauto.
    + now rewrite lookup_insert_ne.
  - destruct (decide (name = "dataset_handling")) as [->|Hne].
    + vm_compute in Hf. injection Hf as <-.
      unfold Argparse.convert in Hv. cbn [Argparse.ty Argparse.choices rbind] in Hv.
      destruct raw as [s|]; [|discriminate Hv]. cbn [rbind] in Hv.
      destruct (Argparse.mem_string s ["memory"; "streaming"]) eqn:Hm;
        [|discriminate Hv].
      injection Hv as <-. exists s. rewrite lookup_insert_eq. split; [done|].
      apply mem_string_In in Hm. unfold valid_handling.
      destruct Hm as [<-|[<-|[]]]; auto.
    + exists v. now rewrite lookup_insert_ne.
Qed.

Lemma parse_inv line ns :
  Argparse.parse line = Ok ns ->
  Argparse.consume line Argparse.defaults = Ok ns /\
  Argparse.missing_required line = false /\
  Argparse.unrecognized line = false.
Proof.
  unfold Argparse.parse. intros H.
  destruct (Argparse.consume line Argparse.defaults) as [ns'|]; [|discriminate H].
  cbn [rbind] in H.
  destruct (Argparse.missing_required line); [discriminate H|].
  destruct (Argparse.unrecognized line); [discriminate H|].
  injection H as ->. auto.
Qed.

Lemma parse_args_parse line args :
  parse_args line = Ok args -> Argparse.parse line = Ok args.
Proof.
  unfold parse_args. intros H.
  destruct (Argparse.parse line) as [ns|]; [|discriminate H].
  cbn [rbind] in H.
  destruct (getattr ns "push_to_hub") as [push|]; [|discriminate H].
  cbn [rbind] in H. destruct (truthy push); [|congruence].
  destruct (getattr ns "output_dir") as [out|]; [|discriminate H].
  cbn [rbind] in H. destruct (is_none out); congruence.
Qed.

Lemma parse_args_inv line args :
  parse_args line = Ok args -> Argparse.consume line Argparse.defaults = Ok args.
Proof. intros H%parse_args_parse%parse_inv. apply H. Qed.

Lemma parse_args_setup_attrs line args :
  parse_args line = Ok args -> setup_attrs args.
Proof.
  intros H%parse_args_inv. apply (consume_setup_attrs _ _ _ H).
  split.
  - repeat constructor; eexists; reflexivity.
  - exists "memory". split; [reflexivity | now left].
Qed.

Lemma getattr_some (ns : Namespace) k :
  is_Some (ns !! k) -> exists v, getattr ns k = Ok v.
Proof. intros [v Hv]. exists v. unfold getattr. now rewrite Hv. Qed.

(** *** Runs that are spared the two errors *)

Section Spared.
Context {Doc : Type} (env : data_env Doc).
Hypothesis Hforeign : foreign env.

Lemma spared_ret {A} (a : A) : spared (ret a).
Proof. intros e H. discriminate H. Qed.

Lemma spared_emit ev : spared (emit ev).
Proof. intros e H. discriminate H. Qed.

Lemma spared_request ev : spared (request env ev).
Proof.
  intros e H Hbad. cbn in H. now apply (proj1 (Hforeign e Hbad) ev).
Qed.

Lemma spared_lift {A} (r : result A) :
  (forall e, r = Raise e -> ~ dataset_handling_error e) -> spared (lift r).
Proof. intros H e He. now apply H. Qed.

Lemma getattr_error (ns : Namespace) k e :
  getattr ns k = Raise e -> ~ dataset_handling_error e.
Proof.
  unfold getattr. destruct (ns !! k); intros [= <-] [[msg H]|H]; discriminate H.
Qed.

Lemma spared_getattr (ns : Namespace) k : spared (lift (getattr ns k)).
Proof. apply spared_lift. intros e. apply getattr_error. Qed.

Lemma spared_seq {A B} (m : run A) (k : A -> run B) :
  spared m -> (forall a, spared (k a)) -> spared (seq_run m k).
Proof.
  intros Hm Hk e. destruct m as [t [a|e']]; cbn [seq_run].
  - specialize (Hk a). destruct (k a) as [t' r]. exact (Hk e).
  - cbn [snd]. intros [= <-]. now apply Hm.
Qed.

Lemma spared_setup args : spared (setup env args).
Proof.
  unfold setup.
  repeat (apply spared_seq; [|intros ?]);
    try apply spared_request; try apply spared_getattr.
  - destruct a0; try apply spared_ret. apply spared_request.
  - destruct (truthy a2); [apply spared_request|].
    apply spared_seq; [apply spared_getattr|]. intros out.
    destruct out; try apply spared_ret. apply spared_request.
Qed.

Lemma first_record_error fs file e :
  snd (first_record env fs file) = Raise e -> ~ dataset_handling_error e.
Proof.
  unfold first_record. destruct file as [| | |f|];
    try (cbn [snd]; intros [= <-] [[msg H]|H]; discriminate H).
  destruct (read_csv env f) as [[]|e'] eqn:Hr.
  - unfold Stream.iterable_dataset_generator. cbn [snd rbind].
    change (Stream.sub_id_lists 1024 ?ids)
      with (Ok (A := list (list nat))
              (Stream.chunks (length ids) (Z.to_nat 1024) ids)).
    cbn [rbind]. destruct (concat _); intros [= <-] [[msg H]|H]; discriminate H.
  - cbn [snd]. intros [= <-] Hbad.
    now apply (proj2 (Hforeign e' Hbad) f).
Qed.

Lemma spared_load_memory args : spared (load_memory env args).
Proof.
  unfold load_memory.
  repeat (apply spared_seq; [|intros ?]);
    auto using spared_request, spared_getattr, spared_ret.
Qed.

Lemma spared_load_streaming args : spared (load_streaming env args).
Proof.
  unfold load_streaming.
  apply spared_seq; [apply spared_getattr|]. intros name.
  apply spared_seq; [apply spared_request|]. intros _.
  apply spared_seq; [apply spared_emit|]. intros _.
  pose proof (first_record_error (data_files env) name) as H1.
  destruct (first_record env (data_files env) name) as [fs first].
  apply spared_seq; [apply spared_lift; exact H1|]. intros _.
  apply spared_seq; [apply spared_emit|]. intros _.
  apply spared_seq; [apply spared_lift, first_record_error|]. intros _.
  apply spared_seq; [apply spared_getattr|]. intros name'.
  apply spared_seq; [apply spared_request|]. intros _.
  apply spared_ret.
Qed.

Lemma spared_load_datasets args :
  setup_attrs args -> spared (load_datasets env args).
Proof.
  intros [_ [v [Hv Hok]]]. unfold load_datasets, getattr. rewrite Hv.
  destruct Hok as [-> | ->]; cbn [lift seq_run val_eqb_str].
  - change (String.eqb "memory" "memory") with true. cbv iota.
    pose proof (spared_load_memory args) as H.
    destruct (load_memory env args) as [t r]. cbn [app]. exact H.
  - change (String.eqb "streaming" "memory") with false. cbv iota.
    change (String.eqb "streaming" "streaming") with true. cbv iota.
    pose proof (spared_load_streaming args) as H.
    destruct (load_streaming env args) as [t r]. cbn [app]. exact H.
Qed.

End Spared.

(** C8.  A command line that carries a [--dataset_handling] value other
    than [memory] and [streaming], with no request for help before it, ends
    in a usage error of the parser (exit status 2) with no event at all
    behind it; [main]'s own dispatch raises [ValueError] before it touches
    any data when the attribute holds anything else; and a command line the
    parser accepts holds one of the two values, and its run ends in neither
    of the two errors, whatever the libraries and the files answer. *)
Theorem dataset_handling_checked {Doc : Type} (env : data_env Doc) :
  (forall front rest v,
      Argparse.given "help" front = false -> ~ valid_handling v ->
      exists msg,
        main_to_datasets env (front ++ ("dataset_handling", Some v) :: rest)
        = ([], Raise (SystemExit 2 msg))) /\
  (forall args dh,
      args !! "dataset_handling" = Some dh ->
      dh <> VStr "memory" -> dh <> VStr "streaming" ->
      load_datasets env args
      = ([], Raise (ValueError "Invalid dataset_handling argument"))) /\
  (forall line args,
      parse_args line = Ok args -> foreign env ->
      (exists v, args !! "dataset_handling" = Some (VStr v) /\ valid_handling v) /\
      spared (main_to_datasets env line)).
Proof.
  split; [|split].
  - intros front rest v Hh Hbad.
    destruct (consume_invalid_handling front rest v Argparse.defaults Hh Hbad)
      as [msg Hc].
    exists msg. unfold main_to_datasets, parse_args, Argparse.parse.
    rewrite Hc. reflexivity.
  - intros args dh Hdh Hm Hs. unfold load_datasets, getattr. rewrite Hdh.
    assert (val_eqb_str dh "memory" = false) as Hm'.
    { destruct dh as [| | |s|]; try reflexivity. unfold val_eqb_str.
      destruct (String.eqb_spec s "memory"); congruence. }
    assert (val_eqb_str dh "streaming" = false) as Hs'.
    { destruct dh as [| | |s|]; try reflexivity. unfold val_eqb_str.
      destruct (String.eqb_spec s "streaming"); congruence. }
    cbn [lift seq_run]. rewrite Hm'. cbn [lift seq_run]. rewrite Hs'.
    reflexivity.
  - intros line args Hp Hforeign.
    pose proof (parse_args_setup_attrs _ _ Hp) as Hattrs.
    split; [exact (proj2 Hattrs)|].
    unfold main_to_datasets. rewrite Hp. cbn [lift seq_run].
    assert (spared (do _ <- setup env args;
                    do len_train <- load_datasets env args;
                    ret (args, len_train))) as H.
    { apply spared_seq; [now apply spared_setup|]. intros _.
      apply spared_seq; [now apply spared_load_datasets|]. intros n.
      apply spared_ret. }
    destruct (seq_run (setup env args) _) as [t r]. exact H.
Qed.

Lemma sizes_foreign : foreign sizes.
Proof. intros e _. split; intros x H; discriminate H. Qed.

Lemma dataset_handling_checked_witness :
  (exists msg,
      main_to_datasets sizes
        ([("model_name_or_path", Some "intfloat/e5-small")]
         ++ ("dataset_handling", Some "disk") :: [("help", None)])
      = ([], Raise (SystemExit 2 msg))) /\
  load_datasets sizes (<["dataset_handling" := VStr "disk"]> Argparse.defaults)
  = ([], Raise (ValueError "Invalid dataset_handling argument")) /\
  (exists v,
      (<["dataset_handling" := VStr "streaming"]>
         (<["dataset_name" := VStr "quora.csv"]>
            (<["model_name_or_path" := VStr "intfloat/e5-small"]>
               Argparse.defaults))) !! "dataset_handling" = Some (VStr v) /\
      valid_handling v) /\
  spared (main_to_datasets sizes
            [("model_name_or_path", Some "intfloat/e5-small");
             ("dataset_name", Some "quora.csv");
             ("dataset_handling", Some "streaming")]).
Proof.
  destruct (dataset_handling_checked sizes) as (Hbad & Hguard & Hgood).
  split; [|split].
  - apply (Hbad _ _ "disk"); [reflexivity|].
    intros [H|H]; discriminate H.
  - apply (Hguard _ (VStr "disk")); [reflexivity | discriminate..].
  - apply (Hgood [("model_name_or_path", Some "intfloat/e5-small");
                  ("dataset_name", Some "quora.csv");
                  ("dataset_handling", Some "streaming")]);
      [reflexivity | apply sizes_foreign].
Defined.

(** The two valid values by evaluation: what happens, in order. *)
Example streaming_run :
  events_and_len_train
    (main_to_datasets sizes
       [("model_name_or_path", Some "intfloat/e5-small");
        ("dataset_name", Some "quora.csv");
        ("dataset_handling", Some "streaming")])
  = ([EvAccelerator; EvLoadTokenizer (VStr "intfloat/e5-small");
      EvStreamingDataset (VStr "quora.csv") "../data/quora_dq_test.csv";
      EvFirstRecord "train"; EvFirstRecord "validation";
      EvOpenFile (VStr "quora.csv")],
     Ok 4).
Proof. vm_compute. reflexivity. Qed.

Example default_run :
  events_and_len_train
    (main_to_datasets sizes [("model_name_or_path", Some "intfloat/e5-small")])
  = ([EvAccelerator; EvLoadTokenizer (VStr "intfloat/e5-small");
      EvLoadCsvDataset VNone "../data/quora_dq_test.csv"],
     Ok 3).
Proof. vm_compute. reflexivity. Qed.

Example invalid_run :
  main_to_datasets sizes
    [("model_name_or_path", Some "intfloat/e5-small");
     ("dataset_handling", Some "disk")]
  = ([], Raise (SystemExit 2 "invalid choice")).
Proof. vm_compute. reflexivity. Qed.

(** A request for help before the invalid value: the parser prints the
    help and exits with status 0. *)
Example help_before_invalid_run :
  main_to_datasets sizes [("help", None); ("dataset_handling", Some "disk")]
  = ([], Raise (SystemExit 0 "help")).
Proof. vm_compute. reflexivity. Qed.

(** Streaming without [--dataset_name]: the first record of the train
    split is asked of [pd.read_csv(None)]. *)
Example streaming_without_dataset_name :
  main_to_datasets sizes
    [("model_name_or_path", Some "intfloat/e5-small");
     ("dataset_handling", Some "streaming")]
  = ([EvAccelerator; EvLoadTokenizer (VStr "intfloat/e5-small");
      EvStreamingDataset VNone "../data/quora_dq_test.csv";
      EvFirstRecord "train"],
     Raise (ValueError "Invalid file path or buffer object type")).
Proof. vm_compute. reflexivity. Qed.

(** Streaming over a train file of one row and a fresh store: the
    generator yields nothing and [next] raises. *)
Example streaming_one_row :
  main_to_datasets one_row
    [("model_name_or_path", Some "intfloat/e5-small");
     ("dataset_name", Some "quora.csv");
     ("dataset_handling", Some "streaming")]
  = ([EvAccelerator; EvLoadTokenizer (VStr "intfloat/e5-small");
      EvStreamingDataset (VStr "quora.csv") "../data/quora_dq_test.csv";
      EvFirstRecord "train"],
     Raise StopIteration).
Proof. vm_compute. reflexivity. Qed.

(** ** The save and load hooks *)

Lemma py_pop_snoc {A} (l : list A) (x : A) : py_pop (l ++ [x]) = Some (l, x).
Proof. unfold py_pop. now rewrite last_snoc, removelast_last. Qed.

Lemma py_pop_nil {A} : py_pop (@nil A) = None.
Proof. reflexivity. Qed.

Lemma py_pop_length {A} (l l' : list A) (x : A) :
  py_pop l = Some (l', x) -> length l = S (length l').
Proof.
  destruct l as [|a l0] using rev_ind; [discriminate|].
  rewrite py_pop_snoc. intros [= <- <-]. rewrite length_app. cbn. lia.
Qed.

Lemma py_pop_nonempty {A} (l : list A) :
  l <> [] -> exists l' x, py_pop l = Some (l', x).
Proof.
  destruct l as [|a l0] using rev_ind; [congruence|].
  intros _. rewrite py_pop_snoc. eauto.
Qed.

Section HookFacts.
Context {M W : Type}.
Implicit Types (models : list M) (ws : list W).

(** One model with its one state dict: saved once, the list left empty. *)
Lemma save_model_hook_single (m : M) (w : W) (output_dir : string) :
  Hooks.save_model_hook [m] [w] output_dir
  = ({| Hooks.weights := []; Hooks.saved := [(m, output_dir, w)] |}, Ok tt).
Proof. reflexivity. Qed.

(** The loop raises as soon as the index it reads has left the shrinking
    list, which happens whenever a model is left and the index plus the
    number of models left is 2 or more. *)
Lemma save_loop_raises output_dir : forall models i (st : @Hooks.save_state M W),
  length models = length (Hooks.weights st) ->
  (1 <= length models)%nat ->
  (2 <= i + length models)%nat ->
  snd (Hooks.save_loop output_dir i models st)
  = Raise (IndexError "list index out of range").
Proof.
  induction models as [|m rest IH]; intros i st Hlen H1 H2; [cbn in H1; lia|].
  cbn [Hooks.save_loop].
  destruct (Hooks.weights st !! i) as [w|] eqn:Hw; [|reflexivity].
  apply lookup_lt_Some in Hw. cbn [length] in Hlen, H2.
  destruct (py_pop_nonempty (Hooks.weights st)) as (ws' & x & Hpop).
  { intros E. rewrite E in Hw. cbn in Hw. lia. }
  rewrite Hpop. apply py_pop_length in Hpop.
  apply IH; cbn [Hooks.weights]; lia.
Qed.

(** C3.  With two or more models and as many pending state dicts,
    [save_model_hook] raises [IndexError]: every iteration drops the last
    entry of [weights] while the index of the entry it reads goes up. *)
Theorem save_model_hook_raises models ws (output_dir : string) :
  length models = length ws ->
  (2 <= length models)%nat ->
  snd (Hooks.save_model_hook models ws output_dir)
  = Raise (IndexError "list index out of range").
Proof.
  intros Hlen H2. unfold Hooks.save_model_hook.
  apply save_loop_raises; cbn [Hooks.weights]; lia.
Qed.

(** The load hook empties the list it is given and asks each model that
    has an adapter to load it, once, last model first. *)
Lemma load_loop_drains (adapter_of : M -> option string) (input_dir : string) :
  forall fuel (st : @Hooks.load_state M),
    (length (Hooks.models st) <= fuel)%nat ->
    Hooks.load_loop adapter_of input_dir fuel st
    = Some {| Hooks.models := [];
              Hooks.loaded :=
                Hooks.loaded st ++
                adapter_loads adapter_of input_dir (rev (Hooks.models st)) |}.
Proof.
  induction fuel as [|fuel IH]; intros [ms log] Hfuel; cbn [Hooks.models] in *.
  - destruct ms; [|cbn in Hfuel; lia]. cbn. now rewrite app_nil_r.
  - destruct ms as [|x ms' _] using rev_ind.
    + cbn. now rewrite app_nil_r.
    + cbn [Hooks.load_loop Hooks.models Hooks.loaded].
      rewrite py_pop_snoc. rewrite IH.
      2:{ cbn [Hooks.models]. rewrite length_app in Hfuel. cbn in Hfuel. lia. }
      cbn [Hooks.models Hooks.loaded]. rewrite rev_unit.
      cbn [adapter_loads].
      destruct (adapter_of x) as [a|]; [now rewrite <- app_assoc | reflexivity].
Qed.

Lemma load_model_hook_drains (adapter_of : M -> option string) models
    (input_dir : string) :
  Hooks.load_model_hook adapter_of models input_dir
  = Some {| Hooks.models := [];
            Hooks.loaded := adapter_loads adapter_of input_dir (rev models) |}.
Proof.
  unfold Hooks.load_model_hook. now rewrite load_loop_drains.
Qed.

End HookFacts.

Lemma save_model_hook_raises_witness :
  snd (Hooks.save_model_hook ["model0"; "model1"] ["state0"; "state1"] "step_10")
  = Raise (IndexError "list index out of range").
Proof.
  apply (save_model_hook_raises ["model0"; "model1"] ["state0"; "state1"] "step_10");
    [reflexivity | cbn; lia].
Defined.

(** Two models: the first is saved with its own state dict, the entry that
    is dropped is the second one, and the second model is never saved. *)
Example save_model_hook_two :
  Hooks.save_model_hook ["model0"; "model1"] ["state0"; "state1"] "step_10"
  = ({| Hooks.weights := ["state0"];
        Hooks.saved := [("model0", "step_10", "state0")] |},
     Raise (IndexError "list index out of range")).
Proof. reflexivity. Qed.

Example save_model_hook_three :
  Hooks.save_model_hook ["model0"; "model1"; "model2"]
    ["state0"; "state1"; "state2"] "step_10"
  = ({| Hooks.weights := ["state0"];
        Hooks.saved := [("model0", "step_10", "state0");
                        ("model1", "step_10", "state1")] |},
     Raise (IndexError "list index out of range")).
Proof. reflexivity. Qed.

Example load_model_hook_three :
  Hooks.load_model_hook
    (fun m => if String.eqb m "base" then None else Some "default")
    ["peft0"; "base"; "peft1"] "step_10"
  = Some {| Hooks.models := [];
            Hooks.loaded := [("peft1", "step_10", "default");
                             ("peft0", "step_10", "default")] |}.
Proof. reflexivity. Qed.

(** ** The record generator *)

Lemma filter_all {A} (P : A -> Prop) `{forall x, Decision (P x)} (l : list A) :
  Forall P l -> filter P l = l.
Proof.
  induction 1 as [|x l Hx _ IH]; [reflexivity|].
  now rewrite filter_cons_True, IH.
Qed.

Lemma filter_none {A} (P : A -> Prop) `{forall x, Decision (P x)} (l : list A) :
  Forall (fun x => ~ P x) l -> filter P l = [].
Proof.
  induction 1 as [|x l Hx _ IH]; [reflexivity|].
  now rewrite filter_cons_False.
Qed.

Section StreamFacts.
Context {Doc : Type}.
Implicit Types (t : TinyDB.table Doc) (docs rows : list Doc) (fs : @Stream.files Doc).

Lemma max_seq a n :
  fold_right Nat.max 0%nat (seq a n) = match n with O => O | S n' => (a + n')%nat end.
Proof.
  revert a. induction n as [|n IH]; intros a; [reflexivity|].
  cbn [seq fold_right]. rewrite IH. destruct n; lia.
Qed.

Lemma next_id_dense t : dense t -> TinyDB.next_id t = S (length t).
Proof.
  unfold dense, TinyDB.next_id. intros H. destruct t as [|e t']; [reflexivity|].
  rewrite H, max_seq. cbn [length]. lia.
Qed.

Lemma insert_from_fst id docs :
  map fst (TinyDB.insert_from id docs) = seq id (length docs).
Proof.
  revert id. induction docs as [|d ds IH]; intros id; cbn; [reflexivity|].
  now rewrite IH.
Qed.

Lemma insert_from_snd id docs : map snd (TinyDB.insert_from id docs) = docs.
Proof.
  revert id. induction docs as [|d ds IH]; intros id; cbn; [reflexivity|].
  now rewrite IH.
Qed.

Lemma insert_from_length id docs :
  length (TinyDB.insert_from id docs) = length docs.
Proof. now rewrite <- (length_map fst), insert_from_fst, length_seq. Qed.

Lemma insert_multiple_dense docs t :
  dense t -> dense (TinyDB.insert_multiple docs t).
Proof.
  intros H. unfold dense, TinyDB.insert_multiple.
  rewrite map_app, insert_from_fst, next_id_dense, H by assumption.
  rewrite length_app, insert_from_length, seq_app. reflexivity.
Qed.

Lemma insert_multiple_docs docs t :
  map snd (TinyDB.insert_multiple docs t) = map snd t ++ docs.
Proof.
  unfold TinyDB.insert_multiple. now rewrite map_app, insert_from_snd.
Qed.

(** Asking for the ids [0 .. length t - 1] of a dense table finds every
    document but the last: id 0 names none, and the last id is not asked
    for. *)
Lemma get_below_length ids t :
  dense t -> ids ≡ₚ seq 0 (length t) ->
  TinyDB.get ids t = removelast (map snd t).
Proof.
  intros Hd Hp. unfold TinyDB.get.
  destruct t as [|e t' _] using rev_ind; [reflexivity|].
  destruct e as [i d]. unfold dense in Hd.
  rewrite map_app, length_app in Hd. cbn [map length fst] in Hd.
  replace (length t' + 1)%nat with (S (length t')) in Hd by lia.
  rewrite seq_S in Hd. apply app_inj_tail in Hd as [Hd ->].
  rewrite map_app. cbn [map snd]. rewrite removelast_last.
  rewrite filter_app, filter_cons_False, filter_nil, app_nil_r.
  2:{ cbn [fst]. rewrite Hp, length_app, list_elem_of_In, in_seq. cbn. lia. }
  f_equal. apply filter_all, Forall_forall. intros [j d'] Hin.
  cbn [fst]. rewrite Hp, list_elem_of_In, in_seq, length_app. cbn [length].
  assert (j ∈ map fst t') as Hj by (apply (list_elem_of_fmap_2 fst _ _ Hin)).
  rewrite Hd, list_elem_of_In, in_seq in Hj. lia.
Qed.

(** Reading the table chunk by chunk finds what one read over all the
    chunks finds, in another order, when no id is asked for twice. *)
Lemma get_app ids1 ids2 t :
  NoDup (ids1 ++ ids2) ->
  TinyDB.get (ids1 ++ ids2) t ≡ₚ TinyDB.get ids1 t ++ TinyDB.get ids2 t.
Proof.
  intros [_ [Hdisj _]]%NoDup_app. unfold TinyDB.get.
  set (P1 := fun e : nat * Doc => fst e ∈ ids1).
  set (P2 := fun e : nat * Doc => fst e ∈ ids2).
  set (P := fun e : nat * Doc => fst e ∈ ids1 ++ ids2).
  induction t as [|e t' IH]; [reflexivity|].
  destruct (decide (P1 e)) as [H1|H1].
  - assert (P e) as H by (apply elem_of_app; now left).
    assert (~ P2 e) as H2 by now apply Hdisj.
    rewrite (filter_cons_True P1), (filter_cons_True P),
      (filter_cons_False P2) by assumption.
    cbn [map app]. now rewrite IH.
  - rewrite (filter_cons_False P1) by assumption.
    destruct (decide (P2 e)) as [H2|H2].
    + assert (P e) as H by (apply elem_of_app; now right).
      rewrite (filter_cons_True P2), (filter_cons_True P) by assumption.
      cbn [map]. rewrite IH. apply Permutation_middle.
    + assert (~ P e) as H.
      { unfold P. rewrite elem_of_app. unfold P1, P2 in *. tauto. }
      rewrite (filter_cons_False P2), (filter_cons_False P) by assumption.
      exact IH.
Qed.

Lemma get_chunks (subs : list (list nat)) t :
  NoDup (concat subs) ->
  concat (map (fun sub_ids => TinyDB.get sub_ids t) subs)
  ≡ₚ TinyDB.get (concat subs) t.
Proof.
  induction subs as [|c cs IH]; intros Hnd.
  - cbn. unfold TinyDB.get. rewrite filter_none; [reflexivity|].
    apply Forall_forall. intros x _ H. inversion H.
  - cbn [map concat] in *. rewrite get_app by assumption.
    apply NoDup_app in Hnd as (_ & _ & Hnd). now rewrite IH.
Qed.

Lemma chunks_concat fuel batch_size (ids : list nat) :
  (1 <= batch_size)%nat -> (length ids <= fuel)%nat ->
  concat (Stream.chunks fuel batch_size ids) = ids.
Proof.
  intros Hb. revert ids. induction fuel as [|fuel IH]; intros ids Hlen.
  - destruct ids; [reflexivity | cbn in Hlen; lia].
  - destruct ids as [|i ids']; [reflexivity|].
    cbn [Stream.chunks concat]. rewrite IH; [apply take_drop|].
    rewrite length_drop. cbn [length] in *. lia.
Qed.

Lemma generator_store shuffle file batch_size fs :
  Stream.open_store
    (fst (Stream.iterable_dataset_generator shuffle file batch_size fs))
    (store_path file)
  = TinyDB.insert_multiple (Stream.csv fs file)
      (Stream.open_store fs (store_path file)).
Proof.
  unfold Stream.iterable_dataset_generator, Stream.open_store, store_path.
  cbn [fst Stream.stores]. now rewrite lookup_insert_eq.
Qed.

Lemma generator_csv shuffle file batch_size fs :
  Stream.csv (fst (Stream.iterable_dataset_generator shuffle file batch_size fs))
  = Stream.csv fs.
Proof. reflexivity. Qed.

(** One run over a dense store: every row of the file is appended to the
    store, and the records yielded are the documents of the store without
    the last one, in some order. *)
Lemma generator_run shuffle file batch_size fs :
  is_shuffle shuffle -> 0 < batch_size ->
  dense (Stream.open_store fs (store_path file)) ->
  let out := Stream.iterable_dataset_generator shuffle file batch_size fs in
  dense (Stream.open_store (fst out) (store_path file)) /\
  store_docs (fst out) file = store_docs fs file ++ Stream.csv fs file /\
  exists ys, snd out = Ok ys /\ ys ≡ₚ removelast (store_docs (fst out) file).
Proof.
  intros Hsh Hb Hd out. unfold store_docs. subst out.
  rewrite generator_store. split; [now apply insert_multiple_dense|].
  split; [apply insert_multiple_docs|].
  unfold Stream.iterable_dataset_generator. cbn [snd].
  fold (store_path file).
  set (db := TinyDB.insert_multiple _ _).
  assert (dense db) as Hdb by now apply insert_multiple_dense.
  unfold Stream.sub_id_lists.
  destruct (Z.eqb_spec batch_size 0); [lia|].
  destruct (Z.ltb_spec batch_size 0); [lia|].
  cbn [rbind]. eexists. split; [reflexivity|].
  assert (concat (Stream.chunks (length (shuffle (seq 0 (length db))))
                    (Z.to_nat batch_size) (shuffle (seq 0 (length db))))
          = shuffle (seq 0 (length db))) as Hc
      by (apply chunks_concat; lia).
  rewrite get_chunks.
  - rewrite Hc. apply Permutation_refl', get_below_length; auto.
  - rewrite Hc, (Hsh (seq 0 (length db))). apply NoDup_seq.
Qed.

Lemma dense_new fs path : Stream.stores fs !! path = None ->
  dense (Stream.open_store fs path) /\ Stream.open_store fs path = [].
Proof. unfold Stream.open_store. intros ->. now split. Qed.

(** C4.  On a store file that does not exist yet, one run of the generator
    over a file of N rows yields the rows without the last one, in some
    order: N - 1 records when N is positive. *)
Theorem generator_drops_last_row shuffle file batch_size fs :
  is_shuffle shuffle -> 0 < batch_size ->
  Stream.stores fs !! store_path file = None ->
  exists ys,
    snd (Stream.iterable_dataset_generator shuffle file batch_size fs) = Ok ys /\
    ys ≡ₚ removelast (Stream.csv fs file) /\
    length ys = (length (Stream.csv fs file) - 1)%nat.
Proof.
  intros Hsh Hb Hnew. destruct (dense_new _ _ Hnew) as [Hd Hnil].
  destruct (generator_run shuffle file batch_size fs Hsh Hb Hd)
    as (_ & Hdocs & ys & Hys & Hperm).
  rewrite Hdocs in Hperm. unfold store_docs in Hperm. rewrite Hnil in Hperm.
  cbn [map app] in Hperm. exists ys. split; [exact Hys|]. split; [exact Hperm|].
  rewrite Hperm. clear. induction (Stream.csv fs file) as [|a [|b l] IH];
    cbn [removelast length] in *; lia.
Qed.

(** [k] runs over the same file, the store file absent before the first:
    the store then holds the rows [k] times over, and the last run yields
    its documents without the last one. *)
Lemma invocations_run (shuffles : list (list nat -> list nat)) file batch_size :
  forall fs,
    shuffles <> [] -> Forall is_shuffle shuffles -> 0 < batch_size ->
    dense (Stream.open_store fs (store_path file)) ->
    let out := Stream.invocations shuffles file batch_size fs in
    dense (Stream.open_store (fst out) (store_path file)) /\
    store_docs (fst out) file
    = store_docs fs file
      ++ concat (replicate (length shuffles) (Stream.csv fs file)) /\
    exists ys, snd out = Ok ys /\ ys ≡ₚ removelast (store_docs (fst out) file).
Proof.
  induction shuffles as [|sh rest IH]; intros fs Hne Hsh Hb Hd; [congruence|].
  apply Forall_cons in Hsh as [Hsh Hrest].
  pose proof (generator_run sh file batch_size fs Hsh Hb Hd) as (Hd1 & Hdocs1 & Hys1).
  destruct rest as [|sh' rest'].
  - cbn [Stream.invocations length replicate concat]. rewrite app_nil_r. auto.
  - change (Stream.invocations (sh :: sh' :: rest') file batch_size fs)
      with (Stream.invocations (sh' :: rest') file batch_size
              (fst (Stream.iterable_dataset_generator sh file batch_size fs))).
    specialize (IH (fst (Stream.iterable_dataset_generator sh file batch_size fs))
                   ltac:(discriminate) Hrest Hb Hd1).
    destruct IH as (Hd2 & Hdocs2 & Hys2). split; [exact Hd2|]. split; [|exact Hys2].
    rewrite Hdocs2, Hdocs1, generator_csv.
    cbn [length replicate concat]. now rewrite <- app_assoc.
Qed.

End StreamFacts.

Lemma rev_is_shuffle : is_shuffle (@rev nat).
Proof. intros l. symmetry. apply Permutation_rev. Qed.

Lemma generator_drops_last_row_witness :
  exists ys,
    snd (Stream.iterable_dataset_generator (@rev nat) "data/quora.csv" 1024
           three_rows) = Ok ys /\
    ys ≡ₚ ["row1"; "row2"] /\
    length ys = 2%nat.
Proof.
  apply (generator_drops_last_row (@rev nat) "data/quora.csv" 1024 three_rows);
    [apply rev_is_shuffle | lia | reflexivity].
Defined.

(** The same run by evaluation, with chunks of one id. *)
Example generator_three_rows :
  Stream.iterable_dataset_generator (@rev nat) "data/quora.csv" 1 three_rows
  = ({| Stream.csv := Stream.csv three_rows;
        Stream.stores :=
          {["quora.json" := [(1, "row1"); (2, "row2"); (3, "row3")]%nat]} |},
     Ok ["row2"; "row1"]).
Proof. vm_compute. reflexivity. Qed.

Example generator_one_row :
  snd (Stream.iterable_dataset_generator (fun l => l) "data/one.csv" 1024
         {| Stream.csv := fun _ => ["only row"]; Stream.stores := ∅ |})
  = Ok [].
Proof. vm_compute. reflexivity. Qed.

(** The second run over the same file finds six documents in the store and
    yields five records, not six. *)
Example second_invocation_yields_five :
  let r := snd (Stream.invocations [@rev nat; @rev nat] "data/quora.csv" 1024
                  three_rows) in
  r = Ok ["row1"; "row2"; "row3"; "row1"; "row2"] /\
  ~ (exists ys, r = Ok ys /\ length ys = (2 * 3)%nat).
Proof.
  assert (snd (Stream.invocations [@rev nat; @rev nat] "data/quora.csv" 1024
                 three_rows)
          = Ok ["row1"; "row2"; "row3"; "row1"; "row2"]) as H
    by (vm_compute; reflexivity).
  cbv zeta. rewrite H. split; [reflexivity|].
  intros (ys & [= <-] & Hlen). discriminate Hlen.
Qed.

Section Refill.
Context {Doc : Type}.

Lemma invocations_store_kept (shuffles : list (list nat -> list nat)) file
    batch_size : forall fs : @Stream.files Doc,
  shuffles <> [] ->
  Stream.stores (fst (Stream.invocations shuffles file batch_size fs))
    !! (Stream.path_stem file +:+ ".json")
  = Some (Stream.open_store
            (fst (Stream.invocations shuffles file batch_size fs))
            (store_path file)).
Proof.
  induction shuffles as [|sh rest IH]; intros fs Hne; [congruence|].
  destruct rest as [|sh' rest'].
  - unfold Stream.open_store, store_path. cbn.
    now rewrite !lookup_insert_eq.
  - change (Stream.invocations (sh :: sh' :: rest') file batch_size fs)
      with (Stream.invocations (sh' :: rest') file batch_size
              (fst (Stream.iterable_dataset_generator sh file batch_size fs))).
    apply IH. discriminate.
Qed.

Lemma length_concat_replicate (k : nat) (l : list Doc) :
  length (concat (replicate k l)) = (k * length l)%nat.
Proof.
  induction k as [|k IH]; [reflexivity|].
  cbn [replicate concat]. rewrite length_app, IH. lia.
Qed.

Lemma length_removelast (l : list Doc) :
  length (removelast l) = (length l - 1)%nat.
Proof.
  destruct l as [|x l' _] using rev_ind; [reflexivity|].
  rewrite removelast_last, length_app. cbn [length]. lia.
Qed.

(** C10.  The store is the file [<stem>.json]; every run appends all rows
    of the source file to it before reading it, so that after the [k]-th
    run over the same file of N rows, the store file absent before the
    first, the store holds the rows [k] times over, [k * N] documents.
    The [k]-th run does not yield them all: its records are the documents
    of the store without the last one, in some order, [k * N - 1] of them
    and not [k * N]. *)
Theorem kth_invocation_misses_last_document
    (shuffles : list (list nat -> list nat)) (file : string) (batch_size : Z)
    (fs : @Stream.files Doc) :
  shuffles <> [] -> Forall is_shuffle shuffles -> 0 < batch_size ->
  Stream.stores fs !! (Stream.path_stem file +:+ ".json") = None ->
  Stream.csv fs file <> [] ->
  let out := Stream.invocations shuffles file batch_size fs in
  let k := length shuffles in
  let N := length (Stream.csv fs file) in
  exists store ys,
    Stream.stores (fst out) !! (Stream.path_stem file +:+ ".json") = Some store /\
    map snd store = concat (replicate k (Stream.csv fs file)) /\
    length store = (k * N)%nat /\
    snd out = Ok ys /\
    ys ≡ₚ removelast (map snd store) /\
    length ys = (k * N - 1)%nat /\
    length ys <> (k * N)%nat.
Proof.
  intros Hne Hsh Hb Hnew Hrows out k N.
  destruct (dense_new _ _ Hnew) as [Hd Hnil].
  pose proof (invocations_run shuffles file batch_size fs Hne Hsh Hb Hd)
    as (_ & Hdocs & ys & Hys & Hperm).
  fold out in Hdocs, Hys, Hperm. unfold store_docs in Hdocs, Hperm.
  fold (store_path file) in Hnil. rewrite Hnil in Hdocs. cbn [map app] in Hdocs.
  assert (length (Stream.open_store (fst out) (store_path file)) = (k * N)%nat)
    as Hlen.
  { rewrite <- (length_map snd), Hdocs. apply length_concat_replicate. }
  assert (length ys = (k * N - 1)%nat) as Hys_len.
  { rewrite Hperm, length_removelast, length_map. now rewrite Hlen. }
  assert (0 < k * N)%nat as Hpos.
  { subst k N. destruct shuffles; [congruence|].
    destruct (Stream.csv fs file); [congruence|]. cbn [length]. lia. }
  exists (Stream.open_store (fst out) (store_path file)), ys.
  split; [now apply invocations_store_kept|].
  repeat split; try assumption. lia.
Qed.

End Refill.

Lemma kth_invocation_misses_last_document_witness :
  exists store ys,
    Stream.stores
      (fst (Stream.invocations [@rev nat; @rev nat] "data/quora.csv" 1024
              three_rows)) !! "quora.json" = Some store /\
    map snd store = ["row1"; "row2"; "row3"; "row1"; "row2"; "row3"] /\
    length store = 6%nat /\
    snd (Stream.invocations [@rev nat; @rev nat] "data/quora.csv" 1024
           three_rows) = Ok ys /\
    ys ≡ₚ removelast (map snd store) /\
    length ys = 5%nat /\
    length ys <> 6%nat.
Proof.
  apply (kth_invocation_misses_last_document [@rev nat; @rev nat]
           "data/quora.csv" 1024 three_rows);
    [discriminate
    | repeat constructor; apply rev_is_shuffle
    | lia
    | reflexivity
    | discriminate].
Defined.

(** ** Tensors *)

Section TensorFacts.
Import Torch.
Local Open Scope R_scope.

Lemma sum_nonneg (x : vec) : Forall (fun a => 0 <= a) x -> 0 <= sum x.
Proof. induction 1 as [|a x Ha _ IH]; unfold sum in *; cbn; lra. Qed.

Lemma sum_zero_iff (x : vec) :
  Forall (fun a => 0 <= a) x -> (sum x = 0 <-> Forall (fun a => a = 0) x).
Proof.
  induction 1 as [|a x Ha Hx IH].
  - split; [constructor | reflexivity].
  - pose proof (sum_nonneg x Hx) as Hs0.
    change (sum (a :: x)) with (a + sum x). split.
    + intros Hs. constructor; [lra | apply IH; lra].
    + intros Hall. apply Forall_cons in Hall as [-> Hall].
      apply IH in Hall. lra.
Qed.

Lemma length_pos_INR {A} (l : list A) : l <> [] -> 0 < INR (length l).
Proof.
  destruct l; [congruence|]. intros _. apply lt_0_INR. cbn [length]. lia.
Qed.

(** The tensor expression of [get_loss], entry by entry. *)
Lemma loss_entries (labels scores : vec) :
  square (add (mul labels (rsub 1 scores))
              (clamp_min (mul (rsub 1 labels) scores) 0))
  = zip_with pair_loss labels scores.
Proof.
  revert scores. induction labels as [|l ls IH]; intros [|s ss];
    try reflexivity.
  specialize (IH ss). unfold square, add, mul, rsub, clamp_min in *.
  cbn [map zip_with]. rewrite IH. f_equal.
  unfold pair_loss, Rsqr. now rewrite (Rmax_comm 0).
Qed.

Lemma length_zip_same {A B C} (f : A -> B -> C) (x : list A) (y : list B) :
  length x = length y -> length (zip_with f x y) = length x.
Proof.
  revert y. induction x as [|a x IH]; intros [|b y] H; cbn in *;
    try reflexivity; try lia.
  now rewrite IH by lia.
Qed.

Lemma get_loss_unfold (scores labels : vec) :
  length labels = length scores ->
  get_loss scores labels = mean_pair_loss labels scores.
Proof.
  intros Hlen. unfold get_loss, mean_pair_loss, mean.
  now rewrite loss_entries, length_zip_same.
Qed.

Lemma pair_loss_nonneg l s : 0 <= pair_loss l s.
Proof. apply Rle_0_sqr. Qed.

(** When a pair costs nothing. *)
Lemma pair_loss_zero l s :
  l = 0 \/ l = 1 ->
  (pair_loss l s = 0 <-> (l = 1 -> s = 1) /\ (l = 0 -> s <= 0)).
Proof.
  unfold pair_loss. intros [-> | ->].
  - replace ((1 - 0) * s) with s by lra. rewrite Rmult_0_l, Rplus_0_l.
    split.
    + intros H%Rsqr_eq_0. split; [lra|]. intros _.
      pose proof (Rmax_r 0 s). lra.
    + intros [_ Hs]. rewrite Rmax_left by (apply Hs; reflexivity).
      apply Rsqr_0.
  - replace ((1 - 1) * s) with 0 by lra.
    rewrite Rmax_left, Rplus_0_r, Rmult_1_l by lra.
    split.
    + intros H%Rsqr_eq_0. split; lra.
    + intros [Hs _]. rewrite Hs by reflexivity.
      replace (1 - 1) with 0 by lra. apply Rsqr_0.
Qed.

(** C2.  For labels and scores of one length, [get_loss] is the mean over
    the pairs of [(l(1-s) + max(0, (1-l)s))^2]; a pair with label 1 and
    score 0.2 contributes 0.64, one with label 0 and score 0.3 contributes
    0.09, one with label 0 and score -0.3 contributes 0. *)
Theorem get_loss_mean_of_pair_losses (scores labels : vec) :
  length labels = length scores ->
  labels <> [] ->
  get_loss scores labels
  = sum (zip_with (fun l s => Rsqr (l * (1 - s) + Rmax 0 ((1 - l) * s)))
           labels scores)
    / INR (length labels) /\
  pair_loss 1 0.2 = 0.64 /\
  pair_loss 0 0.3 = 0.09 /\
  pair_loss 0 (-0.3) = 0.
Proof.
  intros Hlen _. split; [now apply get_loss_unfold|].
  unfold pair_loss, Rsqr. repeat split.
  - rewrite Rmax_left by lra. lra.
  - rewrite Rmax_right by lra. lra.
  - rewrite Rmax_left by lra. lra.
Qed.

Lemma get_loss_mean_of_pair_losses_witness :
  get_loss [0.2; 0.3; -0.3] [1; 0; 0]
  = sum (zip_with (fun l s => Rsqr (l * (1 - s) + Rmax 0 ((1 - l) * s)))
           [1; 0; 0] [0.2; 0.3; -0.3])
    / INR 3 /\
  pair_loss 1 0.2 = 0.64 /\
  pair_loss 0 0.3 = 0.09 /\
  pair_loss 0 (-0.3) = 0.
Proof.
  apply (get_loss_mean_of_pair_losses [0.2; 0.3; -0.3] [1; 0; 0]);
    [reflexivity | discriminate].
Defined.

(** The loss of that batch, a number. *)
Example get_loss_three_pairs :
  get_loss [0.2; 0.3; -0.3] [1; 0; 0] = 0.73 / 3.
Proof.
  rewrite get_loss_unfold by reflexivity.
  unfold mean_pair_loss, pair_loss, Rsqr, sum. cbn.
  rewrite (Rmax_left 0 ((1 - 1) * 0.2)) by lra.
  rewrite (Rmax_right 0 ((1 - 0) * 0.3)) by lra.
  rewrite (Rmax_left 0 ((1 - 0) * -0.3)) by lra. lra.
Qed.

Lemma pair_losses_zero (labels scores : vec) :
  length labels = length scores ->
  Forall (fun l => l = 0 \/ l = 1) labels ->
  (Forall (fun a => a = 0) (zip_with pair_loss labels scores)
   <-> all_pairs_ideal labels scores).
Proof.
  unfold all_pairs_ideal. revert scores.
  induction labels as [|l ls IH]; intros [|s ss] Hlen Hl; cbn in Hlen;
    try discriminate Hlen.
  - split; constructor.
  - apply Forall_cons in Hl as [Hl Hls]. cbn [zip_with].
    specialize (IH ss ltac:(lia) Hls). split.
    + intros [H0 Hrest]%Forall_cons. constructor;
        [now apply pair_loss_zero | now apply IH].
    + intros H. inversion H as [|? ? ? ? H0 Hrest]; subst.
      constructor; [now apply pair_loss_zero | now apply IH].
Qed.

Lemma pair_losses_nonneg (labels scores : vec) :
  Forall (fun a => 0 <= a) (zip_with pair_loss labels scores).
Proof.
  revert scores. induction labels as [|l ls IH]; intros [|s ss]; cbn;
    constructor; [apply pair_loss_nonneg | apply IH].
Qed.

Lemma get_loss_nonneg (scores labels : vec) :
  length labels = length scores -> labels <> [] -> 0 <= get_loss scores labels.
Proof.
  intros Hlen Hne. rewrite get_loss_unfold by assumption. unfold mean_pair_loss.
  apply Rmult_le_pos; [apply sum_nonneg, pair_losses_nonneg|].
  left. now apply Rinv_0_lt_compat, length_pos_INR.
Qed.

Lemma get_loss_vanishes (scores labels : vec) :
  length labels = length scores ->
  labels <> [] ->
  Forall (fun l => l = 0 \/ l = 1) labels ->
  (get_loss scores labels = 0 <-> all_pairs_ideal labels scores).
Proof.
  intros Hlen Hne Hl.
  pose proof (length_pos_INR labels Hne) as Hn.
  pose proof (pair_losses_nonneg labels scores) as Hnn.
  rewrite get_loss_unfold by assumption. unfold mean_pair_loss.
  rewrite <- pair_losses_zero by assumption.
  rewrite <- sum_zero_iff by assumption. split.
  - intros H. apply (Rmult_eq_compat_r (INR (length labels))) in H.
    unfold Rdiv in H. rewrite Rmult_assoc, Rinv_l, Rmult_1_r, Rmult_0_l in H;
      [exact H | lra].
  - intros ->. unfold Rdiv. apply Rmult_0_l.
Qed.

(** C5.  For a batch with labels in {0, 1} the loss is zero exactly when
    every pair with label 1 has similarity 1 and every pair with label 0
    has similarity at most 0, and it is strictly positive otherwise. *)
Theorem get_loss_zero_iff (scores labels : vec) :
  length labels = length scores ->
  labels <> [] ->
  Forall (fun l => l = 0 \/ l = 1) labels ->
  (get_loss scores labels = 0 <->
   Forall2 (fun l s => (l = 1 -> s = 1) /\ (l = 0 -> s <= 0)) labels scores) /\
  (~ Forall2 (fun l s => (l = 1 -> s = 1) /\ (l = 0 -> s <= 0)) labels scores ->
   0 < get_loss scores labels).
Proof.
  intros Hlen Hne Hl.
  pose proof (get_loss_vanishes scores labels Hlen Hne Hl) as Hiff.
  split; [exact Hiff|]. intros Hbad.
  destruct (get_loss_nonneg scores labels Hlen Hne) as [Hgt | Heq];
    [exact Hgt|].
  elim Hbad. apply Hiff. now symmetry.
Qed.

Lemma get_loss_zero_iff_witness :
  (get_loss [1; -0.5] [1; 0] = 0 <->
   Forall2 (fun l s => (l = 1 -> s = 1) /\ (l = 0 -> s <= 0)) [1; 0] [1; -0.5]) /\
  (~ Forall2 (fun l s => (l = 1 -> s = 1) /\ (l = 0 -> s <= 0)) [1; 0] [1; -0.5] ->
   0 < get_loss [1; -0.5] [1; 0]).
Proof.
  apply (get_loss_zero_iff [1; -0.5] [1; 0]);
    [reflexivity | discriminate
    | constructor; [now right | constructor; [now left | constructor]]].
Defined.

Lemma binary_labels_1_0 : Forall (fun l => l = 0 \/ l = 1) [1; 0].
Proof. constructor; [now right | constructor; [now left | constructor]]. Qed.

Example get_loss_ideal_batch : get_loss [1; -0.5] [1; 0] = 0.
Proof.
  apply get_loss_vanishes;
    [reflexivity | discriminate | apply binary_labels_1_0 |].
  repeat constructor; intros; lra.
Qed.

Example get_loss_imperfect_batch : 0 < get_loss [1; 0.25] [1; 0].
Proof.
  destruct (get_loss_nonneg [1; 0.25] [1; 0] eq_refl ltac:(discriminate))
    as [Hgt | Heq]; [exact Hgt|].
  symmetry in Heq.
  apply get_loss_vanishes in Heq;
    [| reflexivity | discriminate | apply binary_labels_1_0].
  inversion Heq as [|? ? ? ? _ H1]; subst.
  inversion H1 as [|? ? ? ? [_ H2] _]; subst.
  specialize (H2 eq_refl). lra.
Qed.

End TensorFacts.

Section PoolingFacts.
Import Torch.
Local Open Scope R_scope.

Lemma add_repeat a b H : add (repeat a H) (repeat b H) = repeat (a + b) H.
Proof. induction H as [|H IH]; cbn; [reflexivity | now f_equal]. Qed.

Lemma mul_repeat c (tok : vec) :
  mul tok (repeat c (length tok)) = scale c tok.
Proof. induction tok as [|x tok IH]; cbn; [reflexivity | now f_equal]. Qed.

Lemma div_repeat d (v : vec) :
  div v (repeat d (length v)) = map (fun x => x / d) v.
Proof. induction v as [|x v IH]; cbn; [reflexivity | now f_equal]. Qed.

Lemma clamp_min_repeat a m H :
  clamp_min (repeat a H) m = repeat (Rmax a m) H.
Proof. induction H as [|H IH]; cbn; [reflexivity | now f_equal]. Qed.

Lemma length_add (x y : vec) :
  length x = length y -> length (add x y) = length x.
Proof. apply length_zip_same. Qed.

(** The expanded mask of one example adds up to its mask sum in every
    feature. *)
Lemma expanded_mask_sum H (mask : list Z) :
  fold_right add (repeat 0 H) (map (fun m => repeat (IZR m) H) mask)
  = repeat (mask_total mask) H.
Proof.
  induction mask as [|m ms IH]; [reflexivity|].
  cbn [map fold_right]. rewrite IH, add_repeat. reflexivity.
Qed.

Lemma masked_tokens H (tokens : mat) (mask : list Z) :
  Forall (fun tok => length tok = H) tokens ->
  zip_with mul tokens (map (fun m => repeat (IZR m) H) mask)
  = zip_with (fun tok m => scale (IZR m) tok) tokens mask.
Proof.
  intros Htok. revert mask.
  induction Htok as [|tok toks Hl _ IH]; intros [|m ms]; try reflexivity.
  cbn [map zip_with]. rewrite IH. f_equal. subst H. apply mul_repeat.
Qed.

Lemma weighted_sum_length H (tokens : mat) (mask : list Z) :
  Forall (fun tok => length tok = H) tokens ->
  length (weighted_sum H tokens mask) = H.
Proof.
  intros Htok. unfold weighted_sum. revert mask.
  induction Htok as [|tok toks Hl _ IH]; intros [|m ms];
    cbn [zip_with fold_right]; try apply repeat_length.
  rewrite length_add; unfold scale; rewrite length_map; [exact Hl|].
  now rewrite IH.
Qed.

(** The divisor is never below the floor, whatever the mask. *)
Lemma pooling_divisor_floor (x : tensor3) (H : nat) :
  Forall (Forall (fun d => 1e-9 <= d)) (pooling_divisor x H).
Proof.
  unfold pooling_divisor, clamp_min. apply Forall_forall. intros row Hrow.
  apply list_elem_of_fmap in Hrow as (r & -> & _).
  apply Forall_forall. intros d Hd.
  apply list_elem_of_fmap in Hd as (a & -> & _). apply Rmax_r.
Qed.

(** Pooling one example. *)
Lemma pool_example H (tokens : mat) (mask : list Z) :
  Forall (fun tok => length tok = H) tokens ->
  div (fold_right add (repeat 0 H)
         (zip_with mul tokens (map (fun m => repeat (IZR m) H) mask)))
      (clamp_min
         (fold_right add (repeat 0 H) (map (fun m => repeat (IZR m) H) mask))
         1e-9)
  = pooled H tokens mask.
Proof.
  intros Htok. rewrite expanded_mask_sum, clamp_min_repeat, masked_tokens
    by assumption.
  fold (weighted_sum H tokens mask). unfold pooled.
  rewrite <- (weighted_sum_length H tokens mask Htok) at 2.
  apply div_repeat.
Qed.

(** C7.  For token embeddings of shape (B, T, H) and a mask of shape
    (B, T), [mean_pooling] returns for every example the mask-weighted sum
    of its token vectors divided by the mask sum clamped below by 1e-9;
    every entry of the divisor tensor is at least 1e-9, so no division is
    by zero, also under an all-zero mask. *)
Theorem mean_pooling_clamped (out : model_output) (mask : list (list Z))
    (H : nat) :
  hidden_size (last_hidden_state out) = H ->
  Forall2 (fun example m =>
             length example = length m /\
             Forall (fun tok => length tok = H) example)
          (last_hidden_state out) mask ->
  mean_pooling out mask
  = zip_with (fun example m =>
                map (fun x => x / Rmax (mask_total m) 1e-9)
                    (weighted_sum H example m))
      (last_hidden_state out) mask /\
  Forall (Forall (fun d => 1e-9 <= d)) (pooling_divisor (expand_mask mask H) H) /\
  forall m, 0 < Rmax (mask_total m) 1e-9.
Proof.
  intros Hsize Hshape. split; [|split].
  - unfold mean_pooling. rewrite Hsize. clear Hsize.
    unfold pooling_divisor, sum_dim1, expand_mask.
    induction Hshape as [|ex m exs ms [_ Htok] _ IH]; [reflexivity|].
    cbn [map zip_with]. rewrite IH. f_equal. now apply pool_example.
  - apply pooling_divisor_floor.
  - intros m. pose proof (Rmax_r (mask_total m) 1e-9). lra.
Qed.

Lemma mean_pooling_clamped_witness :
  mean_pooling two_tokens [[0; 0]%Z]
  = zip_with (fun example m =>
                map (fun x => x / Rmax (mask_total m) 1e-9)
                    (weighted_sum 2 example m))
      (last_hidden_state two_tokens) [[0; 0]%Z] /\
  Forall (Forall (fun d => 1e-9 <= d))
         (pooling_divisor (expand_mask [[0; 0]%Z] 2) 2) /\
  forall m, 0 < Rmax (mask_total m) 1e-9.
Proof.
  apply (mean_pooling_clamped two_tokens [[0; 0]%Z] 2); [reflexivity|].
  repeat constructor.
Defined.

Example mean_pooling_masked : mean_pooling two_tokens [[1; 0]%Z] = [[3; 4]].
Proof.
  unfold mean_pooling, pooling_divisor, sum_dim1, expand_mask, two_tokens.
  cbn. unfold Rdiv. rewrite !(Rmax_left _ 1e-9) by lra.
  repeat f_equal; lra.
Qed.

Example mean_pooling_zero_mask : mean_pooling two_tokens [[0; 0]%Z] = [[0; 0]].
Proof.
  unfold mean_pooling, pooling_divisor, sum_dim1, expand_mask, two_tokens.
  cbn. unfold Rdiv. rewrite !(Rmax_right _ 1e-9) by lra.
  repeat f_equal; lra.
Qed.

End PoolingFacts.

Section SimilarityFacts.
Import Torch.
Local Open Scope R_scope.

(** The sum over the features of the elementwise product is the dot
    product. *)
Lemma sum_mul_dot (a b : vec) : sum (mul a b) = dot a b.
Proof.
  revert b. induction a as [|x a IH]; intros [|y b]; try reflexivity.
  change (sum (mul (x :: a) (y :: b))) with (x * y + sum (mul a b)).
  now rewrite IH.
Qed.

Lemma get_cosing_embeddings_dot (q1 q2 : mat) :
  get_cosing_embeddings q1 q2 = zip_with dot q1 q2.
Proof.
  unfold get_cosing_embeddings, sum_axis1. revert q2.
  induction q1 as [|a q1 IH]; intros [|b q2]; try reflexivity.
  cbn [zip_with map]. now rewrite IH, sum_mul_dot.
Qed.

Lemma sum_squares_nonneg (v : vec) : 0 <= sum_squares v.
Proof.
  unfold sum_squares. apply sum_nonneg, Forall_forall. intros x Hx.
  apply list_elem_of_fmap in Hx as (a & -> & _). apply Rle_0_sqr.
Qed.

Lemma sum_squares_scaled (v : vec) (c : R) :
  sum_squares (map (fun a => a / c) v) = sum_squares v / (c * c).
Proof.
  unfold sum_squares, square, sum.
  induction v as [|x v IH]; cbn [map fold_right].
  - unfold Rdiv. now rewrite Rmult_0_l.
  - rewrite IH. unfold Rdiv.
    destruct (Req_dec c 0) as [->|Hc].
    + rewrite Rmult_0_l, Rinv_0. lra.
    + field. exact Hc.
Qed.

(** A row whose norm reaches the floor of [F.normalize] comes out with
    norm 1. *)
Lemma normalized_row_unit (v : vec) :
  1e-12 <= l2_norm v ->
  unit_norm (map (fun a => a / Rmax (l2_norm v) 1e-12) v).
Proof.
  intros Hn. rewrite Rmax_left by exact Hn.
  unfold unit_norm, l2_norm at 1. rewrite sum_squares_scaled.
  unfold l2_norm. rewrite sqrt_sqrt by apply sum_squares_nonneg.
  unfold l2_norm in Hn.
  assert (sum_squares v <> 0) as Hnz.
  { intros E. rewrite E, sqrt_0 in Hn. lra. }
  unfold Rdiv. rewrite Rinv_r by exact Hnz. apply sqrt_1.
Qed.

Lemma unit_dot_cosine (a b : vec) :
  unit_norm a -> unit_norm b -> dot a b = cosine_similarity a b.
Proof.
  unfold unit_norm, cosine_similarity. intros -> ->. lra.
Qed.

Lemma l2_norm_single (x : R) : 0 <= x -> l2_norm [x] = x.
Proof.
  intros Hx. unfold l2_norm, sum_squares, square, sum. cbn.
  rewrite Rplus_0_r. now apply sqrt_square.
Qed.

Lemma forward_masked_out : forward one_token masked_out = [[0; 0]].
Proof.
  unfold forward, mean_pooling, pooling_divisor, sum_dim1, expand_mask,
    F_normalize. cbn. unfold Rdiv.
  rewrite !(Rmax_right _ 1e-9) by lra.
  replace ((3 * 0 + 0) * / 1e-9) with 0 by lra.
  replace ((4 * 0 + 0) * / 1e-9) with 0 by lra.
  now rewrite !Rmult_0_l.
Qed.

(** With the flag set and the one token masked out, [forward] returns the
    zero vector, whose norm is 0: the output is not unit-normalized. *)
Lemma forward_zero_not_unit :
  normalize one_token = true /\
  ~ Forall unit_norm (forward one_token masked_out).
Proof.
  split; [reflexivity|]. rewrite forward_masked_out.
  intros [H _]%Forall_cons. unfold unit_norm, l2_norm, sum_squares, square, sum in H.
  cbn in H. replace (0 * 0 + (0 * 0 + 0)) with 0 in H by lra.
  rewrite sqrt_0 in H. lra.
Qed.

(** C9, amended.  On two batches of one shape [get_cosing_embeddings] is
    the per-example dot product of its inputs as they are; the dot product
    of two unit vectors is their cosine similarity, and of other vectors it
    need not be.  With the flag set, [forward] returns for every example
    whose pooled embedding has norm at least 1e-12 a vector of norm 1; with
    the flag not set it returns the pooled embeddings as they are. *)
Theorem dot_product_is_cosine_on_unit_vectors :
  (forall q1 q2, same_shape q1 q2 ->
                 get_cosing_embeddings q1 q2 = zip_with dot q1 q2) /\
  (forall a b, unit_norm a -> unit_norm b ->
               dot a b = cosine_similarity a b) /\
  (exists a b, dot a b <> cosine_similarity a b) /\
  (forall self kw i p,
      normalize self = true ->
      mean_pooling (model self kw) (attention_mask kw) !! i = Some p ->
      1e-12 <= l2_norm p ->
      exists v, forward self kw !! i = Some v /\ unit_norm v) /\
  (forall self kw,
      normalize self = false ->
      forward self kw = mean_pooling (model self kw) (attention_mask kw)).
Proof.
  split; [intros q1 q2 _; apply get_cosing_embeddings_dot|].
  split; [exact unit_dot_cosine|].
  split; [|split].
  - exists [2], [2]. unfold cosine_similarity.
    rewrite l2_norm_single by lra. cbn. lra.
  - intros self kw i p Hflag Hp Hn. unfold forward. rewrite Hflag.
    unfold F_normalize. rewrite list_lookup_fmap, Hp. cbn.
    eexists. split; [reflexivity|]. now apply normalized_row_unit.
  - intros self kw Hflag. unfold forward. now rewrite Hflag.
Qed.

Lemma forward_attended :
  mean_pooling (model one_token attended) (attention_mask attended) = [[3; 4]].
Proof.
  unfold mean_pooling, pooling_divisor, sum_dim1, expand_mask. cbn.
  unfold Rdiv. rewrite !(Rmax_left _ 1e-9) by lra.
  repeat f_equal; lra.
Qed.

Lemma l2_norm_3_4 : l2_norm [3; 4] = 5.
Proof.
  unfold l2_norm, sum_squares, square, sum. cbn.
  replace (3 * 3 + (4 * 4 + 0)) with (5 * 5) by lra.
  apply sqrt_square. lra.
Qed.

Lemma dot_product_is_cosine_on_unit_vectors_witness :
  get_cosing_embeddings [[1; 0]; [3; 4]] [[0; 1]; [5; 6]]
  = zip_with dot [[1; 0]; [3; 4]] [[0; 1]; [5; 6]] /\
  dot [1; 0] [0; 1] = cosine_similarity [1; 0] [0; 1] /\
  exists v, forward one_token attended !! 0%nat = Some v /\ unit_norm v.
Proof.
  destruct dot_product_is_cosine_on_unit_vectors
    as (Hdot & Hunit & _ & Hfwd & _).
  split; [apply Hdot; repeat constructor|].
  assert (forall x y, x * x + (y * y + 0) = 1 -> unit_norm [x; y]) as Hu.
  { intros x y E. unfold unit_norm, l2_norm, sum_squares, square, sum. cbn.
    rewrite E. apply sqrt_1. }
  split.
  - apply Hunit; apply Hu; lra.
  - apply (Hfwd one_token attended 0%nat [3; 4]).
    + reflexivity.
    + now rewrite forward_attended.
    + rewrite l2_norm_3_4. lra.
Defined.

End SimilarityFacts.

(** ** The training loop *)

Section LoopFacts.
Import Torch Train.

(** Training without [--with_tracking]: [total_loss] is never assigned, and
    the first batch, once its loss is computed, raises before anything is
    propagated back. *)
Theorem train_epoch_without_tracking_raises
    (args : Namespace) (checkpointing_steps : pyval)
    (model : AutoModelForSentenceEmbedding) (sync : nat -> bool)
    (resumed : locals) (epoch : Z) (batches : list batch)
    (st : train_state) (tracking : pyval) (active : dataloader) :
  Forall (well_shaped model) batches ->
  args !! "with_tracking" = Some tracking ->
  truthy tracking = false ->
  total_loss st = None ->
  active_dataloader args resumed epoch = Ok active ->
  batches_of active batches <> [] ->
  train_epoch args checkpointing_steps model sync resumed epoch batches st
  = ({| steps_done := steps_done st; total_loss := None;
        events := events st ++ [TrTrainMode] |},
     Raise (UnboundLocalError "total_loss")).
Proof.
  intros _ Hwt Hfalse Hunbound Hactive Hne.
  unfold train_epoch, mbind, emit, mlift, getattr. rewrite Hwt, Hfalse, Hactive.
  cbn [mret]. destruct (batches_of active batches) as [|b rest]; [congruence|].
  cbn [train_batches]. unfold mbind, train_step, read_total_loss, mbind.
  cbn [total_loss]. now rewrite Hunbound.
Qed.


Lemma count_updates_app l1 l2 :
  count_updates (l1 ++ l2) = (count_updates l1 + count_updates l2)%nat.
Proof.
  induction l1 as [|e l1 IH]; [reflexivity|].
  destruct e; cbn; rewrite ?IH; reflexivity.
Qed.

Lemma only_logs_nothing st : only_logs (mret tt) st.
Proof.
  exists []. split; [|reflexivity]. unfold mret. rewrite app_nil_r.
  now destruct st.
Qed.

Lemma only_logs_emit e st :
  e <> TrOptimizerStep -> only_logs (emit e) st.
Proof.
  intros He. exists [e]. split; [reflexivity|]. now destruct e.
Qed.

Lemma log_progress_logs args step st :
  is_Some (total_loss st) -> is_Some (args !! "with_tracking") ->
  only_logs (log_progress args step) st.
Proof.
  intros [t Ht] [w Hw]. unfold log_progress.
  destruct (_ =? 0); [|apply only_logs_nothing].
  unfold only_logs, mbind, read_total_loss, emit, mlift, getattr.
  rewrite Ht, Hw. cbn [total_loss steps_done events]. rewrite Ht.
  destruct (truthy w).
  - eexists [_; _]. cbn [total_loss steps_done events].
    rewrite <- app_assoc. split; reflexivity.
  - eexists [_]. unfold mret. split; reflexivity.
Qed.

Lemma step_checkpoint_logs args cs st :
  cs <> VInt 0 ->
  (args !! "output_dir" = Some VNone \/
   exists d, args !! "output_dir" = Some (VStr d)) ->
  only_logs (step_checkpoint args cs) st.
Proof.
  intros Hcs Hout. unfold step_checkpoint.
  destruct cs as [| |c| |]; try apply only_logs_nothing.
  unfold only_logs, mbind, get_steps.
  destruct (Z.eqb_spec c 0) as [->|_]; [congruence|].
  destruct (_ =? 0); [|apply only_logs_nothing].
  unfold mlift, getattr.
  destruct Hout as [-> | [d ->]]; now apply only_logs_emit.
Qed.

(** One batch with gradients synchronised: one optimizer update, one more
    completed step, and the loop breaks when that step reaches
    [max_train_steps]. *)
Lemma train_step_counts args cs model step b st max_train_steps t :
  loop_attrs args max_train_steps ->
  cs <> VInt 0 ->
  total_loss st = Some t ->
  exists st',
    train_step args cs model true step b st
    = (st', Ok (max_train_steps <=? steps_done st + 1)) /\
    steps_done st' = steps_done st + 1 /\
    total_loss st' = Some (t + batch_loss model b)%R /\
    optimizer_steps st' = S (optimizer_steps st).
Proof.
  intros (Hmax & Hwt & Hout) Hcs Ht.
  unfold train_step.
  unfold mbind at 1. unfold read_total_loss. rewrite Ht.
  unfold mbind at 1. unfold set_total_loss.
  unfold mbind at 1. unfold emit_all. cbn [steps_done total_loss events].
  unfold mbind at 1. unfold mbind at 1. unfold emit, mbind, get_steps, set_steps.
  cbn [steps_done total_loss events].
  set (st1 := {| steps_done := steps_done st + 1 |}).
  destruct (log_progress_logs args step st1) as (ev1 & -> & Hc1);
    [now eexists | exact Hwt |].
  set (st2 := {| events := events st1 ++ ev1 |}).
  destruct (step_checkpoint_logs args cs st2 Hcs Hout) as (ev2 & -> & Hc2).
  unfold mlift, getattr. rewrite Hmax. cbn [as_int mret steps_done].
  eexists. split; [reflexivity|]. subst st2 st1. cbn [steps_done total_loss].
  split; [reflexivity|]. split; [reflexivity|].
  unfold optimizer_steps. cbn [events].
  rewrite !count_updates_app, Hc1, Hc2. cbn. lia.
Qed.

(** The batch loop over well-shaped batches with gradients synchronised
    after every batch: it trains on [min (number of batches) (max 1 (max_train_steps - steps
    done))] batches, one optimizer update and one completed step each; an
    epoch entered with the step budget already used up still trains on one
    batch. *)
Theorem train_batches_step_count
    (args : Namespace) (checkpointing_steps : pyval)
    (model : AutoModelForSentenceEmbedding) (sync : nat -> bool)
    (max_train_steps : Z) (batches : list batch) :
  forall (step : nat) (st : train_state),
    Forall (well_shaped model) batches ->
    loop_attrs args max_train_steps ->
    checkpointing_steps <> VInt 0 ->
    always_syncs sync ->
    is_Some (total_loss st) ->
    let trained :=
      Z.min (Z.of_nat (length batches))
            (Z.max 1 (max_train_steps - steps_done st)) in
    exists st',
      train_batches args checkpointing_steps model sync step batches st
      = (st', Ok tt) /\
      steps_done st' = steps_done st + trained /\
      optimizer_steps st' = (optimizer_steps st + Z.to_nat trained)%nat.
Proof.
  induction batches as [|b rest IH];
    intros step st Hshape Hargs Hcs Hsync [t Ht].
  - exists st. split; [reflexivity|]. cbn [length]. split; lia.
  - cbn [train_batches]. unfold mbind. rewrite (Hsync step).
    destruct (train_step_counts args checkpointing_steps model step b st
                max_train_steps t Hargs Hcs Ht)
      as (st1 & -> & Hs1 & Ht1 & Ho1).
    destruct (Z.leb_spec max_train_steps (steps_done st + 1)) as [Hle|Hgt].
    + exists st1. split; [reflexivity|]. cbn [length]. cbv zeta.
      rewrite Hs1, Ho1. split; lia.
    + apply Forall_cons in Hshape as [_ Hshape].
      destruct (IH (S step) st1 Hshape Hargs Hcs Hsync)
        as (st' & -> & Hs' & Ho'); [eexists; exact Ht1|].
      exists st'. split; [reflexivity|]. cbv zeta in *. cbn [length].
      rewrite Hs', Ho', Hs1, Ho1. split; lia.
Qed.


Lemma one_pair_shaped : well_shaped one_token one_pair.
Proof.
  exists 2%nat. repeat split; repeat constructor.
Qed.

Lemma train_epoch_without_tracking_raises_witness :
  train_epoch untracked_args VNone one_token (fun _ => true) not_resumed 0
    [one_pair] fresh_state
  = ({| steps_done := 0; total_loss := None; events := [] ++ [TrTrainMode] |},
     Raise (UnboundLocalError "total_loss")).
Proof.
  apply (train_epoch_without_tracking_raises untracked_args VNone one_token
           (fun _ => true) not_resumed 0 [one_pair] fresh_state
           (VBool false) TrainDataloader);
    [repeat constructor; apply one_pair_shaped
    | reflexivity | reflexivity | reflexivity | reflexivity | discriminate].
Defined.

Lemma train_batches_step_count_witness :
  exists st',
    train_batches tracked_args VNone one_token (fun _ => true) 0
      [one_pair; one_pair; one_pair; one_pair; one_pair] tracking_state
    = (st', Ok tt) /\
    steps_done st' = 0 + Z.min 5 (Z.max 1 (3 - 0)) /\
    optimizer_steps st' = (0 + Z.to_nat (Z.min 5 (Z.max 1 (3 - 0))))%nat.
Proof.
  apply (train_batches_step_count tracked_args VNone one_token (fun _ => true) 3
           [one_pair; one_pair; one_pair; one_pair; one_pair] 0%nat
           tracking_state).
  - repeat constructor; apply one_pair_shaped.
  - split; [reflexivity|]. split; [eexists; reflexivity|].
    right. eexists. reflexivity.
  - discriminate.
  - intros i. reflexivity.
  - eexists. reflexivity.
Defined.

(** [--checkpointing_steps 0] (or any string of zeros) is taken as the
    integer 0, and the first batch, well-shaped, raises
    [ZeroDivisionError] at line 626, after its optimizer update. *)
Theorem zero_checkpointing_steps_raises
    (args : Namespace) (model : AutoModelForSentenceEmbedding)
    (sync : nat -> bool) (step : nat) (b : batch) (rest : list batch)
    (st : train_state) (s : string) :
  well_shaped model b ->
  args !! "checkpointing_steps" = Some (VStr s) ->
  isdigit s = true ->
  PyStr.int s = Ok 0 ->
  is_Some (total_loss st) ->
  is_Some (args !! "with_tracking") ->
  checkpointing_steps_of args = Ok (VInt 0) /\
  exists st',
    train_batches args (VInt 0) model sync step (b :: rest) st
    = (st', Raise ZeroDivisionError) /\
    optimizer_steps st' = S (optimizer_steps st).
Proof.
  intros _ Hcs Hdig Hint [t Ht] Hwt. split.
  { unfold checkpointing_steps_of, getattr. rewrite Hcs. cbn [rbind].
    now rewrite Hdig, Hint. }
  cbn [train_batches]. unfold mbind at 1. unfold train_step.
  unfold mbind at 1. unfold read_total_loss. rewrite Ht.
  unfold mbind at 1. unfold set_total_loss.
  unfold mbind at 1. unfold emit_all. cbn [steps_done total_loss events].
  unfold mbind at 1.
  set (st0 := {| steps_done := steps_done st |}).
  assert (exists st1,
             (if sync step
              then let! _ := emit TrProgress in
                   let! n := get_steps in set_steps (n + 1)
              else mret tt) st0 = (st1, Ok tt) /\
             is_Some (total_loss st1) /\
             optimizer_steps st1 = S (optimizer_steps st)) as (st1 & -> & Ht1 & Ho1).
  { destruct (sync step).
    - eexists. split; [reflexivity|]. split; [eexists; reflexivity|].
      unfold optimizer_steps. subst st0. cbn [events].
      rewrite !count_updates_app. cbn. lia.
    - eexists. split; [reflexivity|]. split; [eexists; reflexivity|].
      unfold optimizer_steps. subst st0. cbn [events].
      rewrite !count_updates_app. cbn. lia. }
  unfold mbind at 1.
  destruct (log_progress_logs args step st1 Ht1 Hwt) as (ev1 & -> & Hc1).
  unfold mbind at 1. unfold step_checkpoint, mbind, get_steps, mraise.
  cbn [Z.eqb]. eexists. split; [reflexivity|].
  unfold optimizer_steps in *. cbn [events].
  rewrite count_updates_app, Hc1, Ho1. lia.
Qed.

Lemma zero_checkpointing_steps_raises_witness :
  checkpointing_steps_of tracked_args = Ok (VInt 0) /\
  exists st',
    train_batches tracked_args (VInt 0) one_token (fun _ => true) 0
      [one_pair] tracking_state
    = (st', Raise ZeroDivisionError) /\
    optimizer_steps st' = S (optimizer_steps tracking_state).
Proof.
  apply (zero_checkpointing_steps_raises tracked_args one_token (fun _ => true)
           0%nat one_pair [] tracking_state "0");
    [apply one_pair_shaped | reflexivity | reflexivity | reflexivity
    | eexists; reflexivity | eexists; reflexivity].
Defined.

End LoopFacts.

(** ** Checkpoint names *)

Lemma lacks_not_prefix c s rest :
  lacks c s = true -> String.prefix (String c rest) s = false.
Proof.
  destruct s as [|a t]; [reflexivity|]. cbn [lacks].
  intros [Ha _]%andb_prop. apply prefix_head_ne.
  intros ->. now rewrite Ascii.eqb_refl in Ha.
Qed.

Lemma append_cons c a s : String c a +:+ s = String c (a +:+ s).
Proof. reflexivity. Qed.

Lemma append_assoc a b c : (a +:+ b) +:+ c = a +:+ (b +:+ c).
Proof.
  induction a as [|x a IH]; [reflexivity|].
  now rewrite !append_cons, IH.
Qed.

Lemma length_append a b :
  String.length (a +:+ b) = (String.length a + String.length b)%nat.
Proof.
  induction a as [|x a IH]; [reflexivity|].
  rewrite append_cons. cbn [String.length]. now rewrite IH.
Qed.

Lemma pystr_drop_app a s : PyStr.drop (String.length a) (a +:+ s) = s.
Proof.
  induction a as [|c a IH]; [reflexivity|].
  rewrite append_cons. exact IH.
Qed.

Lemma rfind_cons c a t :
  PyStr.rfind c (String a t)
  = if 0 <=? PyStr.rfind c t then PyStr.rfind c t + 1
    else if Ascii.eqb a c then 0 else -1.
Proof. reflexivity. Qed.

Lemma rfind_after_slash a name :
  lacks "/" name = true ->
  PyStr.rfind "/" (a +:+ String "/" name) = Z.of_nat (String.length a).
Proof.
  intros Hn. induction a as [|c a IH].
  - change (EmptyString +:+ String "/" name) with (String "/" name).
    now rewrite rfind_cons, (rfind_lacks _ _ Hn).
  - change (String c a +:+ String "/" name)
      with (String c (a +:+ String "/" name)).
    rewrite rfind_cons, IH.
    destruct (Z.leb_spec 0 (Z.of_nat (String.length a))); [|lia].
    cbn [String.length]. lia.
Qed.

Lemma basename_after_slash a name :
  lacks "/" name = true -> PyStr.basename (a +:+ String "/" name) = name.
Proof.
  intros Hn. unfold PyStr.basename. rewrite rfind_after_slash by assumption.
  replace (Z.to_nat (Z.of_nat (String.length a) + 1))
    with (String.length (a +:+ "/"))
    by (rewrite length_append; cbn [String.length]; lia).
  change (String "/" name) with ("/" +:+ name).
  rewrite <- append_assoc. apply pystr_drop_app.
Qed.

Lemma ends_with_split c a :
  ends_with c a = true -> exists a', a = a' +:+ String c EmptyString.
Proof.
  induction a as [|x a IH]; [discriminate|].
  destruct a as [|y a'].
  - cbn. intros ->%Ascii.eqb_eq. now exists EmptyString.
  - intros H. destruct (IH H) as [a0 Ha0]. exists (String x a0).
    rewrite append_cons. now rewrite <- Ha0.
Qed.

(** A name without a slash, joined to any directory, is the basename of
    the joined path. *)
Lemma basename_path_join dir name :
  lacks "/" name = true -> PyStr.basename (path_join dir name) = name.
Proof.
  intros Hn. unfold path_join.
  rewrite lacks_not_prefix by assumption.
  destruct (String.eqb_spec dir "") as [->|Hne]; cbn [orb].
  - change (EmptyString +:+ name) with name.
    unfold PyStr.basename. now rewrite (rfind_lacks _ _ Hn).
  - destruct (ends_with "/" dir) eqn:He.
    + destruct (ends_with_split _ _ He) as [a ->].
      rewrite append_assoc. now apply basename_after_slash.
    + now apply basename_after_slash.
Qed.

Lemma str_int_nonneg z : 0 <= z -> str_int z = PyStr.str (Z.to_N z).
Proof.
  intros Hz. unfold str_int. now destruct (Z.ltb_spec z 0); [lia|].
Qed.

Lemma epoch_name_lacks_slash i : lacks "/" ("epoch_" +:+ PyStr.str i) = true.
Proof.
  rewrite lacks_app, (lacks_digits "/" (PyStr.str i)) by
    (reflexivity || apply str_digits). reflexivity.
Qed.

Lemma uint_of_digits s :
  all_digits s = true -> exists d, NilEmpty.uint_of_string s = Some d.
Proof.
  induction s as [|c t IH]; [now eexists|].
  cbn [all_digits]. intros [Hc Ht]%andb_prop. destruct (IH Ht) as [d Hd].
  cbn [NilEmpty.uint_of_string]. rewrite Hd.
  destruct c as [[|] [|] [|] [|] [|] [|] [|] [|]];
    cbn in Hc; try discriminate Hc; cbn; eauto.
Qed.

(** [int] accepts whatever [isdigit] accepts. *)
Lemma int_of_isdigit s : isdigit s = true -> exists n, PyStr.int s = Ok n.
Proof.
  unfold isdigit. intros [Hne Hd]%andb_prop.
  assert (s <> EmptyString) as Hs.
  { intros ->. discriminate Hne. }
  unfold PyStr.int. rewrite strip_digits by assumption.
  assert (exists n, PyStr.unsigned_of_string s = Some n) as [n Hn].
  { unfold PyStr.unsigned_of_string.
    rewrite literal_digits_all by (assumption || now left).
    destruct (uint_of_digits s Hd) as [d ->]. eauto. }
  destruct s as [|c t]; [congruence|].
  cbn [all_digits] in Hd. apply andb_prop in Hd as [Hc _].
  destruct (digit_cases c Hc) as (_ & _ & _ & _ & Hm & Hp & _).
  assert (c <> "-"%char) by (intros ->; discriminate Hm).
  assert (c <> "+"%char) by (intros ->; discriminate Hp).
  exists n.
  destruct c as [[|] [|] [|] [|] [|] [|] [|] [|]];
    try congruence; now rewrite Hn.
Qed.

Section CheckpointFacts.
Import Torch Train.

(** The end of an epoch with an output directory and no push: an ASCII
    [--checkpointing_steps] value that is not a string of digits, whether
    it reads [epoch] or anything else, saves the state under
    [<output_dir>/epoch_<epoch>]; a string of digits does not. *)
Theorem epoch_end_saves_unless_digits
    (args : Namespace) (s dir : string) (epoch : Z) (st : train_state) :
  is_ascii s = true ->
  args !! "checkpointing_steps" = Some (VStr s) ->
  args !! "output_dir" = Some (VStr dir) ->
  args !! "push_to_hub" = Some (VBool false) ->
  exists cs,
    checkpointing_steps_of args = Ok cs /\
    epoch_end args cs epoch st
    = ({| steps_done := steps_done st; total_loss := total_loss st;
          events :=
            events st ++
            (if isdigit s then []
             else [TrSaveState (path_join dir ("epoch_" +:+ str_int epoch))]) ++
            [TrSavePretrained dir; TrSaveTokenizer dir] |},
       Ok tt).
Proof.
  intros _ Hcs Hout Hpush.
  unfold checkpointing_steps_of, epoch_end, mbind, mlift, getattr.
  rewrite Hcs, Hout, Hpush. cbn [rbind truthy mret].
  destruct (isdigit s) eqn:Hd.
  - destruct (int_of_isdigit s Hd) as [n ->]. cbn [rbind].
    eexists. split; [reflexivity|]. unfold mret, emit.
    cbn [steps_done total_loss events]. now rewrite <- !app_assoc.
  - eexists. split; [reflexivity|]. unfold emit.
    cbn [steps_done total_loss events]. now rewrite <- !app_assoc.
Qed.

(** Without an output directory the end of an epoch saves nothing,
    whatever [--checkpointing_steps] says. *)
Lemma epoch_end_without_output_dir args cs epoch st :
  args !! "output_dir" = Some VNone ->
  epoch_end args cs epoch st = (st, Ok tt).
Proof.
  intros Hout. unfold epoch_end, mbind, mlift, getattr. now rewrite Hout.
Qed.


Lemma epoch_end_saves_unless_digits_witness :
  exists cs,
    checkpointing_steps_of (<["checkpointing_steps" := VStr "per_epoch"]> tracked_args)
    = Ok cs /\
    epoch_end (<["checkpointing_steps" := VStr "per_epoch"]> tracked_args) cs 2
      tracking_state
    = ({| steps_done := 0; total_loss := Some 0%R;
          events :=
            [] ++
            (if isdigit "per_epoch" then []
             else [TrSaveState (path_join "out" ("epoch_" +:+ str_int 2))]) ++
            [TrSavePretrained "out"; TrSaveTokenizer "out"] |},
       Ok tt).
Proof.
  apply (epoch_end_saves_unless_digits
           (<["checkpointing_steps" := VStr "per_epoch"]> tracked_args)
           "per_epoch" "out" 2 tracking_state); reflexivity.
Defined.

(** The state checkpoints an epoch end writes are named
    [<dir>/epoch_<epoch>]. *)
Lemma epoch_end_saved_name args cs epoch n t name :
  In (TrSaveState name)
     (events (fst (epoch_end args cs epoch
                     {| steps_done := n; total_loss := t; events := [] |}))) ->
  exists dir, name = path_join dir ("epoch_" +:+ str_int epoch).
Proof.
  unfold epoch_end, mbind, mlift, getattr, emit, mret, mraise.
  generalize (args !! "output_dir"), (args !! "push_to_hub"),
    (args !! "num_train_epochs").
  intros out push epochs.
  destruct out as [[| | |dir|]|]; cbn; try tauto.
  destruct push as [push|];
    [destruct (truthy push);
     [destruct epochs as [ev|]; [destruct (as_int ev)|]|]|];
    destruct cs; cbn; intros H;
    repeat (destruct H as [H|H]; [try discriminate H|]);
    try (injection H as <-; eauto); try tauto.
Qed.

(** Resuming from [<dir>/epoch_<e>]. *)
Lemma resume_after_epoch env args dir e nups len_train :
  0 <= e ->
  args !! "resume_from_checkpoint"
    = Some (VStr (path_join dir ("epoch_" +:+ str_int e))) ->
  load_state env (path_join dir ("epoch_" +:+ str_int e)) = Ok tt ->
  exists st,
    resume env args nups len_train = Ok st /\
    starting_epoch st = e + 1 /\
    completed_steps st = (e + 1) * nups.
Proof.
  intros He Hrfc Hload. rewrite (str_int_nonneg e He) in *.
  set (ckpt := path_join dir ("epoch_" +:+ PyStr.str (Z.to_N e))) in *.
  assert (PyStr.basename ckpt = "epoch_" +:+ PyStr.str (Z.to_N e)) as Hbase
    by apply basename_path_join, epoch_name_lacks_slash.
  pose proof (basename_nonempty _ _ Hbase (epoch_name_nonempty _)) as Htrue.
  destruct (epoch_name_parsed (Z.to_N e)) as [Hin Hint].
  eexists. split; [|split].
  - unfold resume, getattr. rewrite Hrfc. cbn [rbind]. rewrite Htrue.
    cbn [is_none negb orb as_str rbind]. rewrite Hload. cbn [rbind].
    rewrite Hbase, Hin, Hint. cbn [rbind]. reflexivity.
  - cbn [starting_epoch]. lia.
  - cbn [completed_steps]. f_equal. lia.
Qed.

(** A run resumed from a state checkpoint that the end of epoch [e] wrote
    starts at epoch [e + 1] with [(e + 1)] times the update steps per epoch
    completed. *)
Theorem epoch_checkpoint_resumes_next_epoch
    (saving : Namespace) (cs : pyval) (e n : Z) (t : option R) (name : string)
    (env : resume_env) (args : Namespace) (nups len_train : Z) :
  0 <= e ->
  In (TrSaveState name)
     (events (fst (epoch_end saving cs e
                     {| steps_done := n; total_loss := t; events := [] |}))) ->
  args !! "resume_from_checkpoint" = Some (VStr name) ->
  load_state env name = Ok tt ->
  exists st,
    resume env args nups len_train = Ok st /\
    starting_epoch st = e + 1 /\
    completed_steps st = (e + 1) * nups.
Proof.
  intros He Hsaved Hrfc Hload.
  destruct (epoch_end_saved_name _ _ _ _ _ _ Hsaved) as [dir ->].
  now apply (resume_after_epoch env args dir).
Qed.

Lemma epoch_end_sample_events :
  events (fst (epoch_end (<["checkpointing_steps" := VStr "epoch"]> tracked_args)
                 (VStr "epoch") 2
                 {| steps_done := 0; total_loss := None; events := [] |}))
  = [TrSaveState "out/epoch_2"; TrSavePretrained "out"; TrSaveTokenizer "out"].
Proof. vm_compute. reflexivity. Qed.

Lemma epoch_checkpoint_resumes_next_epoch_witness :
  exists st,
    resume loads_fine
      (<["resume_from_checkpoint" := VStr "out/epoch_2"]> untracked_args) 500 1000
    = Ok st /\
    starting_epoch st = 2 + 1 /\
    completed_steps st = (2 + 1) * 500.
Proof.
  apply (epoch_checkpoint_resumes_next_epoch
           (<["checkpointing_steps" := VStr "epoch"]> tracked_args) (VStr "epoch")
           2 0 None "out/epoch_2" loads_fine
           (<["resume_from_checkpoint" := VStr "out/epoch_2"]> untracked_args)
           500 1000).
  - lia.
  - rewrite epoch_end_sample_events. left. reflexivity.
  - vm_compute. reflexivity.
  - reflexivity.
Defined.

End CheckpointFacts.

(** ** More on resuming *)

(** A checkpoint path that ends in a slash has an empty basename, and the
    resume block fails on [int("")]. *)
Theorem resume_trailing_slash_raises
    (env : resume_env) (args : Namespace) (dir : string)
    (num_update_steps_per_epoch len_train : Z) :
  args !! "resume_from_checkpoint" = Some (VStr (dir +:+ "/")) ->
  load_state env (dir +:+ "/") = Ok tt ->
  resume env args num_update_steps_per_epoch len_train
  = Raise (ValueError "invalid literal for int() with base 10").
Proof.
  intros Hrfc Hload.
  assert (PyStr.basename (dir +:+ "/") = EmptyString) as Hbase
    by now apply basename_after_slash.
  assert (truthy (VStr (dir +:+ "/")) = true) as Htrue
    by now destruct dir.
  unfold resume, getattr. rewrite Hrfc. cbn [rbind]. rewrite Htrue.
  cbn [is_none negb orb as_str rbind]. rewrite Hload. cbn [rbind].
  rewrite Hbase. reflexivity.
Qed.

Lemma resume_trailing_slash_raises_witness :
  resume loads_fine
    (<["resume_from_checkpoint" := VStr ("out/epoch_3" +:+ "/")]> untracked_args)
    500 1000
  = Raise (ValueError "invalid literal for int() with base 10").
Proof.
  apply (resume_trailing_slash_raises loads_fine
           (<["resume_from_checkpoint" := VStr ("out/epoch_3" +:+ "/")]>
              untracked_args) "out/epoch_3" 500 1000); reflexivity.
Defined.

(** Whatever the resume block returns, choosing the dataloader of an epoch
    never reads [resume_step] unbound; batches are skipped only in the
    starting epoch, and only as many as [resume_step] says. *)
Theorem dataloader_after_resume
    (env : resume_env) (args : Namespace)
    (num_update_steps_per_epoch len_train : Z) (st : locals) (epoch : Z) :
  resume env args num_update_steps_per_epoch len_train = Ok st ->
  active_dataloader args st epoch = Ok TrainDataloader \/
  exists n,
    active_dataloader args st epoch = Ok (SkipFirstBatches n) /\
    resume_step st = Some (Some n) /\ epoch = starting_epoch st.
Proof.
  unfold resume, active_dataloader, getattr.
  destruct (args !! "resume_from_checkpoint") as [rfc|]; [|discriminate].
  cbn [rbind]. destruct (truthy rfc) eqn:Htrue.
  2:{ intros [= <-]. now left. }
  intros H. cbn [andb].
  destruct (Z.eqb_spec epoch (starting_epoch st)) as [->|Hne]; [|now left].
  assert (exists r, resume_step st = Some r) as [r Hr].
  { repeat match type of H with
           | rbind ?m _ = Ok _ =>
               let E := fresh "E" in
               destruct m eqn:E; cbn [rbind] in H; [|discriminate H]
           | (if ?b then _ else _) = Ok _ => destruct b
           | Ok _ = Ok _ => injection H as <-
           end; cbn [resume_step]; eauto. }
  rewrite Hr. destruct r as [n|]; [right | now left]. eauto.
Qed.

Lemma dataloader_after_resume_witness :
  active_dataloader epoch3_args
    {| completed_steps := 4 * 500; starting_epoch := 4; resume_step := Some None |}
    4 = Ok TrainDataloader \/
  exists n,
    active_dataloader epoch3_args
      {| completed_steps := 4 * 500; starting_epoch := 4;
         resume_step := Some None |} 4 = Ok (SkipFirstBatches n) /\
    resume_step {| completed_steps := 4 * 500; starting_epoch := 4;
                   resume_step := Some None |} = Some (Some n) /\
    4 = starting_epoch {| completed_steps := 4 * 500; starting_epoch := 4;
                          resume_step := Some None |}.
Proof.
  apply (dataloader_after_resume loads_fine epoch3_args 500 1000).
  vm_compute. reflexivity.
Defined.

(** ** More on [parse_args] *)

Lemma consume_app front back : forall ns,
  Argparse.consume (front ++ back) ns
  = let* ns' := Argparse.consume front ns in Argparse.consume back ns'.
Proof.
  induction front as [|[name raw] front IH]; intros ns; [reflexivity|].
  rewrite <- app_comm_cons, !consume_cons.
  destruct (String.eqb name "help"); [reflexivity|].
  destruct (Argparse.find_spec name Argparse.specs) as [sp|]; [|apply IH].
  destruct (Argparse.convert sp raw) as [v|]; [|reflexivity].
  cbn [rbind]. apply IH.
Qed.

(** An option that is not on the command line keeps the value it had. *)
Lemma consume_not_given line name : forall ns ns',
  Argparse.consume line ns = Ok ns' ->
  Argparse.given name line = false ->
  ns' !! name = ns !! name.
Proof.
  induction line as [|[n raw] rest IH]; intros ns ns' Hc Hg.
  - cbn in Hc. congruence.
  - rewrite consume_cons in Hc. rewrite given_cons in Hg.
    apply orb_false_elim in Hg as [Hn Hg]. cbn [fst] in Hn.
    destruct (String.eqb n "help"); [discriminate Hc|].
    destruct (Argparse.find_spec n Argparse.specs) as [sp|];
      [|exact (IH _ _ Hc Hg)].
    destruct (Argparse.convert sp raw) as [v|]; [|discriminate Hc].
    cbn [rbind] in Hc. rewrite (IH _ _ Hc Hg).
    apply lookup_insert_ne. intros ->. now rewrite String.eqb_refl in Hn.
Qed.

Lemma unrecognized_app front back :
  Argparse.unrecognized (front ++ back)
  = Argparse.unrecognized front || Argparse.unrecognized back.
Proof. apply existsb_app. Qed.

(** On a command line the parser accepts every option is one it knows. *)
Lemma recognized_option front name raw rest :
  Argparse.unrecognized (front ++ (name, raw) :: rest) = false ->
  exists sp, Argparse.find_spec name Argparse.specs = Some sp.
Proof.
  rewrite unrecognized_app. intros [_ H]%orb_false_elim.
  unfold Argparse.unrecognized in H. cbn [existsb fst] in H.
  apply orb_false_elim in H as [H _].
  destruct (Argparse.find_spec name Argparse.specs); [eauto | discriminate H].
Qed.

Lemma defaults_lookup sp :
  In sp Argparse.specs ->
  Argparse.defaults !! Argparse.dest sp = Some (Argparse.default sp).
Proof.
  unfold Argparse.specs. intros Hin.
  repeat (destruct Hin as [<-|Hin]; [vm_compute; reflexivity|]).
  destruct Hin.
Qed.

(** An option that is not given has its default in the namespace. *)
Theorem parse_args_default (line : Argparse.argv) (args : Namespace)
    (sp : Argparse.arg_spec) :
  parse_args line = Ok args ->
  In sp Argparse.specs ->
  Argparse.given (Argparse.dest sp) line = false ->
  args !! Argparse.dest sp = Some (Argparse.default sp).
Proof.
  intros Hp%parse_args_inv Hin Hg.
  rewrite (consume_not_given _ _ _ _ Hp Hg). now apply defaults_lookup.
Qed.

Lemma parse_args_default_witness :
  epoch3_args !! "dataset_handling" = Some (VStr "memory").
Proof.
  apply (parse_args_default epoch3_line epoch3_args
           {| Argparse.dest := "dataset_handling"; Argparse.ty := Argparse.TStr;
              Argparse.default := VStr "memory";
              Argparse.choices := Some ["memory"; "streaming"];
              Argparse.required := false |});
    [reflexivity | | reflexivity].
  unfold Argparse.specs. repeat (try (left; reflexivity); right).
Defined.

(** The value of a given option is the conversion of its last occurrence. *)
Theorem parse_args_last_occurrence (front rest : Argparse.argv)
    (name : string) (raw : option string) (args : Namespace) :
  parse_args (front ++ (name, raw) :: rest) = Ok args ->
  Argparse.given name rest = false ->
  exists sp v,
    Argparse.find_spec name Argparse.specs = Some sp /\
    Argparse.convert sp raw = Ok v /\
    args !! name = Some v.
Proof.
  intros Hp%parse_args_parse%parse_inv Hg. destruct Hp as (Hp & _ & Hrec).
  destruct (recognized_option _ _ _ _ Hrec) as [sp Hsp].
  rewrite consume_app in Hp.
  destruct (Argparse.consume front Argparse.defaults) as [ns|]; [|discriminate Hp].
  cbn [rbind] in Hp. rewrite consume_cons, Hsp in Hp.
  destruct (String.eqb name "help"); [discriminate Hp|].
  destruct (Argparse.convert sp raw) as [v|] eqn:Hv; [|discriminate Hp].
  cbn [rbind] in Hp. exists sp, v. repeat split; [exact Hsp | exact Hv|].
  rewrite (consume_not_given _ _ _ _ Hp Hg). apply lookup_insert_eq.
Qed.

Lemma parse_args_last_occurrence_witness :
  exists sp v,
    Argparse.find_spec "gradient_accumulation_steps" Argparse.specs = Some sp /\
    Argparse.convert sp (Some "2") = Ok v /\
    epoch3_args !! "gradient_accumulation_steps" = Some v.
Proof.
  apply (parse_args_last_occurrence
           [("model_name_or_path", Some "intfloat/e5-small")]
           [("resume_from_checkpoint", Some "out/epoch_3")]
           "gradient_accumulation_steps" (Some "2") epoch3_args);
    reflexivity.
Defined.

(** Without [--model_name_or_path], and with no request for help, the
    parser exits with status 2. *)
Theorem parse_args_requires_model (line : Argparse.argv) :
  Argparse.given "model_name_or_path" line = false ->
  Argparse.given "help" line = false ->
  exists msg, parse_args line = Raise (SystemExit 2 msg).
Proof.
  intros Hg Hh. unfold parse_args, Argparse.parse.
  destruct (Argparse.consume line Argparse.defaults) as [ns|e] eqn:Hc.
  - cbn [rbind].
    assert (Argparse.missing_required line = true) as ->.
    { unfold Argparse.missing_required, Argparse.specs.
      cbn [existsb Argparse.required Argparse.dest Argparse.opt andb orb].
      now rewrite Hg. }
    unfold Argparse.usage_error. cbn [rbind]. eauto.
  - destruct (consume_error _ _ _ Hh Hc) as [msg ->]. cbn [rbind]. eauto.
Qed.

Lemma parse_args_requires_model_witness :
  exists msg,
    parse_args [("dataset_name", Some "quora.csv")] = Raise (SystemExit 2 msg).
Proof.
  apply (parse_args_requires_model [("dataset_name", Some "quora.csv")]);
    reflexivity.
Defined.

Lemma find_spec_In name sp :
  Argparse.find_spec name Argparse.specs = Some sp -> In sp Argparse.specs.
Proof.
  generalize Argparse.specs. intros l. induction l as [|x l IH]; cbn;
    [discriminate|].
  destruct (String.eqb (Argparse.dest x) name); [intros [= <-]; now left|].
  intros H. right. now apply IH.
Qed.

Lemma find_spec_of_dest name :
  In name (map Argparse.dest Argparse.specs) ->
  exists sp, Argparse.find_spec name Argparse.specs = Some sp.
Proof.
  generalize Argparse.specs. intros l. induction l as [|x l IH]; cbn;
    [intros []|].
  intros [<-|Hin].
  - rewrite String.eqb_refl. eauto.
  - destruct (String.eqb (Argparse.dest x) name); eauto.
Qed.

Lemma defaults_declared : declared Argparse.defaults.
Proof.
  unfold declared, Argparse.defaults. generalize Argparse.specs.
  intros l name. induction l as [|x l IH]; cbn [fold_right map In].
  - rewrite lookup_empty. split; [intros [? H]; discriminate H | intros []].
  - destruct (decide (Argparse.dest x = name)) as [->|Hne].
    + rewrite lookup_insert_eq. split; eauto.
    + rewrite lookup_insert_ne by assumption. rewrite IH. tauto.
Qed.

Lemma consume_declared line : forall ns ns',
  Argparse.consume line ns = Ok ns' -> declared ns -> declared ns'.
Proof.
  revert line. apply consume_preserves.
  intros ns n sp raw v Hf _ Hd name.
  destruct (decide (n = name)) as [->|Hne].
  - rewrite lookup_insert_eq. split; [intros _ | eauto].
    rewrite <- (find_spec_dest _ _ _ Hf).
    apply in_map, (find_spec_In _ _ Hf).
  - rewrite lookup_insert_ne by assumption. apply Hd.
Qed.



Lemma given_split name line :
  Argparse.given name line = true ->
  exists front raw rest,
    line = front ++ (name, raw) :: rest /\ Argparse.given name rest = false.
Proof.
  induction line as [|[n raw] rest IH]; [discriminate|].
  rewrite given_cons. cbn [fst].
  destruct (Argparse.given name rest) eqn:Hrest.
  - intros _. destruct (IH eq_refl) as (front & raw' & rest' & -> & Hg).
    exists ((n, raw) :: front), raw', rest'. now split.
  - rewrite orb_false_r. intros ->%String.eqb_eq.
    exists [], raw, rest. now split.
Qed.

Lemma consume_given line name sp ns ns' :
  Argparse.consume line ns = Ok ns' ->
  Argparse.given name line = true ->
  Argparse.find_spec name Argparse.specs = Some sp ->
  exists raw v,
    Argparse.convert sp raw = Ok v /\
    ns' !! name = Some v.
Proof.
  intros Hc Hg Hsp.
  destruct (given_split _ _ Hg) as (front & raw & rest & -> & Hrest).
  rewrite consume_app in Hc.
  destruct (Argparse.consume front ns) as [ns0|]; [|discriminate Hc].
  cbn [rbind] in Hc. rewrite consume_cons, Hsp in Hc.
  destruct (String.eqb name "help"); [discriminate Hc|].
  destruct (Argparse.convert sp raw) as [v|] eqn:Hv; [|discriminate Hc].
  cbn [rbind] in Hc. exists raw, v. split; [exact Hv|].
  rewrite (consume_not_given _ _ _ _ Hc Hrest). apply lookup_insert_eq.
Qed.

(** With [--push_to_hub] on a command line the parser accepts,
    [parse_args] returns the namespace when [--output_dir] is given and
    fails its assertion when it is not. *)
Theorem push_to_hub_needs_output_dir (line : Argparse.argv) (ns : Namespace) :
  Argparse.parse line = Ok ns ->
  Argparse.given "push_to_hub" line = true ->
  parse_args line
  = if Argparse.given "output_dir" line then Ok ns
    else Raise (AssertionError
      "Need an `output_dir` to create a repo when `--push_to_hub` is passed.").
Proof.
  intros Hparse Hpush. unfold parse_args. rewrite Hparse. cbn [rbind].
  apply parse_inv in Hparse as [Hc _].
  destruct (consume_given _ _ _ _ _ Hc Hpush eq_refl) as (raw & v & Hv & Hl).
  unfold Argparse.convert in Hv. cbn [Argparse.ty Argparse.opt] in Hv.
  assert (v = VBool true) as -> by (destruct raw; [discriminate Hv | congruence]).
  unfold getattr. rewrite Hl. cbn [rbind truthy].
  destruct (Argparse.given "output_dir" line) eqn:Hout.
  - destruct (consume_given _ _ _ _ _ Hc Hout eq_refl) as (raw' & v' & Hv' & ->).
    unfold Argparse.convert in Hv'.
    cbn [Argparse.ty Argparse.choices Argparse.opt rbind] in Hv'.
    destruct raw' as [d|]; [|discriminate Hv']. cbn [rbind] in Hv'.
    injection Hv' as <-. reflexivity.
  - rewrite (consume_not_given _ _ _ _ Hc Hout). reflexivity.
Qed.

Lemma push_to_hub_needs_output_dir_witness :
  parse_args [("model_name_or_path", Some "intfloat/e5-small");
              ("push_to_hub", None)]
  = if Argparse.given "output_dir"
         [("model_name_or_path", Some "intfloat/e5-small");
          ("push_to_hub", None)]
    then Ok (<["push_to_hub" := VBool true]>
               (<["model_name_or_path" := VStr "intfloat/e5-small"]>
                  Argparse.defaults))
    else Raise (AssertionError
      "Need an `output_dir` to create a repo when `--push_to_hub` is passed.").
Proof.
  apply (push_to_hub_needs_output_dir
           [("model_name_or_path", Some "intfloat/e5-small");
            ("push_to_hub", None)]); reflexivity.
Defined.

(** ** More on the record generator *)

Section GeneratorEdges.
Context {Doc : Type}.
Implicit Types (fs : @Stream.files Doc).

(** A batch size of 0 or below: the rows are inserted into the store all
    the same, and then the run raises [ValueError] (0) or yields nothing
    (negative). *)
Theorem generator_nonpositive_batch_size
    (shuffle : list nat -> list nat) (file : string) (batch_size : Z) fs :
  batch_size <= 0 ->
  let out := Stream.iterable_dataset_generator shuffle file batch_size fs in
  store_docs (fst out) file = store_docs fs file ++ Stream.csv fs file /\
  snd out = if batch_size =? 0
            then Raise (ValueError "range() arg 3 must not be zero")
            else Ok [].
Proof.
  intros Hb out. split.
  - unfold store_docs. subst out. rewrite generator_store.
    apply insert_multiple_docs.
  - subst out. unfold Stream.iterable_dataset_generator, Stream.sub_id_lists.
    cbn [snd]. destruct (Z.eqb_spec batch_size 0); [reflexivity|].
    destruct (Z.ltb_spec batch_size 0); [reflexivity | lia].
Qed.

Lemma chunks_single (batch_size : nat) (ids : list nat) :
  ids <> [] -> (length ids <= batch_size)%nat ->
  Stream.chunks (length ids) batch_size ids = [ids].
Proof.
  intros Hne Hlen. destruct ids as [|i ids']; [congruence|].
  cbn [length] in Hlen. cbn [length Stream.chunks].
  rewrite take_ge, drop_ge by (cbn [length]; lia).
  now destruct (length ids').
Qed.

(** A batch size that reaches the number of documents in the store: one
    chunk, read in table order, so the records come out in the order of
    insertion whatever the shuffle. *)
Theorem generator_one_chunk_ignores_shuffle
    (shuffle : list nat -> list nat) (file : string) (batch_size : Z) fs :
  is_shuffle shuffle ->
  dense (Stream.open_store fs (store_path file)) ->
  Z.of_nat (length (store_docs fs file ++ Stream.csv fs file)) <= batch_size ->
  0 < batch_size ->
  snd (Stream.iterable_dataset_generator shuffle file batch_size fs)
  = Ok (removelast (store_docs fs file ++ Stream.csv fs file)).
Proof.
  intros Hsh Hd Hlen Hpos.
  unfold Stream.iterable_dataset_generator. cbn [snd].
  fold (store_path file).
  set (db := TinyDB.insert_multiple _ _).
  assert (dense db) as Hdb by now apply insert_multiple_dense.
  assert (map snd db = store_docs fs file ++ Stream.csv fs file) as Hdocs
    by apply insert_multiple_docs.
  assert (length db = length (store_docs fs file ++ Stream.csv fs file)) as Hl
    by now rewrite <- Hdocs, length_map.
  unfold Stream.sub_id_lists.
  destruct (Z.eqb_spec batch_size 0); [lia|].
  destruct (Z.ltb_spec batch_size 0); [lia|].
  cbn [rbind]. f_equal. rewrite <- Hdocs.
  set (ids := shuffle (seq 0 (length db))).
  assert (length ids = length db) as Hids.
  { unfold ids. now rewrite (Hsh _), length_seq. }
  destruct (decide (ids = [])) as [E|E].
  - rewrite E in *. cbn. destruct db; [reflexivity | discriminate Hids].
  - rewrite chunks_single by (assumption || lia).
    cbn [map concat]. rewrite app_nil_r.
    apply get_below_length; [assumption | apply Hsh].
Qed.

Lemma components_app cur a b :
  Stream.components cur (a +:+ String "/" b)
  = Stream.components cur a ++ Stream.components EmptyString b.
Proof.
  revert cur. induction a as [|c a IH]; intros cur.
  - reflexivity.
  - rewrite append_cons. cbn [Stream.components].
    destruct (Ascii.eqb c "/"); now rewrite IH.
Qed.

Lemma components_plain cur name :
  lacks "/" name = true -> Stream.components cur name = [cur +:+ name].
Proof.
  revert cur. induction name as [|c t IH]; intros cur Hn.
  - cbn. f_equal. clear. induction cur as [|x cur IH]; [reflexivity|].
    now rewrite append_cons, <- IH.
  - cbn [lacks] in Hn. apply andb_prop in Hn as [Hc Ht].
    cbn [Stream.components]. apply negb_true_iff in Hc. rewrite Hc.
    rewrite (IH _ Ht). f_equal. rewrite append_assoc. reflexivity.
Qed.

Lemma path_name_in_dir dir name :
  lacks "/" name = true -> name <> "" -> name <> "." ->
  Stream.path_name (dir +:+ String "/" name) = name.
Proof.
  intros Hn H1 H2. unfold Stream.path_name.
  rewrite components_app, (components_plain EmptyString name) by assumption.
  change (EmptyString +:+ name) with name.
  rewrite filter_app, (filter_cons_True _ name) by auto.
  now rewrite filter_nil, last_snoc.
Qed.

Lemma path_name_plain name :
  lacks "/" name = true -> name <> "" -> name <> "." ->
  Stream.path_name name = name.
Proof.
  intros Hn H1 H2. unfold Stream.path_name.
  rewrite components_plain by assumption.
  change (EmptyString +:+ name) with name.
  now rewrite (filter_cons_True _ name) by auto.
Qed.

(** The store file is named after the file name alone: source files of
    one name in different directories share one store. *)
Theorem store_path_ignores_directory (dir name : string) :
  lacks "/" name = true -> name <> "" -> name <> "." ->
  store_path (dir +:+ String "/" name) = store_path name.
Proof.
  intros Hn H1 H2. unfold store_path, Stream.path_stem.
  now rewrite path_name_in_dir, path_name_plain.
Qed.

End GeneratorEdges.

Lemma generator_nonpositive_batch_size_witness :
  store_docs
    (fst (Stream.iterable_dataset_generator (@rev nat) "data/quora.csv" 0
            three_rows)) "data/quora.csv"
  = store_docs three_rows "data/quora.csv"
    ++ Stream.csv three_rows "data/quora.csv" /\
  snd (Stream.iterable_dataset_generator (@rev nat) "data/quora.csv" 0 three_rows)
  = if 0 =? 0
    then Raise (ValueError "range() arg 3 must not be zero")
    else Ok [].
Proof.
  apply (generator_nonpositive_batch_size (@rev nat) "data/quora.csv" 0
           three_rows). lia.
Defined.

Lemma generator_one_chunk_ignores_shuffle_witness :
  snd (Stream.iterable_dataset_generator (@rev nat) "data/quora.csv" 1024
         three_rows)
  = Ok (removelast (store_docs three_rows "data/quora.csv"
                    ++ Stream.csv three_rows "data/quora.csv")).
Proof.
  apply (generator_one_chunk_ignores_shuffle (@rev nat) "data/quora.csv" 1024
           three_rows);
    [apply rev_is_shuffle | reflexivity
    | vm_compute; intros H; discriminate H | lia].
Defined.

Lemma store_path_ignores_directory_witness :
  store_path ("train/data" +:+ String "/" "quora.csv") = store_path "quora.csv".
Proof.
  apply (store_path_ignores_directory "train/data" "quora.csv");
    [reflexivity | discriminate | discriminate].
Defined.

(** ** More on the save hook *)

Section SaveHookFacts.
Context {M W : Type}.

Lemma half_up (k : nat) :
  (k <= 2 * ((k + 1) / 2) <= k + 1)%nat /\ (k / 2 = k - (k + 1) / 2)%nat.
Proof.
  pose proof (Nat.div_mod_eq (k + 1) 2) as H1.
  pose proof (Nat.mod_upper_bound (k + 1) 2 ltac:(lia)) as H2.
  pose proof (Nat.div_mod_eq k 2) as H3.
  pose proof (Nat.mod_upper_bound k 2 ltac:(lia)) as H4.
  lia.
Qed.

Lemma py_pop_take (ws : list W) (n : nat) :
  (S n <= length ws)%nat ->
  exists x, py_pop (take (S n) ws) = Some (take n ws, x).
Proof.
  intros Hn. destruct (lookup_lt_is_Some_2 ws n) as [x Hx]; [lia|].
  exists x. rewrite (take_S_r _ _ _ Hx). apply py_pop_snoc.
Qed.

(** The loop from index [i], the list of pending state dicts shortened by
    [i] entries already: it goes on while the index stays below [s], half
    the number of models rounded up. *)
Lemma save_loop_half (output_dir : string) (ws : list W) (s : nat) :
  (length ws <= 2 * s <= length ws + 1)%nat ->
  forall (rest : list M) (i : nat) (log : list (M * string * W)),
    length ws = (i + length rest)%nat ->
    fst (Hooks.save_loop output_dir i rest
           {| Hooks.weights := take (length rest) ws; Hooks.saved := log |})
    = {| Hooks.weights := take (length ws - Nat.max i s) ws;
         Hooks.saved :=
           log ++ take (s - i)
                    (zip_with (fun m w => (m, output_dir, w)) rest (drop i ws)) |}.
Proof.
  intros Hs.
  induction rest as [|m rest IH]; intros i log Hlen; cbn [length] in *.
  - cbn [Hooks.save_loop fst]. f_equal.
    + f_equal. lia.
    + cbn [zip_with]. now rewrite take_nil, app_nil_r.
  - cbn [Hooks.save_loop Hooks.weights Hooks.saved].
    destruct (decide (i < S (length rest))%nat) as [Hlt|Hge].
    + destruct (lookup_lt_is_Some_2 ws i) as [w Hw]; [lia|].
      rewrite lookup_take_lt, Hw by lia.
      destruct (py_pop_take ws (length rest)) as [x ->]; [lia|].
      rewrite IH by lia. f_equal.
      * f_equal. lia.
      * rewrite (drop_S _ _ _ Hw). cbn [zip_with].
        replace (s - i)%nat with (S (s - S i)) by lia.
        cbn [take]. now rewrite <- app_assoc.
    + rewrite lookup_take_ge by lia. cbn [fst]. f_equal.
      * f_equal. lia.
      * replace (s - i)%nat with O by lia.
        now rewrite app_nil_r.
Qed.

(** [save_model_hook] on [k] models with their [k] state dicts saves the
    first [(k + 1) / 2] models, each with its own state dict, and leaves the
    first [k / 2] state dicts in the list. *)
Theorem save_model_hook_saves_first_half
    (models : list M) (ws : list W) (output_dir : string) :
  length models = length ws ->
  fst (Hooks.save_model_hook models ws output_dir)
  = {| Hooks.weights := take (length ws / 2) ws;
       Hooks.saved :=
         take ((length ws + 1) / 2)
              (zip_with (fun m w => (m, output_dir, w)) models ws) |}.
Proof.
  intros Hlen. unfold Hooks.save_model_hook.
  destruct (half_up (length ws)) as [Hs Hh].
  rewrite <- (take_ge ws (length models)) at 1 by lia.
  rewrite (save_loop_half output_dir ws ((length ws + 1) / 2) Hs) by lia.
  cbn [app drop]. f_equal.
  - f_equal. lia.
  - f_equal. lia.
Qed.

End SaveHookFacts.

Lemma save_model_hook_saves_first_half_witness :
  fst (Hooks.save_model_hook ["model0"; "model1"; "model2"]
         ["state0"; "state1"; "state2"] "step_10")
  = {| Hooks.weights := take (3 / 2) ["state0"; "state1"; "state2"];
       Hooks.saved :=
         take ((3 + 1) / 2)
              (zip_with (fun m w => (m, "step_10", w))
                 ["model0"; "model1"; "model2"]
                 ["state0"; "state1"; "state2"]) |}.
Proof.
  apply (save_model_hook_saves_first_half ["model0"; "model1"; "model2"]
           ["state0"; "state1"; "state2"] "step_10"). reflexivity.
Defined.

(** ** More on pooling *)

Section PoolingMore.
Import Torch.
Local Open Scope R_scope.

(** [mean_pooling] row by row. *)
Lemma mean_pooling_rows (out : model_output) (mask : list (list Z)) (H : nat) :
  hidden H (last_hidden_state out) ->
  mean_pooling out mask = zip_with (pooled H) (last_hidden_state out) mask.
Proof.
  intros [Hsize Hshape]. unfold mean_pooling. rewrite Hsize. clear Hsize.
  unfold pooling_divisor, sum_dim1, expand_mask. revert mask.
  induction Hshape as [|ex exs Htok _ IH]; intros [|m ms]; try reflexivity.
  cbn [map zip_with]. rewrite IH. f_equal. now apply pool_example.
Qed.

Lemma repeat_ext (a b : R) n : a = b -> repeat a n = repeat b n.
Proof. now intros ->. Qed.

Lemma scale_zero (tok : vec) : scale 0 tok = repeat 0 (length tok).
Proof.
  induction tok as [|x tok IH]; [reflexivity|].
  cbn. rewrite <- IH. f_equal. lra.
Qed.

Lemma weighted_sum_zero_mask H (tokens : mat) (m : list Z) :
  Forall (fun tok => length tok = H) tokens ->
  Forall (fun x => x = 0%Z) m ->
  weighted_sum H tokens m = repeat 0 H.
Proof.
  intros Htok. revert m. unfold weighted_sum.
  induction Htok as [|tok toks Hl _ IH]; intros [|x m] Hm; try reflexivity.
  apply Forall_cons in Hm as [-> Hm].
  cbn [zip_with fold_right]. rewrite (IH m Hm), scale_zero, Hl, add_repeat.
  apply repeat_ext. lra.
Qed.

Lemma shaped_hidden H x mask : shaped H x mask -> hidden H x.
Proof.
  intros [Hsize Hshape]. split; [exact Hsize|]. clear Hsize.
  induction Hshape as [|ex m exs ms [_ Htok] _ IH];
    [apply Forall_nil_2 | now apply Forall_cons_2].
Qed.

Lemma shaped_length H x mask : shaped H x mask -> length x = length mask.
Proof. intros [_ Hshape]. exact (Forall2_length _ _ _ Hshape). Qed.

(** For token embeddings of shape (B, T, H) under a mask of shape (B, T)
    that is all zeros, every pooled vector is the zero vector. *)
Theorem mean_pooling_zero_mask_zero (out : model_output)
    (mask : list (list Z)) (H : nat) :
  shaped H (last_hidden_state out) mask ->
  Forall (Forall (fun x => x = 0%Z)) mask ->
  Forall (fun row => row = repeat 0 H) (mean_pooling out mask).
Proof.
  intros Hh%shaped_hidden Hmask. rewrite (mean_pooling_rows out mask H Hh).
  destruct Hh as [_ Hshape]. revert mask Hmask.
  induction Hshape as [|ex exs Htok _ IH]; intros [|m ms] Hmask;
    cbn [zip_with]; try constructor.
  - apply Forall_cons in Hmask as [Hm _]. unfold pooled.
    rewrite weighted_sum_zero_mask by assumption.
    clear. induction H as [|H IH]; [reflexivity|].
    cbn [repeat map]. rewrite IH. f_equal. unfold Rdiv. apply Rmult_0_l.
  - apply Forall_cons in Hmask as [_ Hms]. now apply IH.
Qed.

Lemma weighted_sum_agree H (t1 t2 : mat) (m : list Z) :
  agree_where_attended H t1 t2 m ->
  weighted_sum H t1 m = weighted_sum H t2 m.
Proof.
  unfold agree_where_attended, weighted_sum.
  induction 1 as [|a b x t1 t2 m (Ha & Hb & Hx) _ IH]; [reflexivity|].
  cbn [zip_with fold_right]. rewrite IH. f_equal.
  destruct Hx as [-> | ->]; [|reflexivity].
  now rewrite !scale_zero, Ha, Hb.
Qed.

(** The embeddings of masked-out tokens do not reach the pooled vectors:
    two batches of token embeddings of shape (B, T, H) that agree wherever
    the mask of shape (B, T) is not 0 are pooled to the same vectors. *)
Theorem mean_pooling_ignores_masked_tokens (out1 out2 : model_output)
    (mask : list (list Z)) (H : nat) :
  hidden_size (last_hidden_state out1) = H ->
  hidden_size (last_hidden_state out2) = H ->
  Forall3 (agree_where_attended H)
          (last_hidden_state out1) (last_hidden_state out2) mask ->
  mean_pooling out1 mask = mean_pooling out2 mask.
Proof.
  intros H1 H2 Hagree.
  assert (Forall (Forall (fun tok => length tok = H)) (last_hidden_state out1)
          /\ Forall (Forall (fun tok => length tok = H)) (last_hidden_state out2))
    as [Hs1 Hs2].
  { clear H1 H2. induction Hagree as [|e1 e2 m x1 x2 ms He _ [IH1 IH2]];
      [split; constructor|].
    split; constructor; try assumption.
    - clear -He. induction He as [|? ? ? ? ? ? (Ha & _ & _) _ IH];
        constructor; assumption.
    - clear -He. induction He as [|? ? ? ? ? ? (_ & Hb & _) _ IH];
        constructor; assumption. }
  rewrite (mean_pooling_rows out1 mask H), (mean_pooling_rows out2 mask H)
    by (split; assumption).
  clear -Hagree. induction Hagree as [|e1 e2 m x1 x2 ms He _ IH];
    [reflexivity|].
  cbn [zip_with]. rewrite IH. f_equal. unfold pooled.
  now rewrite (weighted_sum_agree H e1 e2 m He).
Qed.

Lemma mask_total_count (m : list Z) :
  binary_mask m -> mask_total m = INR (attended_count m).
Proof.
  unfold mask_total, sum. induction 1 as [|x m Hx _ IH]; [reflexivity|].
  cbn [map fold_right attended_count]. rewrite IH.
  destruct Hx as [-> | ->]; cbn [Z.eqb Pos.eqb].
  - lra.
  - rewrite S_INR. lra.
Qed.

Lemma attended_count_pos (m : list Z) :
  In 1%Z m -> (1 <= attended_count m)%nat.
Proof.
  induction m as [|x m IH]; [intros []|].
  cbn [attended_count]. intros [->|Hin]; [cbn; lia|].
  destruct (x =? 1)%Z; [lia | now apply IH].
Qed.

(** For token embeddings of shape (B, T, H) under a mask of shape (B, T)
    of zeros and ones that attends to at least one token of every example,
    the clamp does nothing and every pooled vector is the sum of the
    attended token vectors divided by their number. *)
Theorem mean_pooling_is_mean_of_attended (out : model_output)
    (mask : list (list Z)) (H : nat) :
  shaped H (last_hidden_state out) mask ->
  Forall (fun m => binary_mask m /\ In 1%Z m) mask ->
  mean_pooling out mask
  = zip_with (fun example m =>
                map (fun x => x / INR (attended_count m))
                    (weighted_sum H example m))
      (last_hidden_state out) mask.
Proof.
  intros Hh%shaped_hidden Hmask. rewrite (mean_pooling_rows out mask H Hh).
  clear Hh. revert mask Hmask.
  induction (last_hidden_state out) as [|ex exs IH]; intros [|m ms] Hmask;
    try reflexivity.
  apply Forall_cons in Hmask as [[Hb Hin] Hms].
  cbn [zip_with]. rewrite (IH ms Hms). f_equal. unfold pooled.
  rewrite (mask_total_count m Hb), Rmax_left; [reflexivity|].
  apply attended_count_pos, le_INR in Hin. cbn in Hin. lra.
Qed.

Lemma pooled_length H (tokens : mat) (m : list Z) :
  Forall (fun tok => length tok = H) tokens -> length (pooled H tokens m) = H.
Proof.
  intros Htok. unfold pooled. rewrite length_map.
  now apply weighted_sum_length.
Qed.

(** When the encoder returns token embeddings of shape (B, T, H) for a
    mask of shape (B, T), [forward] returns a tensor of shape (B, H): one
    vector per example, each of the hidden size, with or without
    normalization. *)
Theorem forward_shape (self : AutoModelForSentenceEmbedding) (kw : kwargs)
    (H : nat) :
  shaped H (last_hidden_state (model self kw)) (attention_mask kw) ->
  length (forward self kw) = length (attention_mask kw) /\
  Forall (fun row => length row = H) (forward self kw).
Proof.
  intros Hs. pose proof (shaped_length _ _ _ Hs) as Hlen.
  apply shaped_hidden in Hs as Hh. clear Hs.
  assert (length (mean_pooling (model self kw) (attention_mask kw))
          = length (attention_mask kw) /\
          Forall (fun row => length row = H)
                 (mean_pooling (model self kw) (attention_mask kw)))
    as [Hl Hrows].
  { rewrite (mean_pooling_rows _ _ H Hh). destruct Hh as [_ Hshape].
    revert Hlen. generalize (attention_mask kw).
    induction Hshape as [|ex exs Htok _ IH]; intros [|m ms] Hlen;
      cbn [length] in Hlen; try discriminate Hlen.
    - split; [reflexivity | constructor].
    - destruct (IH ms ltac:(lia)) as [IHl IHr]. cbn [zip_with length].
      split; [now rewrite IHl|]. constructor; [now apply pooled_length | exact IHr]. }
  unfold forward. destruct (normalize self); [|now split].
  unfold F_normalize. split; [now rewrite length_map|].
  apply Forall_forall. intros row Hin.
  apply list_elem_of_fmap in Hin as (v & -> & Hv). rewrite length_map.
  rewrite Forall_forall in Hrows. now apply Hrows.
Qed.


Lemma two_tokens_hidden : hidden 2 (last_hidden_state two_tokens).
Proof. split; [reflexivity | repeat constructor]. Qed.

Lemma mean_pooling_zero_mask_zero_witness :
  Forall (fun row => row = repeat 0 2) (mean_pooling two_tokens [[0; 0]%Z]).
Proof.
  apply (mean_pooling_zero_mask_zero two_tokens [[0; 0]%Z] 2);
    [split; [reflexivity | repeat constructor] | repeat constructor].
Defined.

Lemma mean_pooling_ignores_masked_tokens_witness :
  mean_pooling two_tokens [[1; 0]%Z] = mean_pooling two_tokens_repadded [[1; 0]%Z].
Proof.
  apply (mean_pooling_ignores_masked_tokens two_tokens two_tokens_repadded
           [[1; 0]%Z] 2); [reflexivity | reflexivity |].
  constructor; [|constructor].
  constructor; [repeat split; now right|].
  constructor; [repeat split; now left | constructor].
Defined.

Lemma mean_pooling_is_mean_of_attended_witness :
  mean_pooling two_tokens [[1; 0]%Z]
  = zip_with (fun example m =>
                map (fun x => x / INR (attended_count m))
                    (weighted_sum 2 example m))
      (last_hidden_state two_tokens) [[1; 0]%Z].
Proof.
  apply (mean_pooling_is_mean_of_attended two_tokens [[1; 0]%Z] 2).
  - split; [reflexivity | repeat constructor].
  - constructor; [|constructor]. split; [|now left].
    constructor; [now right|]. constructor; [now left | constructor].
Defined.

Lemma forward_shape_witness :
  length (forward one_token attended) = length (attention_mask attended) /\
  Forall (fun row => length row = 2%nat) (forward one_token attended).
Proof.
  apply (forward_shape one_token attended 2).
  split; [reflexivity | repeat constructor].
Defined.

End PoolingMore.

(** ** The range of scores and loss *)

Section RangeFacts.
Import Torch.
Local Open Scope R_scope.

Lemma sum_squares_cons x (v : vec) : sum_squares (x :: v) = x * x + sum_squares v.
Proof. reflexivity. Qed.

Lemma dot_cons x y (a b : vec) : dot (x :: a) (y :: b) = x * y + dot a b.
Proof. reflexivity. Qed.

Lemma le_of_squares p q : 0 <= q -> p * p <= q * q -> p <= q.
Proof.
  intros Hq Hsq. destruct (Rle_dec p q) as [H|H]; [exact H|].
  apply Rnot_le_lt in H. nra.
Qed.

(** Cauchy-Schwarz. *)
Lemma dot_squared_bound (a b : vec) :
  dot a b * dot a b <= sum_squares a * sum_squares b.
Proof.
  revert b. induction a as [|x a IH]; intros [|y b].
  - cbn. unfold sum_squares, sum. cbn. lra.
  - cbn [dot]. unfold sum_squares at 1, sum. cbn. lra.
  - cbn [dot]. unfold sum_squares at 2, sum. cbn. lra.
  - rewrite dot_cons, !sum_squares_cons.
    specialize (IH b).
    pose proof (sum_squares_nonneg a) as HA.
    pose proof (sum_squares_nonneg b) as HB.
    set (A := sum_squares a) in *. set (B := sum_squares b) in *.
    set (D := dot a b) in *.
    assert (2 * (x * y * D) <= x * x * B + A * (y * y)) as Hmix.
    { apply le_of_squares.
      - assert (0 <= x * x) by apply Rle_0_sqr.
        assert (0 <= y * y) by apply Rle_0_sqr. nra.
      - assert (0 <= (x * x * B - A * (y * y)) * (x * x * B - A * (y * y)))
          by apply Rle_0_sqr.
        assert (0 <= (x * y) * (x * y)) by apply Rle_0_sqr.
        assert ((x * y) * (x * y) * (D * D) <= (x * y) * (x * y) * (A * B))
          by (apply Rmult_le_compat_l; assumption).
        nra. }
    nra.
Qed.

Lemma unit_sum_squares (v : vec) : unit_norm v -> sum_squares v = 1.
Proof.
  unfold unit_norm, l2_norm. intros H.
  rewrite <- (sqrt_sqrt (sum_squares v)) by apply sum_squares_nonneg.
  rewrite H. lra.
Qed.

Lemma unit_dot_range (a b : vec) :
  unit_norm a -> unit_norm b -> -1 <= dot a b <= 1.
Proof.
  intros Ha%unit_sum_squares Hb%unit_sum_squares.
  pose proof (dot_squared_bound a b) as H. rewrite Ha, Hb in H.
  split; nra.
Qed.

(** On two batches of unit vectors of one shape every score lies between
    -1 and 1. *)
Theorem unit_embeddings_score_range (q1 q2 : mat) :
  same_shape q1 q2 ->
  Forall unit_norm q1 -> Forall unit_norm q2 ->
  Forall (fun s => -1 <= s <= 1) (get_cosing_embeddings q1 q2).
Proof.
  rewrite get_cosing_embeddings_dot. intros _ H1. revert q2.
  induction H1 as [|a q1 Ha _ IH]; intros [|b q2] H2; cbn [zip_with];
    try constructor.
  - apply Forall_cons in H2 as [Hb _]. now apply unit_dot_range.
  - apply Forall_cons in H2 as [_ H2]. now apply IH.
Qed.

Lemma pair_loss_range l s :
  l = 0 \/ l = 1 -> -1 <= s <= 1 -> 0 <= pair_loss l s <= 4.
Proof.
  intros Hl Hs. split; [apply pair_loss_nonneg|].
  unfold pair_loss, Rsqr. destruct Hl as [-> | ->].
  - replace ((1 - 0) * s) with s by lra.
    destruct (Rle_dec 0 s).
    + rewrite Rmax_right by assumption. nra.
    + rewrite Rmax_left by lra. nra.
  - replace ((1 - 1) * s) with 0 by lra. rewrite Rmax_left by lra. nra.
Qed.

Lemma sum_upper (x : vec) (c : R) :
  Forall (fun a => a <= c) x -> sum x <= c * INR (length x).
Proof.
  induction 1 as [|a x Ha _ IH].
  - cbn. lra.
  - change (sum (a :: x)) with (a + sum x). cbn [length]. rewrite S_INR. lra.
Qed.

Lemma pair_losses_range (labels scores : vec) :
  Forall (fun l => l = 0 \/ l = 1) labels ->
  Forall (fun s => -1 <= s <= 1) scores ->
  Forall (fun a => a <= 4) (zip_with pair_loss labels scores).
Proof.
  intros Hl. revert scores.
  induction Hl as [|l ls Hl0 _ IH]; intros [|s ss] Hs; cbn [zip_with];
    try constructor.
  - apply Forall_cons in Hs as [Hs0 _]. now apply pair_loss_range.
  - apply Forall_cons in Hs as [_ Hss]. now apply IH.
Qed.

(** With labels 0 and 1 and scores between -1 and 1, as unit embeddings
    give them, the loss of a batch lies between 0 and 4. *)
Theorem get_loss_range (scores labels : vec) :
  length labels = length scores ->
  labels <> [] ->
  Forall (fun l => l = 0 \/ l = 1) labels ->
  Forall (fun s => -1 <= s <= 1) scores ->
  0 <= get_loss scores labels <= 4.
Proof.
  intros Hlen Hne Hl Hs. split; [now apply get_loss_nonneg|].
  rewrite get_loss_unfold by assumption. unfold mean_pair_loss.
  pose proof (length_pos_INR labels Hne) as Hn.
  pose proof (sum_upper _ 4 (pair_losses_range labels scores Hl Hs)) as Hsum.
  rewrite length_zip_same in Hsum by assumption.
  apply (Rmult_le_reg_r (INR (length labels))); [exact Hn|].
  unfold Rdiv. rewrite Rmult_assoc, Rinv_l by lra. lra.
Qed.

Lemma unit_pair x y : x * x + (y * y + 0) = 1 -> unit_norm [x; y].
Proof.
  intros E. unfold unit_norm, l2_norm, sum_squares, square, sum. cbn.
  rewrite E. apply sqrt_1.
Qed.

Lemma unit_embeddings_score_range_witness :
  Forall (fun s => -1 <= s <= 1)
    (get_cosing_embeddings [[1; 0]; [3/5; 4/5]] [[0; 1]; [3/5; 4/5]]).
Proof.
  apply unit_embeddings_score_range;
    [repeat constructor | | ];
    repeat apply Forall_cons_2; try apply Forall_nil_2;
    apply unit_pair; lra.
Defined.

Lemma get_loss_range_witness :
  0 <= get_loss [1/2; -1] [0; 1] <= 4.
Proof.
  apply get_loss_range.
  - reflexivity.
  - intros H; discriminate H.
  - repeat apply Forall_cons_2; try apply Forall_nil_2; lra.
  - repeat apply Forall_cons_2; try apply Forall_nil_2; lra.
Defined.

End RangeFacts.

(** ** Tokenized columns reach the model under the tokenizer's keys *)

Section PreprocessFacts.
Import Preprocess.

Lemma dict_set_fresh {V} k (v : V) d :
  k ∉ map fst d -> dict_set k v d = d ++ [(k, v)].
Proof.
  induction d as [|[k' v'] d IH]; [reflexivity|].
  cbn [map fst dict_set]. intros Hk.
  apply not_elem_of_cons in Hk as [Hne Hk].
  destruct (String.eqb_spec k' k) as [->|_]; [congruence|].
  cbn [app]. now rewrite IH.
Qed.

Lemma dict_get_last {V} k (v : V) d :
  k ∉ map fst d -> dict_get k (d ++ [(k, v)]) = Some v.
Proof.
  induction d as [|[k' v'] d IH]; cbn [map fst dict_get app].
  - intros _. now rewrite String.eqb_refl.
  - intros [Hne Hk]%not_elem_of_cons.
    destruct (String.eqb_spec k' k) as [->|_]; [congruence|]. now apply IH.
Qed.

(** Setting keys that are new and distinct appends them in order. *)
Lemma fold_dict_set {V A} (key : A -> string) (val : A -> V) items d :
  NoDup (map key items) ->
  (forall a, a ∈ items -> key a ∉ map fst d) ->
  fold_left (fun d a => dict_set (key a) (val a) d) items d
  = d ++ map (fun a => (key a, val a)) items.
Proof.
  revert d. induction items as [|a items IH]; intros d Hnd Hd; cbn [fold_left map].
  - now rewrite app_nil_r.
  - apply NoDup_cons in Hnd as [Ha Hnd].
    rewrite dict_set_fresh by (apply Hd; left).
    rewrite IH; [now rewrite <- app_assoc | assumption |].
    intros b Hb. rewrite map_app. cbn [map fst].
    rewrite not_elem_of_app, not_elem_of_cons. repeat split.
    + apply Hd. now right.
    + intros E. apply Ha. rewrite <- E. now apply (list_elem_of_fmap_2 key).
    + apply not_elem_of_nil.
Qed.

Lemma prefix_cons_same c r t :
  String.prefix (String c r) (String c t) = String.prefix r t.
Proof.
  change (String.prefix (String c r) (String c t))
    with (if ascii_dec c c then String.prefix r t else false).
  destruct (ascii_dec c c); congruence.
Qed.

Lemma prefix_append p k : String.prefix p (p +:+ k) = true.
Proof.
  induction p as [|c p IH]; [apply prefix_nil|].
  rewrite append_cons, prefix_cons_same. exact IH.
Qed.

Lemma contains_cons sub c t :
  PyStr.contains sub (String c t)
  = String.prefix sub (String c t) || PyStr.contains sub t.
Proof. reflexivity. Qed.

Lemma contains_append p k : PyStr.contains p (p +:+ k) = true.
Proof.
  destruct (p +:+ k) eqn:E.
  - destruct p; [reflexivity | rewrite append_cons in E; discriminate E].
  - rewrite contains_cons, <- E, prefix_append. reflexivity.
Qed.

Lemma append_inj p k k' : p +:+ k = p +:+ k' -> k = k'.
Proof.
  induction p as [|c p IH]; [easy|].
  rewrite !append_cons. intros E. injection E as E. now apply IH.
Qed.

(** A string without [old] in it is left as it is. *)
Lemma replace_from_absent old new s :
  PyStr.contains old s = false -> PyStr.replace_from old new 0 s = s.
Proof.
  induction s as [|c t IH]; [reflexivity|].
  rewrite contains_cons. intros [Hp Ht]%orb_false_elim.
  cbn [PyStr.replace_from]. rewrite Hp, IH by assumption. reflexivity.
Qed.

Lemma replace_from_skip old new p k :
  PyStr.replace_from old new (String.length p) (p +:+ k)
  = PyStr.replace_from old new 0 k.
Proof.
  induction p as [|c p IH]; [reflexivity|].
  rewrite append_cons. cbn [String.length PyStr.replace_from].
  destruct k as [|a k]. 
  - clear IH. induction p as [|c' p IHp]; [reflexivity|].
    rewrite append_cons. cbn [String.length PyStr.replace_from]. exact IHp.
  - exact IH.
Qed.

(** Removing a prefix that does not come back in the rest gives the rest. *)
Lemma replace_prefix c p k :
  PyStr.contains (String c p) k = false ->
  PyStr.replace (String c p) "" (String c p +:+ k) = k.
Proof.
  intros Hk. unfold PyStr.replace.
  pose proof (prefix_append (String c p) k) as Hp.
  rewrite append_cons in *. cbn [PyStr.replace_from]. rewrite Hp.
  cbn [String.length].
  replace (S (String.length p) - 1)%nat with (String.length p) by lia.
  change (("" +:+ ?x)%string) with x.
  rewrite replace_from_skip. now apply replace_from_absent.
Qed.

Lemma question2_lacks_question1 k :
  PyStr.contains "question1_" k = false ->
  PyStr.contains "question1_" ("question2_" +:+ k) = false.
Proof.
  intros Hk. rewrite !append_cons. change ("" +:+ k)%string with k.
  rewrite contains_cons.
  replace (String.prefix "question1_" _) with false
    by (symmetry; repeat rewrite prefix_cons_same;
        apply prefix_head_ne; intros H; discriminate H).
  cbn [orb].
  repeat (rewrite contains_cons, prefix_head_ne by (intros H; discriminate H);
          cbn [orb]).
  exact Hk.
Qed.

Lemma question1_lacks_question2 k :
  PyStr.contains "question2_" k = false ->
  PyStr.contains "question2_" ("question1_" +:+ k) = false.
Proof.
  intros Hk. rewrite !append_cons. change ("" +:+ k)%string with k.
  rewrite contains_cons.
  replace (String.prefix "question2_" _) with false
    by (symmetry; repeat rewrite prefix_cons_same;
        apply prefix_head_ne; intros H; discriminate H).
  cbn [orb].
  repeat (rewrite contains_cons, prefix_head_ne by (intros H; discriminate H);
          cbn [orb]).
  exact Hk.
Qed.

Lemma labels_plain :
  PyStr.contains "question1_" "labels" = false /\
  PyStr.contains "question2_" "labels" = false.
Proof. split; reflexivity. Qed.

Lemma dict_comprehension_app {V} keep f (a b : list (string * V)) :
  dict_comprehension keep f (a ++ b)
  = fold_left (fun d kv => if keep (fst kv) then dict_set (f (fst kv)) (snd kv) d else d)
      b (dict_comprehension keep f a).
Proof. unfold dict_comprehension. apply fold_left_app. Qed.

(** Items the comprehension does not keep leave the dict as it is. *)
Lemma fold_skip {V} (keep : string -> bool) f (items d : list (string * V)) :
  Forall (fun kv => keep (fst kv) = false) items ->
  fold_left (fun d kv => if keep (fst kv) then dict_set (f (fst kv)) (snd kv) d else d)
    items d = d.
Proof.
  intros H. revert d. induction H as [|kv items Hk _ IH]; intros d;
    cbn [fold_left]; [reflexivity|]. now rewrite Hk.
Qed.

(** Items it keeps, with new and distinct keys, are appended. *)
Lemma fold_keep {V} (keep : string -> bool) f (items d : list (string * V)) :
  Forall (fun kv => keep (fst kv) = true) items ->
  NoDup (map (fun kv => f (fst kv)) items) ->
  (forall kv, kv ∈ items -> f (fst kv) ∉ map fst d) ->
  fold_left (fun d kv => if keep (fst kv) then dict_set (f (fst kv)) (snd kv) d else d)
    items d = d ++ map (fun kv => (f (fst kv), snd kv)) items.
Proof.
  intros Hk Hnd Hd.
  rewrite <- (fold_dict_set (fun kv => f (fst kv)) snd) by assumption.
  clear Hnd Hd. revert d. induction Hk as [|kv items Hk _ IH]; intros d;
    cbn [fold_left]; [reflexivity|]. now rewrite Hk, IH.
Qed.

Lemma dict_comprehension_keep {V} (keep : string -> bool) f
    (items : list (string * V)) :
  Forall (fun kv => keep (fst kv) = true) items ->
  NoDup (map (fun kv => f (fst kv)) items) ->
  dict_comprehension keep f items = map (fun kv => (f (fst kv), snd kv)) items.
Proof.
  intros Hk Hnd. unfold dict_comprehension. rewrite fold_keep; try assumption.
  - reflexivity.
  - intros kv _. apply not_elem_of_nil.
Qed.

Section Columns.
Context {E : Type}.
Implicit Types tk : list (string * E).

Lemma prefixed_keys p tk : map fst (prefixed p tk) = map (String.append p) (map fst tk).
Proof. unfold prefixed. rewrite !map_map. reflexivity. Qed.

Lemma prefixed_NoDup p tk : NoDup (map fst tk) -> NoDup (map fst (prefixed p tk)).
Proof.
  intros H. rewrite prefixed_keys.
  assert (Inj eq eq (String.append p)) by (intros k k'; apply append_inj).
  now apply (NoDup_fmap_2 (String.append p)).
Qed.

Lemma prefixed_contains p tk :
  Forall (fun kv => PyStr.contains p (fst kv) = true) (prefixed p tk).
Proof.
  unfold prefixed. apply Forall_forall. intros kv [x [-> _]]%list_elem_of_fmap_1.
  apply contains_append.
Qed.

Lemma key_of_prefixed p tk k :
  k ∈ map fst (prefixed p tk) -> PyStr.contains p k = true.
Proof.
  intros [kv [-> Hkv]]%list_elem_of_fmap_1.
  pose proof (prefixed_contains p tk) as H. rewrite Forall_forall in H.
  now apply H.
Qed.

Lemma fold_skip_keys p f (items d : list (string * column E)) :
  Forall (fun k => PyStr.contains p k = false) (map fst items) ->
  fold_left (fun d kv => if PyStr.contains p (fst kv)
                         then dict_set (f (fst kv)) (snd kv) d else d)
    items d = d.
Proof.
  intros H. apply fold_skip. now rewrite Forall_fmap in H.
Qed.

(** The comprehension picks the columns of one prefix out of a batch and
    gives them back under the tokenizer's keys. *)
Lemma kwargs_of_columns c p tk (before after : list (string * column E)) :
  NoDup (map fst tk) ->
  Forall (fun k => PyStr.contains (String c p) k = false) (map fst tk) ->
  Forall (fun k => PyStr.contains (String c p) k = false) (map fst before) ->
  Forall (fun k => PyStr.contains (String c p) k = false) (map fst after) ->
  model_kwargs E (String c p) (before ++ prefixed (String c p) tk ++ after)
  = encoded tk.
Proof.
  intros Hnd Htk Hb Ha. unfold model_kwargs.
  rewrite dict_comprehension_app. unfold dict_comprehension.
  rewrite (fold_skip_keys _ _ before) by assumption.
  rewrite fold_left_app.
  assert (forall kv, kv ∈ tk ->
            PyStr.replace (String c p) "" (String c p +:+ fst kv) = fst kv) as Hrep.
  { intros kv Hkv. apply replace_prefix.
    rewrite Forall_forall in Htk. apply Htk.
    now apply (list_elem_of_fmap_2 fst). }
  assert (map (fun kv => PyStr.replace (String c p) "" (fst kv))
              (prefixed (String c p) tk) = map fst tk) as Hkeys.
  { unfold prefixed. rewrite map_map. cbn [fst].
    apply Forall_fmap_ext. apply Forall_forall. exact Hrep. }
  rewrite (fold_keep _ _ (prefixed (String c p) tk)).
  - rewrite (fold_skip_keys _ _ after) by assumption.
    cbn [app]. unfold prefixed, encoded. rewrite map_map. cbn [fst snd].
    apply Forall_fmap_ext, Forall_forall. intros kv Hkv.
    now rewrite (Hrep kv Hkv).
  - apply prefixed_contains.
  - now rewrite Hkeys.
  - intros kv _. apply not_elem_of_nil.
Qed.

(** The dict [preprocess_function] returns: the tokenizer's columns of the
    first question, those of the second, then the labels. *)
Lemma preprocess_columns (tokenizer : list string -> pyval -> list (string * E))
    args ex ml :
  getattr args "max_length" = Ok ml ->
  plain_keys (tokenizer (map (query) (question1 ex)) ml) ->
  plain_keys (tokenizer (map (query) (question2 ex)) ml) ->
  preprocess_function E tokenizer args ex
  = Ok (prefixed "question1_" (tokenizer (map query (question1 ex)) ml)
        ++ prefixed "question2_" (tokenizer (map query (question2 ex)) ml)
        ++ [("labels", Raw E (is_duplicate ex))]).
Proof.
  intros Hml [Hnd1 Hk1] [Hnd2 Hk2]. unfold preprocess_function.
  rewrite Hml. cbn [rbind].
  set (tk1 := tokenizer (map query (question1 ex)) ml) in *.
  set (tk2 := tokenizer (map query (question2 ex)) ml) in *.
  f_equal.
  assert (dict_comprehension (fun _ => true) (fun k => "question1_" +:+ k)
            (map (fun kv => (fst kv, Encoded E (snd kv))) tk1)
          = prefixed "question1_" tk1) as ->.
  { rewrite dict_comprehension_keep.
    - unfold prefixed. now rewrite map_map.
    - now apply Forall_forall.
    - rewrite map_map. cbn [fst].
      pose proof (prefixed_NoDup "question1_" tk1 Hnd1) as H.
      unfold prefixed in H. now rewrite map_map in H. }
  rewrite (fold_dict_set (fun kv => "question2_" +:+ fst kv)
                         (fun kv => Encoded E (snd kv))).
  - fold (prefixed "question2_" tk2).
    rewrite dict_set_fresh; [now rewrite <- app_assoc|].
    rewrite map_app, not_elem_of_app.
    split; intros Hin%key_of_prefixed; discriminate Hin.
  - pose proof (prefixed_NoDup "question2_" tk2 Hnd2) as H.
    unfold prefixed in H. now rewrite map_map in H.
  - intros kv Hkv Hin%key_of_prefixed.
    rewrite question2_lacks_question1 in Hin; [discriminate Hin|].
    rewrite Forall_forall in Hk2. apply Hk2.
    now apply (list_elem_of_fmap_2 fst).
Qed.

Lemma prefixed_lacks p q tk :
  (forall k, PyStr.contains q k = false -> PyStr.contains q (p +:+ k) = false) ->
  Forall (fun k => PyStr.contains q k = false) (map fst tk) ->
  Forall (fun k => PyStr.contains q k = false) (map fst (prefixed p tk)).
Proof.
  intros Hp H. rewrite prefixed_keys, Forall_fmap.
  apply (Forall_impl _ _ _ H). intros k Hk. now apply Hp.
Qed.

End Columns.

Lemma parsed_max_length line args :
  parse_args line = Ok args -> exists ml, getattr args "max_length" = Ok ml.
Proof.
  intros Hp%parse_args_inv.
  pose proof (consume_declared _ _ _ Hp defaults_declared "max_length") as Hd.
  unfold getattr.
  destruct Hd as [_ Hd]. destruct Hd as [v ->]; [|eauto].
  vm_compute. tauto.
Qed.

(** For a batch with the columns [preprocess_function] returns, the model
    is called for either question with the tokenizer's own output for that
    question, under the tokenizer's keys and in its order, and the labels
    are the [is_duplicate] column. *)
Theorem model_receives_tokenizer_output {E}
    (tokenizer : list string -> pyval -> list (string * E))
    (line : Argparse.argv) (args : Namespace) (ex : examples) :
  parse_args line = Ok args ->
  (forall texts ml, plain_keys (tokenizer texts ml)) ->
  exists ml batch,
    getattr args "max_length" = Ok ml /\
    preprocess_function E tokenizer args ex = Ok batch /\
    model_kwargs E "question1_" batch
      = encoded (tokenizer (map (query) (question1 ex)) ml) /\
    model_kwargs E "question2_" batch
      = encoded (tokenizer (map (query) (question2 ex)) ml) /\
    dict_get "labels" batch = Some (Raw E (is_duplicate ex)).
Proof.
  intros [ml Hml]%parsed_max_length Hplain.
  pose proof (Hplain (map query (question1 ex)) ml) as H1.
  pose proof (Hplain (map query (question2 ex)) ml) as H2.
  exists ml. eexists. split; [exact Hml|].
  split; [exact (preprocess_columns tokenizer args ex ml Hml H1 H2)|].
  set (tk1 := tokenizer (map query (question1 ex)) ml) in *.
  set (tk2 := tokenizer (map query (question2 ex)) ml) in *.
  destruct H1 as [Hnd1 Hk1], H2 as [Hnd2 Hk2].
  assert (Forall (fun k => PyStr.contains "question1_" k = false) (map fst tk1))
    as Hk11 by (apply (Forall_impl _ _ _ Hk1); tauto).
  assert (Forall (fun k => PyStr.contains "question2_" k = false) (map fst tk1))
    as Hk12 by (apply (Forall_impl _ _ _ Hk1); tauto).
  assert (Forall (fun k => PyStr.contains "question1_" k = false) (map fst tk2))
    as Hk21 by (apply (Forall_impl _ _ _ Hk2); tauto).
  assert (Forall (fun k => PyStr.contains "question2_" k = false) (map fst tk2))
    as Hk22 by (apply (Forall_impl _ _ _ Hk2); tauto).
  repeat split.
  - apply (kwargs_of_columns _ _ tk1 []); try assumption.
    + apply Forall_nil_2.
    + rewrite map_app, Forall_app. split.
      * apply prefixed_lacks; [apply question2_lacks_question1 | assumption].
      * now repeat constructor.
  - rewrite app_assoc, <- (app_nil_r (_ ++ prefixed "question2_" tk2)),
      <- !app_assoc. cbn [app].
    apply (kwargs_of_columns _ _ tk2); try assumption.
    + apply prefixed_lacks; [apply question1_lacks_question2 | assumption].
    + now repeat constructor.
  - rewrite app_assoc. apply dict_get_last.
    rewrite map_app, not_elem_of_app.
    split; intros Hin%key_of_prefixed; discriminate Hin.
Qed.

Lemma two_ids_plain texts ml : plain_keys (two_ids texts ml).
Proof.
  split.
  - apply (bool_decide_unpack _). vm_compute. exact I.
  - now repeat constructor.
Qed.

Lemma model_receives_tokenizer_output_witness :
  exists ml batch,
    getattr epoch3_args "max_length" = Ok ml /\
    preprocess_function _ two_ids epoch3_args two_rows = Ok batch /\
    model_kwargs _ "question1_" batch
      = encoded (two_ids (map (query) (question1 two_rows)) ml) /\
    model_kwargs _ "question2_" batch
      = encoded (two_ids (map (query) (question2 two_rows)) ml) /\
    dict_get "labels" batch = Some (Raw _ (is_duplicate two_rows)).
Proof.
  apply (model_receives_tokenizer_output two_ids epoch3_line).
  - reflexivity.
  - apply two_ids_plain.
Defined.

End PreprocessFacts.

(** ** The step and epoch counts *)

Section CountFacts.







(** An empty train set: the division by [num_update_steps_per_epoch]
    raises [ZeroDivisionError]. *)
Theorem step_counts_empty_train_set (args : Namespace) (g e : Z)
    (max_train_steps : pyval) :
  count_attrs args g e max_train_steps -> g <> 0 ->
  (max_train_steps = VNone \/ exists m, max_train_steps = VInt m) ->
  step_counts args 0 = Raise ZeroDivisionError.
Proof.
  intros (Hg & He & Hm) Hg0 Hmax.
  assert (ceil_div 0 g = Ok 0) as Hu.
  { unfold ceil_div. destruct (Z.eqb_spec g 0); [contradiction|].
    now rewrite Z.opp_0, Z.div_0_l. }
  unfold step_counts, getattr. rewrite Hm, Hg. cbn [rbind as_int].
  rewrite Hu. cbn [rbind].
  destruct Hmax as [-> | [m ->]]; cbn [is_none].
  - rewrite He. cbn [rbind as_int].
    rewrite lookup_insert_ne, Hg by discriminate. cbn [rbind as_int].
    rewrite Hu. cbn [rbind].
    rewrite lookup_insert_ne, He by discriminate. cbn [rbind as_int].
    rewrite lookup_insert_eq. reflexivity.
  - cbn [rbind]. rewrite Hg. cbn [rbind as_int]. rewrite Hu. cbn [rbind].
    rewrite Hm. reflexivity.
Qed.

Lemma epoch3_counts : count_attrs epoch3_args 2 3 VNone.
Proof. repeat split; vm_compute; reflexivity. Qed.


Lemma step_counts_empty_train_set_witness :
  step_counts epoch3_args 0 = Raise ZeroDivisionError.
Proof.
  apply (step_counts_empty_train_set epoch3_args 2 3 VNone);
    [apply epoch3_counts | lia | now left].
Defined.



End CountFacts.
